(** * LCOE calculator: validation, engine, comparison and sensitivity

    A shallow embedding of [scripts/calculate_lcoe.py],
    [scripts/compare_projects.py] and [scripts/sensitivity_analysis.py],
    followed by the properties stated about them.

    Numbers.  Python floats are idealised as exact rationals ([Q]): every
    arithmetic operation is exact, [round(x, n)] is round-half-to-even on
    the exact value, and NaN and the infinities do not exist.  Integers are
    [Z].  Every statement below is a statement about this idealisation. *)

From Stdlib Require Import QArith Qround Qabs Qpower Lqa Lia ZArith Ascii String
  List Bool Sorted.
From stdpp Require Import gmap strings list fin_maps.

Local Open Scope Q_scope.

(** ** Python exceptions and the result monad *)

Inductive exn : Type :=
  | ZeroDivisionError
  | TypeError
  | ValueError
  | IndexError.

Inductive result (A : Type) : Type :=
  | Ok (a : A)
  | Raise (e : exn).
Arguments Ok {A} a.
Arguments Raise {A} e.

Definition rbind {A B : Type} (m : result A) (k : A -> result B) : result B :=
  match m with
  | Ok a => k a
  | Raise e => Raise e
  end.

Notation "'let*' x := m 'in' k" := (rbind m (fun x => k))
  (at level 10, x name, m at level 100, k at level 200).

Fixpoint foldM {A S : Type} (step : S -> A -> result S) (l : list A) (s : S)
  : result S :=
  match l with
  | [] => Ok s
  | a :: l' => let* s' := step s a in foldM step l' s'
  end.

(** ** Numbers *)

Definition Qleb (x y : Q) : bool := Qle_bool x y.
Definition Qltb (x y : Q) : bool := negb (Qle_bool y x).

(** [x / y] on floats: a zero divisor raises [ZeroDivisionError]. *)
Definition py_div (x y : Q) : result Q :=
  if Qeq_bool y 0 then Raise ZeroDivisionError else Ok (x / y).

(** Nearest integer, ties to the even one. *)
Definition round_half_even (y : Q) : Z :=
  let n := Qfloor y in
  match Qcompare (y - inject_Z n) (1 # 2) with
  | Lt => n
  | Gt => (n + 1)%Z
  | Eq => if Z.even n then n else (n + 1)%Z
  end.

(** [round(x, ndigits)] *)
Definition py_round (x : Q) (ndigits : nat) : Q :=
  let s := inject_Z (10 ^ Z.of_nat ndigits) in
  Qred (inject_Z (round_half_even (x * s)) / s).

(** [int(x)] on a float: truncation towards zero. *)
Definition py_int (x : Q) : Z := Z.quot (Qnum x) (Zpos (Qden x)).

(** [range(lo, hi)] *)
Definition py_range (lo hi : Z) : list Z := seqZ lo (hi - lo).

(** [sum(l)] *)
Definition py_sum (l : list Q) : Q := fold_left Qplus l 0.

(** [min(l)] and [max(l)]: the first smallest / largest element;
    [ValueError] on an empty sequence. *)
Definition py_min (l : list Q) : result Q :=
  match l with
  | [] => Raise ValueError
  | x :: l' => Ok (fold_left (fun m y => if Qltb y m then y else m) l' x)
  end.

Definition py_max (l : list Q) : result Q :=
  match l with
  | [] => Raise ValueError
  | x :: l' => Ok (fold_left (fun m y => if Qltb m y then y else m) l' x)
  end.

(** [min(l, key=key)] *)
Definition py_min_by {A : Type} (key : A -> Q) (l : list A) : result A :=
  match l with
  | [] => Raise ValueError
  | x :: l' =>
      Ok (fold_left (fun m y => if Qltb (key y) (key m) then y else m) l' x)
  end.

(** [sorted(l, key=key)].  Python's sort is stable, and the stable
    ascending arrangement of a list is unique, so any stable sort computes
    it; insertion from the right is the one written here. *)
Fixpoint insert_by {A : Type} (key : A -> Q) (x : A) (l : list A) : list A :=
  match l with
  | [] => [x]
  | y :: ys =>
      if Qleb (key x) (key y) then x :: y :: ys else y :: insert_by key x ys
  end.

Definition py_sorted {A : Type} (key : A -> Q) (l : list A) : list A :=
  foldr (insert_by key) [] l.

(** [mapM] over a list, left to right. *)
Fixpoint mapM {A B : Type} (f : A -> result B) (l : list A) : result (list B) :=
  match l with
  | [] => Ok []
  | a :: l' =>
      let* b := f a in
      let* bs := mapM f l' in
      Ok (b :: bs)
  end.

(** ** JSON / Python values held by the raw mappings *)

#[warnings="-register-all"]
Inductive pyval : Type :=
  | VNone
  | VBool (b : bool)
  | VInt (z : Z)
  | VFloat (q : Q)
  | VStr (s : string)
  | VList (l : list pyval)
  | VDict (d : list (string * pyval)).

(** [isinstance(v, (int, float))], with the number when it holds;
    [bool] is a subclass of [int]. *)
Definition as_number (v : pyval) : option Q :=
  match v with
  | VBool b => Some (if b then 1 else 0)
  | VInt z => Some (inject_Z z)
  | VFloat q => Some q
  | _ => None
  end.

(** [isinstance(v, int)], with the integer when it holds. *)
Definition as_int (v : pyval) : option Z :=
  match v with
  | VBool b => Some (if b then 1 else 0)%Z
  | VInt z => Some z
  | _ => None
  end.

(** Truth value of an object ([if v:]). *)
Definition truthy (v : pyval) : bool :=
  match v with
  | VNone => false
  | VBool b => b
  | VInt z => negb (z =? 0)%Z
  | VFloat q => negb (Qeq_bool q 0)
  | VStr s => negb (String.eqb s EmptyString)
  | VList l => match l with [] => false | _ => true end
  | VDict d => match d with [] => false | _ => true end
  end.

(** [data.get(key, dflt)] *)
Definition dict_get (data : gmap string pyval) (key : string) (dflt : pyval)
  : pyval :=
  default dflt (data !! key).

(** * calculate_lcoe.py *)

Module CalculateLcoe.

Record LCOEInput : Type := {
  capex_usd : Q;
  annual_generation_mwh : Q;
  project_lifetime_years : Z;
  discount_rate : Q;
  annual_opex_usd : Q;
  annual_fuel_cost_usd : Q;
  opex_escalation_rate : Q;
  fuel_escalation_rate : Q;
  degradation_rate : Q;
  capacity_mw : pyval;
  technology : pyval
}.

Record AnnualBreakdown : Type := {
  year : Z;
  generation_mwh : Q;
  opex_usd : Q;
  fuel_usd : Q;
  total_cost_usd : Q;
  discounted_cost_usd : Q;
  discounted_generation_mwh : Q;
  cumulative_discounted_cost_usd : Q;
  cumulative_discounted_generation_mwh : Q
}.

Record LCOEResult : Type := {
  lcoe_usd_per_mwh : Q;
  lcoe_usd_per_kwh : Q;
  lcoe_cents_per_kwh : Q;
  total_lifecycle_cost_usd : Q;
  total_lifetime_generation_mwh : Q;
  npv_costs_usd : Q;
  npv_generation_mwh : Q;
  capacity_factor : option Q;
  annual_breakdown : list AnnualBreakdown;
  inputs_summary : LCOEInput
}.

Record ValidationError : Type := {
  code : string;
  message : string;
  field : string;
  received : pyval;
  expected : string
}.

(** *** Validation *)

Definition required_fields : list (string * string) :=
  [ ("capex_usd", "Capital expenditure in USD");
    ("annual_generation_mwh", "Annual generation in MWh");
    ("project_lifetime_years", "Project lifetime in years");
    ("discount_rate", "Discount rate (decimal)") ].

Definition missing_field (fld desc : string) : ValidationError :=
  {| code := "MISSING_REQUIRED_FIELD";
     message := "Missing required field: " ++ desc;
     field := fld;
     received := VNone;
     expected := fld ++ " is required" |}.

(** The loop over [required_fields]: the first absent field, if any. *)
Fixpoint check_required (fields : list (string * string))
    (data : gmap string pyval) : option ValidationError :=
  match fields with
  | [] => None
  | (fld, desc) :: rest =>
      match data !! fld with
      | None => Some (missing_field fld desc)
      | Some _ => check_required rest data
      end
  end.

(** [if not isinstance(v, (int, float)) or bad(v): return err]; otherwise
    the number goes on. *)
Definition check_number (v : pyval) (bad : Q -> bool) (err : ValidationError)
  : ValidationError + Q :=
  match as_number v with
  | None => inl err
  | Some q => if bad q then inl err else inr q
  end.

(** [if not isinstance(v, int) or bad(v): return err] *)
Definition check_int (v : pyval) (bad : Z -> bool) (err : ValidationError)
  : ValidationError + Z :=
  match as_int v with
  | None => inl err
  | Some z => if bad z then inl err else inr z
  end.

Definition vbind {A B : Type} (m : ValidationError + A)
    (k : A -> ValidationError + B) : ValidationError + B :=
  match m with
  | inl e => inl e
  | inr a => k a
  end.

Notation "'ensure' x := m 'in' k" := (vbind m (fun x => k))
  (at level 10, x name, m at level 100, k at level 200).

Definition invalid (c msg fld : string) (v : pyval) (ex : string)
  : ValidationError :=
  {| code := c; message := msg; field := fld; received := v; expected := ex |}.

Definition validate_input (data : gmap string pyval)
  : ValidationError + LCOEInput :=
  match check_required required_fields data with
  | Some e => inl e
  | None =>
    let capex := dict_get data "capex_usd" VNone in
    ensure capex' := check_number capex (fun c => Qleb c 0)
      (invalid "INVALID_CAPEX" "Capital expenditure must be a positive number"
         "capex_usd" capex "> 0") in
    let gen := dict_get data "annual_generation_mwh" VNone in
    ensure gen' := check_number gen (fun g => Qleb g 0)
      (invalid "INVALID_GENERATION" "Annual generation must be a positive number"
         "annual_generation_mwh" gen "> 0") in
    let lifetime := dict_get data "project_lifetime_years" VNone in
    ensure lifetime' := check_int lifetime (fun l => (l <? 1)%Z || (50 <? l)%Z)
      (invalid "INVALID_LIFETIME"
         "Project lifetime must be between 1 and 50 years"
         "project_lifetime_years" lifetime "1-50") in
    let rate := dict_get data "discount_rate" VNone in
    ensure rate' := check_number rate (fun r => Qltb r 0 || Qltb (3 # 10) r)
      (invalid "INVALID_DISCOUNT_RATE"
         "Discount rate must be between 0 and 0.30 (0-30%)"
         "discount_rate" rate "0-0.30") in
    let opex := dict_get data "annual_opex_usd" (VInt 0) in
    ensure opex' := check_number opex (fun o => Qltb o 0)
      (invalid "INVALID_OPEX" "Annual OPEX must be non-negative"
         "annual_opex_usd" opex ">= 0") in
    let fuel := dict_get data "annual_fuel_cost_usd" (VInt 0) in
    ensure fuel' := check_number fuel (fun f => Qltb f 0)
      (invalid "INVALID_FUEL_COST" "Annual fuel cost must be non-negative"
         "annual_fuel_cost_usd" fuel ">= 0") in
    let opex_esc := dict_get data "opex_escalation_rate" (VFloat (1 # 50)) in
    ensure opex_esc' := check_number opex_esc (fun e => Qltb e 0 || Qltb (1 # 5) e)
      (invalid "INVALID_OPEX_ESCALATION"
         "OPEX escalation rate must be between 0 and 0.20"
         "opex_escalation_rate" opex_esc "0-0.20") in
    let fuel_esc := dict_get data "fuel_escalation_rate" (VFloat (1 # 50)) in
    ensure fuel_esc' := check_number fuel_esc (fun e => Qltb e 0 || Qltb (1 # 5) e)
      (invalid "INVALID_FUEL_ESCALATION"
         "Fuel escalation rate must be between 0 and 0.20"
         "fuel_escalation_rate" fuel_esc "0-0.20") in
    let deg := dict_get data "degradation_rate" (VFloat (1 # 200)) in
    ensure deg' := check_number deg (fun g => Qltb g 0 || Qltb (1 # 10) g)
      (invalid "INVALID_DEGRADATION"
         "Degradation rate must be between 0 and 0.10"
         "degradation_rate" deg "0-0.10") in
    inr {| capex_usd := capex';
           annual_generation_mwh := gen';
           project_lifetime_years := lifetime';
           discount_rate := rate';
           annual_opex_usd := opex';
           annual_fuel_cost_usd := fuel';
           opex_escalation_rate := opex_esc';
           fuel_escalation_rate := fuel_esc';
           degradation_rate := deg';
           capacity_mw := dict_get data "capacity_mw" VNone;
           technology := dict_get data "technology" (VStr "generic") |}
  end.

(** *** The engine *)

(** The accumulators of the year loop. *)
Record Accum : Type := {
  acc_breakdown : list AnnualBreakdown;
  total_lifecycle_cost : Q;
  total_generation : Q;
  npv_costs : Q;
  npv_generation : Q;
  cumulative_discounted_cost : Q;
  cumulative_discounted_gen : Q
}.

Definition init_accum (inputs : LCOEInput) : Accum :=
  {| acc_breakdown := [];
     total_lifecycle_cost := capex_usd inputs;
     total_generation := 0;
     npv_costs := capex_usd inputs;
     npv_generation := 0;
     cumulative_discounted_cost := capex_usd inputs;
     cumulative_discounted_gen := 0 |}.

(** The body of [for year in range(1, lifetime + 1)]. *)
Definition year_body (inputs : LCOEInput) (acc : Accum) (yr : Z)
  : result Accum :=
  let generation :=
    annual_generation_mwh inputs * (1 - degradation_rate inputs) ^ (yr - 1) in
  let opex :=
    annual_opex_usd inputs * (1 + opex_escalation_rate inputs) ^ (yr - 1) in
  let fuel :=
    annual_fuel_cost_usd inputs * (1 + fuel_escalation_rate inputs) ^ (yr - 1) in
  let total_cost := opex + fuel in
  let discount_factor := (1 + discount_rate inputs) ^ yr in
  let* discounted_cost := py_div total_cost discount_factor in
  let* discounted_gen := py_div generation discount_factor in
  let cdc := cumulative_discounted_cost acc + discounted_cost in
  let cdg := cumulative_discounted_gen acc + discounted_gen in
  Ok {| acc_breakdown := acc_breakdown acc ++
          [ {| year := yr;
               generation_mwh := py_round generation 2;
               opex_usd := py_round opex 2;
               fuel_usd := py_round fuel 2;
               total_cost_usd := py_round total_cost 2;
               discounted_cost_usd := py_round discounted_cost 2;
               discounted_generation_mwh := py_round discounted_gen 2;
               cumulative_discounted_cost_usd := py_round cdc 2;
               cumulative_discounted_generation_mwh := py_round cdg 2 |} ];
        total_lifecycle_cost := total_lifecycle_cost acc + total_cost;
        total_generation := total_generation acc + generation;
        npv_costs := npv_costs acc + discounted_cost;
        npv_generation := npv_generation acc + discounted_gen;
        cumulative_discounted_cost := cdc;
        cumulative_discounted_gen := cdg |}.

Definition year_loop (inputs : LCOEInput) : result Accum :=
  foldM (year_body inputs)
    (py_range 1 (project_lifetime_years inputs + 1)) (init_accum inputs).

(** [npv_costs / npv_generation if npv_generation > 0 else 0] *)
Definition lcoe_per_mwh_of (acc : Accum) : result Q :=
  if Qltb 0 (npv_generation acc)
  then py_div (npv_costs acc) (npv_generation acc)
  else Ok 0.

(** The capacity-factor block: [None], or the unrounded percentage.
    [capacity and capacity > 0] is short-circuit; comparing a non-number
    with [0] raises [TypeError]. *)
Definition capacity_factor_of (inputs : LCOEInput) : result (option Q) :=
  let capacity := capacity_mw inputs in
  if truthy capacity then
    match as_number capacity with
    | None => Raise TypeError
    | Some c =>
        if Qltb 0 c then
          let hours_per_year := 8760 in
          let max_generation := c * hours_per_year in
          let* q := py_div (annual_generation_mwh inputs) max_generation in
          Ok (Some (q * 100))
        else Ok None
    end
  else Ok None.

(** [round(capacity_factor, 1) if capacity_factor else None] *)
Definition report_capacity_factor (cf : option Q) : option Q :=
  match cf with
  | Some f => if Qeq_bool f 0 then None else Some (py_round f 1)
  | None => None
  end.

Definition calculate_lcoe (inputs : LCOEInput) : result LCOEResult :=
  let* acc := year_loop inputs in
  let* lcoe_per_mwh := lcoe_per_mwh_of acc in
  let* lcoe_per_kwh := py_div lcoe_per_mwh 1000 in
  let* cf := capacity_factor_of inputs in
  Ok {| lcoe_usd_per_mwh := py_round lcoe_per_mwh 2;
        lcoe_usd_per_kwh := py_round lcoe_per_kwh 5;
        lcoe_cents_per_kwh := py_round (lcoe_per_kwh * 100) 2;
        total_lifecycle_cost_usd := py_round (total_lifecycle_cost acc) 2;
        total_lifetime_generation_mwh := py_round (total_generation acc) 2;
        npv_costs_usd := py_round (npv_costs acc) 2;
        npv_generation_mwh := py_round (npv_generation acc) 2;
        capacity_factor := report_capacity_factor cf;
        annual_breakdown := acc_breakdown acc;
        inputs_summary := inputs |}.

End CalculateLcoe.

(** * compare_projects.py *)

Module CompareProjects.

(** The mapping [analyze_project] returns for a project that validates. *)
Record ProjectResult : Type := {
  source : pyval;
  technology : pyval;
  capacity_mw : pyval;
  lcoe_usd_per_mwh : Q;
  lcoe_usd_per_kwh : Q;
  lcoe_cents_per_kwh : Q;
  capex_usd : Q;
  capex_per_mw : option Q;
  project_lifetime_years : Z;
  total_lifecycle_cost_usd : Q;
  total_lifetime_generation_mwh : Q;
  npv_costs_usd : Q;
  capacity_factor : option Q;
  discount_rate : Q
}.

(** The mapping it returns for a project that does not. *)
Record FailedProject : Type := {
  failed_source : pyval;
  error : CalculateLcoe.ValidationError;
  failed_technology : pyval
}.

Inductive Analyzed : Type :=
  | Success (p : ProjectResult)
  | Failure (f : FailedProject).

Definition success (a : Analyzed) : bool :=
  match a with
  | Success _ => true
  | Failure _ => false
  end.

(** [analyze_project]: the project is the caller's copy, so popping
    [_source] from it is local. *)
Definition analyze_project (project : gmap string pyval) : result Analyzed :=
  let src := dict_get project "_source" (VStr "unknown") in
  let project := delete "_source" project in
  match CalculateLcoe.validate_input project with
  | inl e =>
      Ok (Failure {| failed_source := src;
                     error := e;
                     failed_technology :=
                       dict_get project "technology" (VStr "unknown") |})
  | inr validated =>
      let* res := CalculateLcoe.calculate_lcoe validated in
      let cap := CalculateLcoe.capacity_mw validated in
      let* per_mw :=
        (if truthy cap then
           match as_number cap with
           | None => Raise TypeError
           | Some c =>
               let* q := py_div (CalculateLcoe.capex_usd validated) c in
               Ok (Some q)
           end
         else Ok None) in
      Ok (Success
        {| source := src;
           technology := CalculateLcoe.technology validated;
           capacity_mw := cap;
           lcoe_usd_per_mwh := CalculateLcoe.lcoe_usd_per_mwh res;
           lcoe_usd_per_kwh := CalculateLcoe.lcoe_usd_per_kwh res;
           lcoe_cents_per_kwh := CalculateLcoe.lcoe_cents_per_kwh res;
           capex_usd := CalculateLcoe.capex_usd validated;
           capex_per_mw := per_mw;
           project_lifetime_years :=
             CalculateLcoe.project_lifetime_years validated;
           total_lifecycle_cost_usd :=
             CalculateLcoe.total_lifecycle_cost_usd res;
           total_lifetime_generation_mwh :=
             CalculateLcoe.total_lifetime_generation_mwh res;
           npv_costs_usd := CalculateLcoe.npv_costs_usd res;
           capacity_factor := CalculateLcoe.capacity_factor res;
           discount_rate := CalculateLcoe.discount_rate validated |})
  end.

(** A ranked project: the same mapping with the three keys the ranking
    loops add. *)
Record Ranked : Type := {
  project : ProjectResult;
  rank : Z;
  lcoe_vs_best_pct : Q;
  lcoe_vs_avg_pct : Q
}.

Record TechSummary : Type := {
  count : nat;
  avg_lcoe_usd_per_mwh : Q;
  min_lcoe_usd_per_mwh : Q;
  max_lcoe_usd_per_mwh : Q;
  best_project : pyval
}.

(** Recommendations.  Titles and descriptions are text rendered from the
    numbers kept here; the rendering itself is not modelled. *)
Inductive Recommendation : Type :=
  | Investment (best_technology best_source : pyval) (best_lcoe : Q)
      (lcoe_advantage_vs_worst percentage_better : Q)
  | Portfolio (worst_tech best_tech : pyval) (worst_tech_lcoe : Q)
      (pct_higher potential_savings : Q)
  | Review (projects : list pyval).

Record Statistics : Type := {
  stat_avg_lcoe : Q;
  stat_min_lcoe : Q;
  stat_max_lcoe : Q;
  lcoe_spread_usd_per_mwh : Q;
  lcoe_spread_pct : Q
}.

Record Summary : Type := {
  total_projects : nat;
  analyzed_successfully : nat;
  failed_to_analyze : nat;
  best_source : pyval;
  best_technology : pyval;
  best_lcoe_usd_per_mwh : Q;
  statistics : Statistics
}.

Inductive Comparison : Type :=
  | Rejected (code message : string) (failed_projects : list FailedProject)
  | Compared (summary : Summary)
      (by_technology : list (pyval * TechSummary))
      (rankings : list Ranked)
      (recommendations : list Recommendation)
      (failed_projects : option (list FailedProject)).

(** Keys of the technology dictionary: lists and dictionaries are not
    hashable, and numbers of any type that compare equal are one key. *)
Definition hashable (v : pyval) : bool :=
  match v with
  | VList _ | VDict _ => false
  | _ => true
  end.

Definition key_eqb (a b : pyval) : bool :=
  match as_number a, as_number b with
  | Some x, Some y => Qeq_bool x y
  | None, None =>
      match a, b with
      | VNone, VNone => true
      | VStr s, VStr t => String.eqb s t
      | _, _ => false
      end
  | _, _ => false
  end.

(** [by_technology[tech].append(proj)], creating the entry when absent;
    entries stay in insertion order. *)
Fixpoint group_add (tech : pyval) (proj : ProjectResult)
    (groups : list (pyval * list ProjectResult))
  : list (pyval * list ProjectResult) :=
  match groups with
  | [] => [(tech, [proj])]
  | (k, ps) :: rest =>
      if key_eqb k tech then (k, ps ++ [proj]) :: rest
      else (k, ps) :: group_add tech proj rest
  end.

Definition group_by_technology (successful : list ProjectResult)
  : result (list (pyval * list ProjectResult)) :=
  foldM (fun groups proj =>
           let tech := technology proj in
           if hashable tech then Ok (group_add tech proj groups)
           else Raise TypeError)
        successful [].

Definition summarize_technology (tech_projects : list ProjectResult)
  : result TechSummary :=
  let tech_lcoes := map lcoe_usd_per_mwh tech_projects in
  let* avg := py_div (py_sum tech_lcoes) (inject_Z (Z.of_nat (length tech_lcoes))) in
  let* mn := py_min tech_lcoes in
  let* mx := py_max tech_lcoes in
  let* best := py_min_by lcoe_usd_per_mwh tech_projects in
  Ok {| count := length tech_projects;
        avg_lcoe_usd_per_mwh := py_round avg 2;
        min_lcoe_usd_per_mwh := py_round mn 2;
        max_lcoe_usd_per_mwh := py_round mx 2;
        best_project := source best |}.

(** [', '.join(...)] needs every item to be a string. *)
Definition join_sources (ps : list ProjectResult) : result unit :=
  if forallb (fun p => match source p with VStr _ => true | _ => false end) ps
  then Ok tt else Raise TypeError.

Definition generate_recommendations (ranked : list Ranked)
    (tech_summary : list (pyval * TechSummary))
  : result (list Recommendation) :=
  match ranked with
  | [] => Ok []
  | best :: _ =>
    let worst := List.last ranked best in
    let lcoe r := lcoe_usd_per_mwh (project r) in
    let* pct := py_div (lcoe worst - lcoe best) (lcoe worst) in
    let rec1 :=
      [ Investment (technology (project best)) (source (project best))
          (lcoe best)
          (py_round (lcoe worst - lcoe best) 2)
          (py_round (pct * 100) 1) ] in
    let* rec2 :=
      (if (1 <? length tech_summary)%nat then
         let tech_lcoes :=
           py_sorted snd
             (map (fun ts => (fst ts, avg_lcoe_usd_per_mwh (snd ts)))
                  tech_summary) in
         match tech_lcoes with
         | [] => Ok []
         | (best_tech, best_tech_lcoe) :: _ =>
             let '(worst_tech, worst_tech_lcoe) :=
               List.last tech_lcoes (best_tech, best_tech_lcoe) in
             if Qltb (best_tech_lcoe * (12 # 10)) worst_tech_lcoe then
               let* gap :=
                 py_div (worst_tech_lcoe - best_tech_lcoe) best_tech_lcoe in
               Ok [ Portfolio worst_tech best_tech
                      (py_round worst_tech_lcoe 2)
                      (py_round (gap * 100) 1)
                      (py_round (worst_tech_lcoe - best_tech_lcoe) 2) ]
             else Ok []
         end
       else Ok []) in
    let* avg_lcoe :=
      py_div (py_sum (map lcoe ranked)) (inject_Z (Z.of_nat (length ranked))) in
    let outliers :=
      filter (fun p => Qltb (avg_lcoe * (13 # 10)) (lcoe p) = true) ranked in
    let* rec3 :=
      (match outliers with
       | [] => Ok []
       | _ =>
           let* _ := join_sources (map project outliers) in
           Ok [ Review (map (fun p => source (project p)) outliers) ]
       end) in
    Ok (rec1 ++ rec2 ++ rec3)
  end.

(** The three keys added to every ranked project. *)
Definition relative_metrics (best_lcoe avg_lcoe : Q) (i : nat)
    (proj : ProjectResult) : result Ranked :=
  let* vs_best :=
    (if Qltb 0 best_lcoe then
       let* q := py_div (lcoe_usd_per_mwh proj - best_lcoe) best_lcoe in
       Ok (py_round (q * 100) 1)
     else Ok 0) in
  let* vs_avg :=
    (if Qltb 0 avg_lcoe then
       let* q := py_div (lcoe_usd_per_mwh proj - avg_lcoe) avg_lcoe in
       Ok (py_round (q * 100) 1)
     else Ok 0) in
  Ok {| project := proj;
        rank := Z.of_nat i + 1;
        lcoe_vs_best_pct := vs_best;
        lcoe_vs_avg_pct := vs_avg |}.

Fixpoint mapiM {A B : Type} (f : nat -> A -> result B) (i : nat) (l : list A)
  : result (list B) :=
  match l with
  | [] => Ok []
  | a :: l' =>
      let* b := f i a in
      let* bs := mapiM f (S i) l' in
      Ok (b :: bs)
  end.

(** [[a for a in analyzed if a["success"]]] and its complement, each
    with the mappings of its own shape. *)
Definition successes (analyzed : list Analyzed) : list ProjectResult :=
  omap (fun a => match a with Success p => Some p | Failure _ => None end)
       analyzed.

Definition failures (analyzed : list Analyzed) : list FailedProject :=
  omap (fun a => match a with Failure f => Some f | Success _ => None end)
       analyzed.

Definition compare_projects (projects : list (gmap string pyval))
  : result Comparison :=
  let* analyzed := mapM analyze_project projects in
  let successful := successes analyzed in
  let failed := failures analyzed in
  match successful with
  | [] =>
      Ok (Rejected "NO_VALID_PROJECTS"
            "No projects could be analyzed successfully" failed)
  | _ :: _ =>
      let ranked := py_sorted lcoe_usd_per_mwh successful in
      let* best := (match ranked with
                    | [] => Raise IndexError
                    | b :: _ => Ok b
                    end) in
      let lcoes := map lcoe_usd_per_mwh successful in
      let* avg_lcoe :=
        py_div (py_sum lcoes) (inject_Z (Z.of_nat (length lcoes))) in
      let* min_lcoe := py_min lcoes in
      let* max_lcoe := py_max lcoes in
      let* ranked :=
        mapiM (relative_metrics (lcoe_usd_per_mwh best) avg_lcoe) 0 ranked in
      let* groups := group_by_technology successful in
      let* tech_summary :=
        mapM (fun g => let* ts := summarize_technology (snd g) in
                       Ok (fst g, ts)) groups in
      let* recs := generate_recommendations ranked tech_summary in
      let* spread_pct :=
        (if Qltb 0 min_lcoe then
           let* q := py_div (max_lcoe - min_lcoe) min_lcoe in
           Ok (py_round (q * 100) 1)
         else Ok 0) in
      Ok (Compared
            {| total_projects := length projects;
               analyzed_successfully := length successful;
               failed_to_analyze := length failed;
               best_source := source best;
               best_technology := technology best;
               best_lcoe_usd_per_mwh := lcoe_usd_per_mwh best;
               statistics :=
                 {| stat_avg_lcoe := py_round avg_lcoe 2;
                    stat_min_lcoe := py_round min_lcoe 2;
                    stat_max_lcoe := py_round max_lcoe 2;
                    lcoe_spread_usd_per_mwh := py_round (max_lcoe - min_lcoe) 2;
                    lcoe_spread_pct := spread_pct |} |}
            tech_summary ranked recs
            (match failed with [] => None | _ => Some failed end))
  end.

End CompareProjects.

(** * sensitivity_analysis.py *)

Module SensitivityAnalysis.

Inductive RangeType : Type := multiplier | absolute.

Record RangeConfig : Type := {
  range_min : Q;
  range_max : Q;
  range_step : Q;
  range_type : RangeType
}.

Definition DEFAULT_RANGES : gmap string RangeConfig :=
  list_to_map
    [ ("capex_usd", Build_RangeConfig (7 # 10) (13 # 10) (1 # 10) multiplier);
      ("annual_opex_usd",
         Build_RangeConfig (7 # 10) (13 # 10) (1 # 10) multiplier);
      ("annual_fuel_cost_usd",
         Build_RangeConfig (7 # 10) (13 # 10) (1 # 10) multiplier);
      ("annual_generation_mwh",
         Build_RangeConfig (8 # 10) (12 # 10) (5 # 100) multiplier);
      ("project_lifetime_years", Build_RangeConfig 15 35 5 absolute);
      ("discount_rate",
         Build_RangeConfig (4 # 100) (14 # 100) (2 # 100) absolute);
      ("degradation_rate", Build_RangeConfig 0 (2 # 100) (5 # 1000) absolute);
      ("opex_escalation_rate",
         Build_RangeConfig 0 (5 # 100) (1 # 100) absolute);
      ("fuel_escalation_rate",
         Build_RangeConfig 0 (5 # 100) (1 # 100) absolute) ].

(** *** Reading a range directive *)

(** [s.split(",")] *)
Fixpoint split_comma (s : string) : list string :=
  match s with
  | EmptyString => [EmptyString]
  | String c s' =>
      if Ascii.eqb c ","%char then EmptyString :: split_comma s'
      else match split_comma s' with
           | [] => [String c EmptyString]
           | p :: ps => String c p :: ps
           end
  end.

Definition is_space (c : ascii) : bool :=
  let n := Ascii.nat_of_ascii c in
  (n =? 32)%nat || ((9 <=? n)%nat && (n <=? 13)%nat).

Fixpoint lstrip (s : string) : string :=
  match s with
  | String c s' => if is_space c then lstrip s' else s
  | EmptyString => EmptyString
  end.

Fixpoint rstrip (s : string) : string :=
  match s with
  | EmptyString => EmptyString
  | String c s' =>
      match rstrip s' with
      | EmptyString => if is_space c then EmptyString else String c EmptyString
      | r => String c r
      end
  end.

Definition digit_of (c : ascii) : option Z :=
  let n := Ascii.nat_of_ascii c in
  if (48 <=? n)%nat && (n <=? 57)%nat then Some (Z.of_nat (n - 48)) else None.

(** The leading decimal digits of [s]: their value continuing [acc], how
    many there are, and what follows them. *)
Fixpoint read_digits (s : string) (acc : Z) (n : nat) : Z * nat * string :=
  match s with
  | String c s' =>
      match digit_of c with
      | Some d => read_digits s' (acc * 10 + d)%Z (S n)
      | None => (acc, n, s)
      end
  | EmptyString => (acc, n, s)
  end.

Definition read_sign (s : string) : bool * string :=
  match s with
  | String c s' =>
      if Ascii.eqb c "-"%char then (true, s')
      else if Ascii.eqb c "+"%char then (false, s')
      else (false, s)
  | EmptyString => (false, s)
  end.

(** [float(s)] for decimal literals: optional surrounding white space, an
    optional sign, digits with an optional fraction, an optional exponent.
    Anything else raises [ValueError] here; the other spellings Python
    reads (digit-group underscores, inf, nan) are outside the model. *)
Definition py_float (s : string) : result Q :=
  let s := rstrip (lstrip s) in
  let '(neg, s) := read_sign s in
  let '(ip, n1, s) := read_digits s 0 0 in
  let '(m, n2, s) :=
    match s with
    | String c s' =>
        if Ascii.eqb c "."%char then read_digits s' ip 0 else (ip, O, s)
    | EmptyString => (ip, O, s)
    end in
  if (n1 + n2 =? 0)%nat then Raise ValueError else
  let mant := inject_Z m / inject_Z (10 ^ Z.of_nat n2) in
  let signed := if neg then - mant else mant in
  match s with
  | EmptyString => Ok signed
  | String c s' =>
      if Ascii.eqb c "e"%char || Ascii.eqb c "E"%char then
        let '(eneg, s'') := read_sign s' in
        match read_digits s'' 0 0 with
        | (e, S _, EmptyString) =>
            Ok (signed * 10 ^ (if eneg then - e else e)%Z)
        | _ => Raise ValueError
        end
      else Raise ValueError
  end.

(** *** generate_range *)

(** [while current <= max_val + 0.0001: values.append(round(current, 6));
    current += step].  The loop need not end, so it runs on fuel: [None]
    means the fuel ran out before the condition failed. *)
Fixpoint range_loop (fuel : nat) (current max_val step : Q) (values : list Q)
  : option (list Q) :=
  match fuel with
  | O => None
  | S fuel' =>
      if Qleb current (max_val + (1 # 10000))
      then range_loop fuel' (current + step) max_val step
             (values ++ [py_round current 6])
      else Some values
  end.

Definition generate_range (fuel : nat) (base_value : Q) (param_name : string)
    (custom_range : option string) : option (result (list Q)) :=
  let custom :=
    match custom_range with
    | Some s => if String.eqb s EmptyString then None else Some s
    | None => None
    end in
  match custom with
  | Some s =>
      let parts := split_comma s in
      match parts with
      | [p0; p1; p2] =>
          match (let* min_val := py_float p0 in
                 let* max_val := py_float p1 in
                 let* step := py_float p2 in
                 Ok (min_val, max_val, step)) with
          | Raise e => Some (Raise e)
          | Ok (min_val, max_val, step) =>
              option_map Ok (range_loop fuel min_val max_val step [])
          end
      | _ => Some (mapM py_float parts)
      end
  | None =>
      match DEFAULT_RANGES !! param_name with
      | None =>
          Some (Ok (map (fun m => base_value * m)
                        [7 # 10; 8 # 10; 9 # 10; 1; 11 # 10; 12 # 10; 13 # 10]))
      | Some config =>
          match range_type config with
          | multiplier =>
              Some (Ok (map (fun m => py_round (base_value * m) 2)
                [ range_min config;
                  range_min config + range_step config;
                  range_min config + 2 * range_step config;
                  1;
                  range_max config - 2 * range_step config;
                  range_max config - range_step config;
                  range_max config ]))
          | absolute =>
              option_map Ok
                (range_loop fuel (range_min config) (range_max config)
                   (range_step config) [])
          end
      end
  end.

(** *** run_sensitivity *)

Record SensitivityPoint : Type := {
  value : Q;
  value_pct_change : Q;
  lcoe_usd_per_mwh : Q;
  lcoe_pct_change : Q;
  is_base : bool
}.

Record SensitivityResult : Type := {
  parameter : string;
  base_value : pyval;
  base_lcoe_usd_per_mwh : Q;
  elasticity : Q;
  elasticity_interpretation : string;
  values_tested : nat;
  min_lcoe : Q;
  max_lcoe : Q;
  lcoe_range : Q;
  results : list SensitivityPoint
}.

Definition interpret_elasticity (e : Q) : string :=
  let abs_e := Qabs e in
  if Qltb abs_e (1 # 10)
  then "Negligible impact - LCOE is insensitive to this parameter"
  else if Qltb abs_e (5 # 10) then "Low impact - modest changes in LCOE"
  else if Qltb abs_e 1 then "Moderate impact - significant influence on LCOE"
  else "High impact - critical parameter that strongly affects LCOE".

(** [dict(base_inputs)] *)
Definition to_dict (i : CalculateLcoe.LCOEInput) : gmap string pyval :=
  list_to_map
    [ ("capex_usd", VFloat (CalculateLcoe.capex_usd i));
      ("annual_generation_mwh", VFloat (CalculateLcoe.annual_generation_mwh i));
      ("project_lifetime_years", VInt (CalculateLcoe.project_lifetime_years i));
      ("discount_rate", VFloat (CalculateLcoe.discount_rate i));
      ("annual_opex_usd", VFloat (CalculateLcoe.annual_opex_usd i));
      ("annual_fuel_cost_usd", VFloat (CalculateLcoe.annual_fuel_cost_usd i));
      ("opex_escalation_rate", VFloat (CalculateLcoe.opex_escalation_rate i));
      ("fuel_escalation_rate", VFloat (CalculateLcoe.fuel_escalation_rate i));
      ("degradation_rate", VFloat (CalculateLcoe.degradation_rate i));
      ("capacity_mw", CalculateLcoe.capacity_mw i);
      ("technology", CalculateLcoe.technology i) ].

(** A number out of an operand of [-], [>] or [/]; anything else makes the
    operation raise [TypeError]. *)
Definition number_operand (v : pyval) : result Q :=
  match as_number v with
  | Some q => Ok q
  | None => Raise TypeError
  end.

(** The body of [for value in values]: [None] is the [continue] of a
    candidate that does not validate. *)
Definition sensitivity_point (base_inputs : CalculateLcoe.LCOEInput)
    (param_name : string) (base_lcoe : Q) (base_value : pyval) (v : Q)
  : result (option SensitivityPoint) :=
  let modified := <[param_name := VFloat v]> (to_dict base_inputs) in
  let modified :=
    if String.eqb param_name "project_lifetime_years"
    then <[param_name := VInt (py_int v)]> modified
    else modified in
  match CalculateLcoe.validate_input modified with
  | inl _ => Ok None
  | inr validated =>
      let* res := CalculateLcoe.calculate_lcoe validated in
      let lcoe := CalculateLcoe.lcoe_usd_per_mwh res in
      let* pct_change :=
        (if Qltb 0 base_lcoe then
           let* q := py_div (lcoe - base_lcoe) base_lcoe in Ok (q * 100)
         else Ok 0) in
      let* bv := number_operand base_value in
      let* vpc :=
        (if Qltb 0 bv then
           let* q := py_div (v - bv) bv in Ok (q * 100)
         else Ok 0) in
      Ok (Some {| value := v;
                  value_pct_change := py_round vpc 2;
                  lcoe_usd_per_mwh := lcoe;
                  lcoe_pct_change := py_round pct_change 2;
                  is_base := Qltb (Qabs (v - bv)) (1 # 10000) |})
  end.

(** The elasticity loop over the retained points. *)
Definition elasticity_step (elasticities : list Q) (r : SensitivityPoint)
  : result (list Q) :=
  if negb (is_base r) && negb (Qeq_bool (value_pct_change r) 0) then
    let* e := py_div (lcoe_pct_change r) (value_pct_change r) in
    Ok (elasticities ++ [e])
  else Ok elasticities.

Definition elasticities_of (rs : list SensitivityPoint) : result (list Q) :=
  foldM elasticity_step rs [].

(** [sum(elasticities) / len(elasticities) if elasticities else 0] *)
Definition avg_elasticity_of (elasticities : list Q) : result Q :=
  match elasticities with
  | [] => Ok 0
  | _ => py_div (py_sum elasticities)
           (inject_Z (Z.of_nat (length elasticities)))
  end.

Definition run_sensitivity (base_inputs : CalculateLcoe.LCOEInput)
    (param_name : string) (values : list Q) : result SensitivityResult :=
  let* base_result := CalculateLcoe.calculate_lcoe base_inputs in
  let base_lcoe := CalculateLcoe.lcoe_usd_per_mwh base_result in
  let base_value := dict_get (to_dict base_inputs) param_name (VInt 0) in
  let* points :=
    mapM (sensitivity_point base_inputs param_name base_lcoe base_value)
         values in
  let results := omap id points in
  let* elasticities := elasticities_of results in
  let* avg_elasticity := avg_elasticity_of elasticities in
  let lcoes := map lcoe_usd_per_mwh results in
  let* mn := (match results with [] => Ok 0 | _ => py_min lcoes end) in
  let* mx := (match results with [] => Ok 0 | _ => py_max lcoes end) in
  Ok {| parameter := param_name;
        base_value := base_value;
        base_lcoe_usd_per_mwh := base_lcoe;
        elasticity := py_round avg_elasticity 3;
        elasticity_interpretation := interpret_elasticity avg_elasticity;
        values_tested := length results;
        min_lcoe := mn;
        max_lcoe := mx;
        lcoe_range :=
          match results with [] => 0 | _ => py_round (mx - mn) 2 end;
        results := results |}.

End SensitivityAnalysis.

(** * sensitivity_analysis.py: the analysis of all key parameters *)

Module FullSensitivity.

Import SensitivityAnalysis.

(** An entry of the parameter ranking: the keys [parameter], [elasticity]
    and [lcoe_range] of its mapping. *)
Record RankedParameter : Type := {
  ranked_parameter : string;
  ranked_elasticity : Q;
  ranked_lcoe_range : Q
}.

Record FullSummary : Type := {
  parameters_analyzed : nat;
  most_sensitive_parameter : option string;
  parameter_ranking : list RankedParameter
}.

Record FullResult : Type := {
  summary : FullSummary;
  by_parameter : list (string * SensitivityResult)
}.

(** [d[k] = v] on a dictionary kept in insertion order: an existing key
    keeps its place. *)
Fixpoint dict_set {V : Type} (k : string) (v : V) (d : list (string * V))
  : list (string * V) :=
  match d with
  | [] => [(k, v)]
  | (k', v') :: d' =>
      if String.eqb k' k then (k', v) :: d' else (k', v') :: dict_set k v d'
  end.

(** [sorted(l, key=key, reverse=True)]: descending, and stable, so that
    elements of one key stay in input order; it is the stable ascending
    arrangement by the negated key. *)
Definition py_sorted_reverse {A : Type} (key : A -> Q) (l : list A) : list A :=
  py_sorted (fun a => - key a) l.

(** The list [params_to_analyze] once both [if]s have run. *)
Definition params_to_analyze (base_inputs : CalculateLcoe.LCOEInput)
  : result (list string) :=
  let params :=
    [ "capex_usd"; "annual_opex_usd"; "annual_generation_mwh";
      "project_lifetime_years"; "discount_rate"; "degradation_rate" ]%string in
  let* fuel :=
    number_operand
      (dict_get (to_dict base_inputs) "annual_fuel_cost_usd" (VInt 0)) in
  let params :=
    if Qltb 0 fuel
    then params ++ [ "annual_fuel_cost_usd"; "fuel_escalation_rate" ]%string
    else params in
  let* opex :=
    number_operand
      (dict_get (to_dict base_inputs) "annual_opex_usd" (VInt 0)) in
  let params :=
    if Qltb 0 opex then params ++ [ "opex_escalation_rate"%string ]
    else params in
  Ok params.

(** [generate_range(base_value, param)] on the object a mapping holds: the
    base value enters arithmetic, and must be a number, unless the
    parameter has an absolute default range. *)
Definition default_range (fuel : nat) (base_value : pyval) (param : string)
  : option (result (list Q)) :=
  match as_number base_value with
  | Some q => generate_range fuel q param None
  | None =>
      match DEFAULT_RANGES !! param with
      | Some config =>
          match range_type config with
          | absolute => generate_range fuel 0 param None
          | multiplier => Some (Raise TypeError)
          end
      | None => Some (Raise TypeError)
      end
  end.

(** The body of [for param in params_to_analyze]; [None] when the range
    loop is out of fuel. *)
Definition analyze_parameter (fuel : nat)
    (base_inputs : CalculateLcoe.LCOEInput)
    (all_results : list (string * SensitivityResult)) (param : string)
  : option (result (list (string * SensitivityResult))) :=
  let base_value := dict_get (to_dict base_inputs) param (VInt 0) in
  let included : result bool :=
    match to_dict base_inputs !! param with
    | Some _ => Ok true
    | None => let* q := number_operand base_value in Ok (Qltb 0 q)
    end in
  match included with
  | Raise e => Some (Raise e)
  | Ok false => Some (Ok all_results)
  | Ok true =>
      match default_range fuel base_value param with
      | None => None
      | Some (Raise e) => Some (Raise e)
      | Some (Ok values) =>
          Some (let* r := run_sensitivity base_inputs param values in
                Ok (dict_set param r all_results))
      end
  end.

Fixpoint analyze_parameters (fuel : nat)
    (base_inputs : CalculateLcoe.LCOEInput) (params : list string)
    (all_results : list (string * SensitivityResult))
  : option (result (list (string * SensitivityResult))) :=
  match params with
  | [] => Some (Ok all_results)
  | param :: params' =>
      match analyze_parameter fuel base_inputs all_results param with
      | None => None
      | Some (Raise e) => Some (Raise e)
      | Some (Ok all_results') =>
          analyze_parameters fuel base_inputs params' all_results'
      end
  end.

Definition rank_entry (kv : string * SensitivityResult) : RankedParameter :=
  {| ranked_parameter := fst kv;
     ranked_elasticity := Qabs (elasticity (snd kv));
     ranked_lcoe_range := lcoe_range (snd kv) |}.

Definition run_full_sensitivity (fuel : nat)
    (base_inputs : CalculateLcoe.LCOEInput) : option (result FullResult) :=
  match params_to_analyze base_inputs with
  | Raise e => Some (Raise e)
  | Ok params =>
      match analyze_parameters fuel base_inputs params [] with
      | None => None
      | Some (Raise e) => Some (Raise e)
      | Some (Ok all_results) =>
          let ranked :=
            py_sorted_reverse ranked_elasticity (map rank_entry all_results) in
          Some (Ok
            {| summary :=
                 {| parameters_analyzed := length all_results;
                    most_sensitive_parameter :=
                      match ranked with
                      | [] => None
                      | r :: _ => Some (ranked_parameter r)
                      end;
                    parameter_ranking := ranked |};
               by_parameter := all_results |})
      end
  end.

End FullSensitivity.

(** * The validator as the specification words it

    Presence of the required fields first, then one type/range check per
    field in declaration order, the first violation being the answer. *)

Module ValidatorSpec.

Import CalculateLcoe.

(** The first required field that the mapping lacks. *)
Definition first_missing (data : gmap string pyval) : option (string * string) :=
  List.find (fun fd => match data !! fst fd with
                       | None => true
                       | Some _ => false
                       end)
            required_fields.

Inductive FieldKind : Type :=
  | Numeric (ok : Q -> bool)
  | Integer (ok : Z -> bool).

Record FieldCheck : Type := {
  fc_field : string;
  fc_default : pyval;
  fc_kind : FieldKind;
  fc_code : string;
  fc_message : string;
  fc_expected : string
}.

Definition within (lo hi x : Q) : bool := Qleb lo x && Qleb x hi.

(** The nine constraints, in field-declaration order. *)
Definition field_checks : list FieldCheck :=
  [ Build_FieldCheck "capex_usd" VNone (Numeric (fun c => Qltb 0 c))
      "INVALID_CAPEX" "Capital expenditure must be a positive number" "> 0";
    Build_FieldCheck "annual_generation_mwh" VNone (Numeric (fun g => Qltb 0 g))
      "INVALID_GENERATION" "Annual generation must be a positive number" "> 0";
    Build_FieldCheck "project_lifetime_years" VNone
      (Integer (fun l => (1 <=? l)%Z && (l <=? 50)%Z))
      "INVALID_LIFETIME" "Project lifetime must be between 1 and 50 years"
      "1-50";
    Build_FieldCheck "discount_rate" VNone (Numeric (within 0 (3 # 10)))
      "INVALID_DISCOUNT_RATE"
      "Discount rate must be between 0 and 0.30 (0-30%)" "0-0.30";
    Build_FieldCheck "annual_opex_usd" (VInt 0) (Numeric (fun o => Qleb 0 o))
      "INVALID_OPEX" "Annual OPEX must be non-negative" ">= 0";
    Build_FieldCheck "annual_fuel_cost_usd" (VInt 0)
      (Numeric (fun f => Qleb 0 f))
      "INVALID_FUEL_COST" "Annual fuel cost must be non-negative" ">= 0";
    Build_FieldCheck "opex_escalation_rate" (VFloat (1 # 50))
      (Numeric (within 0 (1 # 5)))
      "INVALID_OPEX_ESCALATION"
      "OPEX escalation rate must be between 0 and 0.20" "0-0.20";
    Build_FieldCheck "fuel_escalation_rate" (VFloat (1 # 50))
      (Numeric (within 0 (1 # 5)))
      "INVALID_FUEL_ESCALATION"
      "Fuel escalation rate must be between 0 and 0.20" "0-0.20";
    Build_FieldCheck "degradation_rate" (VFloat (1 # 200))
      (Numeric (within 0 (1 # 10)))
      "INVALID_DEGRADATION" "Degradation rate must be between 0 and 0.10"
      "0-0.10" ].

Definition field_value (data : gmap string pyval) (fc : FieldCheck) : pyval :=
  dict_get data (fc_field fc) (fc_default fc).

Definition satisfies (fc : FieldCheck) (v : pyval) : bool :=
  match fc_kind fc with
  | Numeric ok => match as_number v with Some q => ok q | None => false end
  | Integer ok => match as_int v with Some z => ok z | None => false end
  end.

(** The failure a field gives rise to, if it violates its constraint. *)
Definition violation (data : gmap string pyval) (fc : FieldCheck)
  : option ValidationError :=
  let v := field_value data fc in
  if satisfies fc v then None
  else Some {| code := fc_code fc;
               message := fc_message fc;
               field := fc_field fc;
               received := v;
               expected := fc_expected fc |}.

(** All violations, in order; only the first one is ever reported. *)
Definition violations (data : gmap string pyval) : list ValidationError :=
  omap (violation data) field_checks.

Definition number_at (data : gmap string pyval) (key : string) (dflt : pyval)
  : Q :=
  default 0 (as_number (dict_get data key dflt)).

(** The parameter set with every optional field defaulted. *)
Definition defaulted (data : gmap string pyval) : LCOEInput :=
  {| capex_usd := number_at data "capex_usd" VNone;
     annual_generation_mwh := number_at data "annual_generation_mwh" VNone;
     project_lifetime_years :=
       default 0%Z (as_int (dict_get data "project_lifetime_years" VNone));
     discount_rate := number_at data "discount_rate" VNone;
     annual_opex_usd := number_at data "annual_opex_usd" (VInt 0);
     annual_fuel_cost_usd := number_at data "annual_fuel_cost_usd" (VInt 0);
     opex_escalation_rate :=
       number_at data "opex_escalation_rate" (VFloat (1 # 50));
     fuel_escalation_rate :=
       number_at data "fuel_escalation_rate" (VFloat (1 # 50));
     degradation_rate := number_at data "degradation_rate" (VFloat (1 # 200));
     capacity_mw := dict_get data "capacity_mw" VNone;
     technology := dict_get data "technology" (VStr "generic") |}.

Definition validate_input_spec (data : gmap string pyval)
  : ValidationError + LCOEInput :=
  match first_missing data with
  | Some (fld, desc) => inl (missing_field fld desc)
  | None =>
      match violations data with
      | e :: _ => inl e
      | [] => inr (defaulted data)
      end
  end.

End ValidatorSpec.

(** * The engine's sums, as the specification words them *)

Module EngineSpec.

Import CalculateLcoe.

(** The ranges a validated parameter set lies in. *)
Record in_range (i : LCOEInput) : Prop := {
  capex_pos : 0 < capex_usd i;
  generation_pos : 0 < annual_generation_mwh i;
  lifetime_range : (1 <= project_lifetime_years i <= 50)%Z;
  rate_range : 0 <= discount_rate i <= 3 # 10;
  opex_nonneg : 0 <= annual_opex_usd i;
  fuel_nonneg : 0 <= annual_fuel_cost_usd i;
  opex_esc_range : 0 <= opex_escalation_rate i <= 1 # 5;
  fuel_esc_range : 0 <= fuel_escalation_rate i <= 1 # 5;
  degradation_range : 0 <= degradation_rate i <= 1 # 10
}.

(** An installed capacity of the documented type: absent, or a number. *)
Definition numeric_or_absent (v : pyval) : Prop :=
  v = VNone \/ exists c, as_number v = Some c.

Definition years_of (i : LCOEInput) : list Z :=
  py_range 1 (project_lifetime_years i + 1).

Definition generation_at (i : LCOEInput) (t : Z) : Q :=
  annual_generation_mwh i * (1 - degradation_rate i) ^ (t - 1).

Definition cost_at (i : LCOEInput) (t : Z) : Q :=
  annual_opex_usd i * (1 + opex_escalation_rate i) ^ (t - 1)
  + annual_fuel_cost_usd i * (1 + fuel_escalation_rate i) ^ (t - 1).

Definition discount_factor_at (i : LCOEInput) (t : Z) : Q :=
  (1 + discount_rate i) ^ t.

Fixpoint Qsum (f : Z -> Q) (l : list Z) : Q :=
  match l with
  | [] => 0
  | t :: l' => f t + Qsum f l'
  end.

(** NPV(generation) and NPV(costs) *)
Definition npv_generation_of (i : LCOEInput) : Q :=
  Qsum (fun t => generation_at i t / discount_factor_at i t) (years_of i).

Definition npv_costs_of (i : LCOEInput) : Q :=
  capex_usd i + Qsum (fun t => cost_at i t / discount_factor_at i t) (years_of i).

(** The LCOE before it is rounded for the report. *)
Definition levelized_cost (i : LCOEInput) : Q :=
  npv_costs_of i / npv_generation_of i.


Definition with_capacity (i : LCOEInput) (c : pyval) : LCOEInput :=
  {| capex_usd := capex_usd i;
     annual_generation_mwh := annual_generation_mwh i;
     project_lifetime_years := project_lifetime_years i;
     discount_rate := discount_rate i;
     annual_opex_usd := annual_opex_usd i;
     annual_fuel_cost_usd := annual_fuel_cost_usd i;
     opex_escalation_rate := opex_escalation_rate i;
     fuel_escalation_rate := fuel_escalation_rate i;
     degradation_rate := degradation_rate i;
     capacity_mw := c;
     technology := technology i |}.

(** Two mappings that agree on every key but [capacity_mw]. *)
Definition agree_but_capacity (d1 d2 : gmap string pyval) : Prop :=
  forall k, k <> "capacity_mw"%string -> d1 !! k = d2 !! k.

End EngineSpec.

(** * The comparator's deltas, as the specification words them *)

Module ComparatorSpec.

(** [(this - reference) / reference * 100] to one decimal, and 0 when the
    reference is not positive. *)
Definition pct_vs (reference lcoe : Q) : Q :=
  if Qltb 0 reference
  then py_round ((lcoe - reference) / reference * 100) 1
  else 0.

(** Ascending order by a numeric key. *)
Definition ascending {A : Type} (key : A -> Q) : list A -> Prop :=
  StronglySorted (fun a b => key a <= key b).

(** The elements of one key value. *)
Definition has_key {A : Type} (key : A -> Q) (q : Q) (a : A) : Prop :=
  Qeq_bool (key a) q = true.

#[global] Instance has_key_dec {A : Type} (key : A -> Q) (q : Q) (a : A)
  : Decision (has_key key q a).
Proof. unfold has_key. apply _. Defined.



(** A technology group that is not empty and whose members all satisfy
    [P]. *)
Definition sound_group (P : CompareProjects.ProjectResult -> Prop)
    (g : pyval * list CompareProjects.ProjectResult) : Prop :=
  snd g <> [] /\ Forall P (snd g).

(** What [analyze_project] makes of a project that does not validate. *)
Definition failure_of (d : gmap string pyval)
    (e : CalculateLcoe.ValidationError) : CompareProjects.FailedProject :=
  {| CompareProjects.failed_source := dict_get d "_source" (VStr "unknown");
     CompareProjects.error := e;
     CompareProjects.failed_technology :=
       dict_get (delete "_source" d) "technology" (VStr "unknown") |}.

End ComparatorSpec.

(** * The analyzer's range and elasticity, as the specification words them *)

Module AnalyzerSpec.

Import SensitivityAnalysis.




(** The points that enter the elasticity: not the base point, and with a
    value change that is not zero. *)
Definition contributes (p : SensitivityPoint) : Prop :=
  is_base p = false /\ Qeq_bool (value_pct_change p) 0 = false.

#[global] Instance contributes_dec (p : SensitivityPoint)
  : Decision (contributes p).
Proof. unfold contributes. apply _. Defined.

Definition point_elasticity (p : SensitivityPoint) : Q :=
  lcoe_pct_change p / value_pct_change p.

(** The arithmetic mean, 0 for no numbers at all. *)
Definition mean (l : list Q) : Q :=
  match l with
  | [] => 0
  | _ => py_sum l / inject_Z (Z.of_nat (length l))
  end.


End AnalyzerSpec.

(** * Further vocabulary for the properties of the validator and engine *)

Module Reading.

Import CalculateLcoe ValidatorSpec.

(** The keys [validate_input] reads. *)
Definition known_keys : list string :=
  [ "capex_usd"; "annual_generation_mwh"; "project_lifetime_years";
    "discount_rate"; "annual_opex_usd"; "annual_fuel_cost_usd";
    "opex_escalation_rate"; "fuel_escalation_rate"; "degradation_rate";
    "capacity_mw"; "technology" ]%string.

(** The optional fields with the defaults [validate_input] gives them. *)
Definition optional_defaults : list (string * pyval) :=
  [ ("annual_opex_usd", VInt 0);
    ("annual_fuel_cost_usd", VInt 0);
    ("opex_escalation_rate", VFloat (1 # 50));
    ("fuel_escalation_rate", VFloat (1 # 50));
    ("degradation_rate", VFloat (1 # 200));
    ("capacity_mw", VNone);
    ("technology", VStr "generic") ]%string.

(** Two mappings that [validate_input] cannot tell apart: the same
    required fields are present, and every field reads the same once its
    default is applied. *)
Record same_reading (d1 d2 : gmap string pyval) : Prop := {
  same_presence :
    forall fd, In fd required_fields ->
      (d1 !! fst fd = None <-> d2 !! fst fd = None);
  same_fields :
    forall fc, In fc field_checks -> field_value d1 fc = field_value d2 fc;
  same_capacity :
    dict_get d1 "capacity_mw" VNone = dict_get d2 "capacity_mw" VNone;
  same_technology :
    dict_get d1 "technology" (VStr "generic")
    = dict_get d2 "technology" (VStr "generic")
}.

(** The same parameter set with another degradation rate. *)
Definition with_degradation (i : LCOEInput) (d : Q) : LCOEInput :=
  {| capex_usd := capex_usd i;
     annual_generation_mwh := annual_generation_mwh i;
     project_lifetime_years := project_lifetime_years i;
     discount_rate := discount_rate i;
     annual_opex_usd := annual_opex_usd i;
     annual_fuel_cost_usd := annual_fuel_cost_usd i;
     opex_escalation_rate := opex_escalation_rate i;
     fuel_escalation_rate := fuel_escalation_rate i;
     degradation_rate := d;
     capacity_mw := capacity_mw i;
     technology := technology i |}.

(** The same parameter set with another capital expenditure. *)
Definition with_capex (i : LCOEInput) (c : Q) : LCOEInput :=
  {| capex_usd := c;
     annual_generation_mwh := annual_generation_mwh i;
     project_lifetime_years := project_lifetime_years i;
     discount_rate := discount_rate i;
     annual_opex_usd := annual_opex_usd i;
     annual_fuel_cost_usd := annual_fuel_cost_usd i;
     opex_escalation_rate := opex_escalation_rate i;
     fuel_escalation_rate := fuel_escalation_rate i;
     degradation_rate := degradation_rate i;
     capacity_mw := capacity_mw i;
     technology := technology i |}.


End Reading.

(** Further vocabulary for the properties of the comparator. *)
Module Reporting.

Import ComparatorSpec.

(** The failure records of the projects that do not validate, in input
    order. *)
Definition invalid_projects (projects : list (gmap string pyval))
  : list CompareProjects.FailedProject :=
  omap (fun d =>
          match CalculateLcoe.validate_input (delete "_source" d) with
          | inl e => Some (failure_of d e)
          | inr _ => None
          end)
       projects.

(** The number of projects counted by the technology summaries. *)
Definition counted (techs : list (pyval * CompareProjects.TechSummary)) : nat :=
  foldr (fun ts n => (CompareProjects.count (snd ts) + n)%nat) 0%nat techs.

End Reporting.

(** Further vocabulary for the properties of the analyzer. *)
Module SweepSpec.

Import SensitivityAnalysis.

(** The mapping [run_sensitivity] validates for a candidate value. *)
Definition candidate (base_inputs : CalculateLcoe.LCOEInput)
    (param_name : string) (v : Q) : gmap string pyval :=
  if String.eqb param_name "project_lifetime_years"
  then <[param_name := VInt (py_int v)]> (to_dict base_inputs)
  else <[param_name := VFloat v]> (to_dict base_inputs).

(** The candidate values that validate. *)
Definition admissible (base_inputs : CalculateLcoe.LCOEInput)
    (param_name : string) (v : Q) : bool :=
  match CalculateLcoe.validate_input (candidate base_inputs param_name v) with
  | inr _ => true
  | inl _ => false
  end.

(** The parameters the full analysis covers: six always, the two fuel
    parameters for a positive fuel cost, opex escalation for a positive
    operating cost. *)
Definition key_parameters (base_inputs : CalculateLcoe.LCOEInput)
  : list string :=
  [ "capex_usd"; "annual_opex_usd"; "annual_generation_mwh";
    "project_lifetime_years"; "discount_rate"; "degradation_rate" ]%string
  ++ (if Qltb 0 (CalculateLcoe.annual_fuel_cost_usd base_inputs)
      then [ "annual_fuel_cost_usd"; "fuel_escalation_rate" ]%string else [])
  ++ (if Qltb 0 (CalculateLcoe.annual_opex_usd base_inputs)
      then [ "opex_escalation_rate"%string ] else []).

(** Descending order by a numeric key. *)
Definition descending {A : Type} (key : A -> Q) : list A -> Prop :=
  StronglySorted (fun a b => key b <= key a).

End SweepSpec.

(** * Sample inputs *)

Module Samples.

(** A raw project mapping: the four required fields and any others. *)
Definition raw_project (capex generation lifetime : Z) (rate : Q)
    (others : list (string * pyval)) : gmap string pyval :=
  list_to_map
    ([ ("capex_usd", VInt capex);
       ("annual_generation_mwh", VInt generation);
       ("project_lifetime_years", VInt lifetime);
       ("discount_rate", VFloat rate) ] ++ others).

(** No operating or fuel cost, no escalation, no degradation. *)
Definition bare : list (string * pyval) :=
  [ ("annual_opex_usd", VInt 0);
    ("annual_fuel_cost_usd", VInt 0);
    ("opex_escalation_rate", VInt 0);
    ("fuel_escalation_rate", VInt 0);
    ("degradation_rate", VInt 0) ].

(** capex 1,000,000; 2,000 MWh a year; 10 years; no discounting. *)
Definition simple_project : gmap string pyval :=
  raw_project 1000000 2000 10 0 bare.


(** capex 1; 1,000 MWh a year; one year. *)
Definition cheap_project (rate : Q) : gmap string pyval :=
  raw_project 1 1000 1 rate bare.


(** The discount-rate test: capex 1,000,000; 2,000 MWh a year; 25 years. *)
Definition discount_test_project (rate : Q) : gmap string pyval :=
  raw_project 1000000 2000 25 rate bare.

(** 100 MW producing 200,000 MWh a year. *)
Definition solar_project : gmap string pyval :=
  raw_project 80000000 200000 2 (8 # 100) [ ("capacity_mw", VInt 100) ].

(** 100 MW producing 1 MWh a year. *)
Definition idle_project : gmap string pyval :=
  raw_project 1000 1 1 0 [ ("capacity_mw", VInt 100) ].

(** Projects for comparison: one year of 10 MWh, so that the LCOE is a
    tenth of the capex; each carries its source label. *)
Definition sourced (name : string) (d : gmap string pyval)
  : gmap string pyval :=
  <["_source" := VStr name]> d.

Definition flat_project (capex : Z) : gmap string pyval :=
  raw_project capex 10 1 0 bare.

Definition p40 : gmap string pyval := sourced "forty" (flat_project 400).
Definition p55 : gmap string pyval := sourced "fifty-five" (flat_project 550).
Definition p70 : gmap string pyval := sourced "seventy" (flat_project 700).

(** A project that lacks every required field. *)
Definition unusable : gmap string pyval := sourced "unusable" ∅.

(** A valid project whose LCOE, 0.001, is reported as 0.00. *)
Definition cheap : gmap string pyval := sourced "cheap" (cheap_project 0).

(** Source, rank, LCOE and delta to the best of every ranked project. *)
Definition ranking_of (c : result CompareProjects.Comparison)
  : list (pyval * Z * Q * Q) :=
  match c with
  | Ok (CompareProjects.Compared _ _ ranked _ _) =>
      map (fun r =>
             (CompareProjects.source (CompareProjects.project r),
              CompareProjects.rank r,
              CompareProjects.lcoe_usd_per_mwh (CompareProjects.project r),
              CompareProjects.lcoe_vs_best_pct r))
          ranked
  | _ => []
  end.


(** The parameter set a mapping validates to; for a mapping that does not
    validate, its defaulted reading. *)
Definition validated (data : gmap string pyval) : CalculateLcoe.LCOEInput :=
  match CalculateLcoe.validate_input data with
  | inr p => p
  | inl _ => ValidatorSpec.defaulted data
  end.

End Samples.

(** Further sample inputs. *)
Module MoreSamples.

Import Samples.

(** capex 1,000; 100 MWh a year degrading at the given rate; operating cost
    10 a year; three years at 5%. *)
Definition degrading_project (d : Q) : gmap string pyval :=
  raw_project 1000 100 3 (5 # 100)
    [ ("annual_opex_usd", VInt 10); ("degradation_rate", VFloat d) ].

(** The given capex; 100 MWh a year; operating cost 10 a year; three years
    at 5%. *)
Definition priced_project (capex : Z) : gmap string pyval :=
  raw_project capex 100 3 (5 # 100) [ ("annual_opex_usd", VInt 10) ].


End MoreSamples.

(** * Properties *)

(** ** Comparisons, division and rounding *)

Lemma Qltb_lt (x y : Q) : Qltb x y = true <-> x < y.
Proof.
  unfold Qltb. rewrite negb_true_iff, <- not_true_iff_false, Qle_bool_iff.
  split; [apply Qnot_le_lt | apply Qlt_not_le].
Qed.

Lemma Qltb_ge (x y : Q) : Qltb x y = false <-> y <= x.
Proof. unfold Qltb. rewrite negb_false_iff. apply Qle_bool_iff. Qed.

Lemma Qleb_le (x y : Q) : Qleb x y = true <-> x <= y.
Proof. apply Qle_bool_iff. Qed.

Lemma Qleb_gt (x y : Q) : Qleb x y = false <-> y < x.
Proof.
  unfold Qleb. rewrite <- not_true_iff_false, Qle_bool_iff.
  split; [apply Qnot_le_lt | apply Qlt_not_le].
Qed.

Lemma py_div_ok (x y : Q) : ~ y == 0 -> py_div x y = Ok (x / y).
Proof.
  intros H. unfold py_div. destruct (Qeq_bool y 0) eqn:E; [|reflexivity].
  apply Qeq_bool_eq in E. contradiction.
Qed.

Lemma py_div_zero (x y : Q) : y == 0 -> py_div x y = Raise ZeroDivisionError.
Proof. intros H. unfold py_div. now rewrite (Qeq_eq_bool _ _ H). Qed.

#[local] Instance round_half_even_proper : Proper (Qeq ==> eq) round_half_even.
Proof.
  intros x y E. unfold round_half_even.
  rewrite (Qfloor_comp _ _ E).
  assert (C : Qcompare (x - inject_Z (Qfloor y)) (1 # 2)
              = Qcompare (y - inject_Z (Qfloor y)) (1 # 2)).
  { apply Qcompare_comp; [now rewrite E | reflexivity]. }
  now rewrite C.
Qed.

(** The nearest integer is within one half. *)
Lemma round_half_even_near (y : Q) :
  inject_Z (round_half_even y) - (1 # 2) <= y
  /\ y <= inject_Z (round_half_even y) + (1 # 2).
Proof.
  unfold round_half_even.
  pose proof (Qfloor_le y) as Hlo. pose proof (Qlt_floor y) as Hhi.
  rewrite inject_Z_plus in Hhi. change (inject_Z 1) with 1 in Hhi.
  destruct (Qcompare (y - inject_Z (Qfloor y)) (1 # 2)) eqn:C.
  - apply Qeq_alt in C.
    destruct (Z.even (Qfloor y)); rewrite ?inject_Z_plus;
      change (inject_Z 1) with 1; split; lra.
  - apply Qlt_alt in C. split; lra.
  - apply Qgt_alt in C. rewrite inject_Z_plus.
    change (inject_Z 1) with 1. split; lra.
Qed.

Lemma inject_Z_lt_succ (a b : Z) : (a < b)%Z -> inject_Z a + 1 <= inject_Z b.
Proof.
  intros H. change 1 with (inject_Z 1).
  rewrite <- (inject_Z_plus a 1). rewrite <- Zle_Qle. lia.
Qed.

Lemma round_half_even_mono (x y : Q) :
  x <= y -> (round_half_even x <= round_half_even y)%Z.
Proof.
  intros H.
  destruct (Z.le_gt_cases (round_half_even x) (round_half_even y)) as [|G];
    [assumption|].
  apply inject_Z_lt_succ in G.
  destruct (round_half_even_near x) as [Hx _].
  destruct (round_half_even_near y) as [_ Hy].
  assert (E : x == y) by lra.
  rewrite (round_half_even_proper _ _ E). lia.
Qed.

Lemma scale_pos (n : nat) : 0 < inject_Z (10 ^ Z.of_nat n).
Proof.
  change 0 with (inject_Z 0). rewrite <- Zlt_Qlt.
  apply Z.pow_pos_nonneg; lia.
Qed.

Lemma py_round_proper (x y : Q) (n : nat) : x == y -> py_round x n = py_round y n.
Proof.
  intros E. unfold py_round. apply Qred_complete. now rewrite E.
Qed.

Lemma py_round_value (x : Q) (n : nat) :
  py_round x n
  == inject_Z (round_half_even (x * inject_Z (10 ^ Z.of_nat n)))
     / inject_Z (10 ^ Z.of_nat n).
Proof. unfold py_round. apply Qred_correct. Qed.

Lemma py_round_mono (x y : Q) (n : nat) : x <= y -> py_round x n <= py_round y n.
Proof.
  intros H. rewrite !py_round_value.
  pose proof (scale_pos n) as Hs.
  apply Qmult_le_compat_r; [|apply Qlt_le_weak, Qinv_lt_0_compat, Hs].
  rewrite <- Zle_Qle. apply round_half_even_mono.
  apply Qmult_le_compat_r; [assumption | lra].
Qed.

Lemma py_round_integer (z : Z) (n : nat) : py_round (inject_Z z) n = inject_Z z.
Proof.
  unfold py_round.
  assert (E : inject_Z z * inject_Z (10 ^ Z.of_nat n)
              == inject_Z (z * 10 ^ Z.of_nat n)) by now rewrite inject_Z_mult.
  rewrite (round_half_even_proper _ _ E).
  assert (R : round_half_even (inject_Z (z * 10 ^ Z.of_nat n))
              = (z * 10 ^ Z.of_nat n)%Z).
  { unfold round_half_even. rewrite Qfloor_Z.
    assert (C : Qcompare (inject_Z (z * 10 ^ Z.of_nat n)
                          - inject_Z (z * 10 ^ Z.of_nat n)) (1 # 2) = Lt).
    { apply (proj1 (Qlt_alt _ _)).
      generalize (inject_Z (z * 10 ^ Z.of_nat n)). intros w. lra. }
    now rewrite C. }
  rewrite R. rewrite <- (inject_Z_Qred z). apply Qred_complete.
  rewrite inject_Z_mult. pose proof (scale_pos n). field. lra.
Qed.

Lemma py_round_zero (n : nat) : py_round 0 n = 0.
Proof. apply (py_round_integer 0). Qed.

Lemma py_round_nonneg (x : Q) (n : nat) : 0 <= x -> 0 <= py_round x n.
Proof. intros H. rewrite <- (py_round_zero n). now apply py_round_mono. Qed.

(** ** The validator *)

Section Validator.

Import CalculateLcoe ValidatorSpec EngineSpec.

Local Ltac settle := cbn [negb orb andb]; cbv beta iota.
Local Ltac number_case :=
  match goal with
  | |- context [as_number ?v] =>
      destruct (as_number v) as [?|]; settle; [|reflexivity]
  end.
Local Ltac positive_case :=
  match goal with
  | |- context [Qle_bool ?a 0] =>
      destruct (Qle_bool a 0); settle; [reflexivity|]
  end.
Local Ltac nonneg_case :=
  match goal with
  | |- context [Qle_bool 0 ?a] =>
      destruct (Qle_bool 0 a); settle; [|reflexivity]
  end.
Local Ltac upper_case hi :=
  match goal with
  | |- context [Qle_bool ?a hi] =>
      destruct (Qle_bool a hi); settle; [|reflexivity]
  end.

Lemma validate_input_unfold (data : gmap string pyval) :
  validate_input data = validate_input_spec data.
Proof.
  unfold validate_input, validate_input_spec, first_missing, violations.
  cbn [required_fields check_required List.find fst].
  destruct (data !! "capex_usd") as [v1|] eqn:E1; [|reflexivity].
  destruct (data !! "annual_generation_mwh") as [v2|] eqn:E2; [|reflexivity].
  destruct (data !! "project_lifetime_years") as [v3|] eqn:E3; [|reflexivity].
  destruct (data !! "discount_rate") as [v4|] eqn:E4; [|reflexivity].
  unfold defaulted, number_at, field_checks.
  cbn [omap list_omap].
  unfold violation, field_value, satisfies.
  cbn [fc_field fc_default fc_kind fc_code fc_message fc_expected].
  unfold dict_get, check_number, check_int, invalid, within, Qltb, Qleb, vbind.
  rewrite E1, E2, E3, E4. cbn [default from_option id].
  number_case. positive_case.
  number_case. positive_case.
  destruct (as_int v3) as [z|]; settle; [|reflexivity].
  rewrite (Z.ltb_antisym 1 z), (Z.ltb_antisym z 50).
  destruct (1 <=? z)%Z; settle; [|reflexivity].
  destruct (z <=? 50)%Z; settle; [|reflexivity].
  number_case. nonneg_case. upper_case (3 # 10).
  number_case. nonneg_case.
  number_case. nonneg_case.
  number_case. nonneg_case. upper_case (1 # 5).
  number_case. nonneg_case. upper_case (1 # 5).
  number_case. nonneg_case. upper_case (1 # 10).
  reflexivity.
Qed.


(** What a successful validation says about the mapping. *)
Lemma validate_input_inr (data : gmap string pyval) (p : LCOEInput) :
  validate_input data = inr p ->
  first_missing data = None /\ violations data = [] /\ p = defaulted data.
Proof.
  rewrite validate_input_unfold. unfold validate_input_spec.
  destruct (first_missing data) as [[fld desc]|]; [discriminate|].
  destruct (violations data); [|discriminate].
  intros [= <-]. auto.
Qed.

Lemma satisfied_number (data : gmap string pyval) (fc : FieldCheck)
    (ok : Q -> bool) :
  fc_kind fc = Numeric ok -> violation data fc = None ->
  ok (number_at data (fc_field fc) (fc_default fc)) = true.
Proof.
  unfold violation, satisfies, number_at, field_value. intros ->.
  destruct (as_number (dict_get data (fc_field fc) (fc_default fc)));
    [|discriminate].
  cbn [default from_option id]. destruct (ok q); [reflexivity | discriminate].
Qed.

Lemma within_spec (lo hi x : Q) : within lo hi x = true -> lo <= x <= hi.
Proof.
  unfold within. rewrite andb_true_iff, !Qleb_le. tauto.
Qed.

(** Validated parameter sets lie in the documented ranges. *)
Lemma validated_in_range (data : gmap string pyval) (p : LCOEInput) :
  validate_input data = inr p -> in_range p.
Proof.
  intros H. apply validate_input_inr in H as (_ & V & ->).
  unfold violations, field_checks in V. cbn [omap list_omap] in V.
  repeat match type of V with
  | match violation ?d ?fc with _ => _ end = [] =>
      let E := fresh "E" in
      destruct (violation d fc) eqn:E; [discriminate V|]
  end.
  clear V.
  repeat match goal with
  | H : violation ?d ?fc = None |- _ =>
      apply (satisfied_number d fc _ eq_refl) in H
  end.
  cbn [fc_field fc_default] in *.
  apply Qltb_lt in E, E0. apply within_spec in E2, E5, E6, E7.
  apply Qleb_le in E3, E4.
  unfold violation, satisfies, field_value in E1.
  cbn [fc_field fc_default fc_kind] in E1.
  split; cbn [defaulted capex_usd annual_generation_mwh project_lifetime_years
                discount_rate annual_opex_usd annual_fuel_cost_usd
                opex_escalation_rate fuel_escalation_rate degradation_rate];
    try assumption.
  destruct (as_int (dict_get data "project_lifetime_years" VNone)) as [z|];
    [|discriminate E1].
  cbn [default from_option id].
  destruct ((1 <=? z)%Z && (z <=? 50)%Z) eqn:B; [|discriminate E1].
  apply andb_true_iff in B. lia.
Qed.

End Validator.

(** ** The engine *)

Section Engine.

Import CalculateLcoe EngineSpec.


Lemma discount_factor_pos (i : LCOEInput) (t : Z) :
  0 <= discount_rate i -> 0 < discount_factor_at i t.
Proof. intros H. apply Qpower_0_lt. lra. Qed.

Lemma year_body_ok (i : LCOEInput) (acc : Accum) (t : Z) :
  0 < discount_factor_at i t ->
  exists acc',
    year_body i acc t = Ok acc'
    /\ npv_generation acc'
       = npv_generation acc + generation_at i t / discount_factor_at i t
    /\ npv_costs acc' = npv_costs acc + cost_at i t / discount_factor_at i t
    /\ total_generation acc' = total_generation acc + generation_at i t
    /\ total_lifecycle_cost acc' = total_lifecycle_cost acc + cost_at i t
    /\ length (acc_breakdown acc') = S (length (acc_breakdown acc)).
Proof.
  intros H. unfold year_body.
  fold (generation_at i t). fold (cost_at i t). fold (discount_factor_at i t).
  rewrite !py_div_ok by lra. cbn [rbind].
  eexists. split; [reflexivity|]. cbn.
  repeat split. rewrite length_app. cbn. lia.
Qed.

Lemma year_loop_from (i : LCOEInput) (years : list Z) (acc : Accum) :
  Forall (fun t => 0 < discount_factor_at i t) years ->
  exists acc',
    foldM (year_body i) years acc = Ok acc'
    /\ npv_generation acc'
       == npv_generation acc
          + Qsum (fun t => generation_at i t / discount_factor_at i t) years
    /\ npv_costs acc'
       == npv_costs acc
          + Qsum (fun t => cost_at i t / discount_factor_at i t) years
    /\ total_generation acc'
       == total_generation acc + Qsum (generation_at i) years
    /\ total_lifecycle_cost acc'
       == total_lifecycle_cost acc + Qsum (cost_at i) years
    /\ length (acc_breakdown acc')
       = (length (acc_breakdown acc) + length years)%nat.
Proof.
  intros H. revert acc. induction H as [|t years Ht _ IH]; intros acc.
  - exists acc. cbn. repeat split; try lra. lia.
  - destruct (year_body_ok i acc t Ht) as (a1 & E & G & C & TG & TC & L).
    destruct (IH a1) as (a2 & E2 & G2 & C2 & TG2 & TC2 & L2).
    exists a2. cbn [foldM]. rewrite E. cbn [rbind]. rewrite E2.
    split; [reflexivity|]. cbn [Qsum length].
    rewrite G2, C2, TG2, TC2, L2, G, C, TG, TC, L.
    repeat split; try lra. lia.
Qed.

(** The year loop never fails on a non-negative discount rate, and its
    accumulators are the sums of the specification. *)
Lemma year_loop_ok (i : LCOEInput) :
  0 <= discount_rate i ->
  exists acc,
    year_loop i = Ok acc
    /\ npv_generation acc == npv_generation_of i
    /\ npv_costs acc == npv_costs_of i
    /\ length (acc_breakdown acc) = Z.to_nat (project_lifetime_years i).
Proof.
  intros H. unfold year_loop.
  destruct (year_loop_from i (years_of i) (init_accum i))
    as (acc & E & G & C & _ & _ & L).
  { apply Forall_forall. intros t _. now apply discount_factor_pos. }
  exists acc. split; [exact E|].
  unfold npv_generation_of, npv_costs_of. rewrite G, C, L.
  cbn [init_accum npv_generation npv_costs acc_breakdown length].
  repeat split; try lra.
  unfold years_of, py_range. rewrite length_seqZ. f_equal. lia.
Qed.

Lemma Qsum_pos (f : Z -> Q) (l : list Z) :
  l <> [] -> Forall (fun t => 0 < f t) l -> 0 < Qsum f l.
Proof.
  intros N H. induction H as [|t l Ht Hl IH]; [congruence|].
  cbn [Qsum]. destruct l as [|t' l'].
  - cbn. lra.
  - assert (0 < Qsum f (t' :: l')) by (apply IH; discriminate). lra.
Qed.

Lemma Qsum_nonneg (f : Z -> Q) (l : list Z) :
  Forall (fun t => 0 <= f t) l -> 0 <= Qsum f l.
Proof.
  intros H. induction H as [|t l Ht Hl IH]; cbn [Qsum]; lra.
Qed.

Lemma years_of_nonempty (i : LCOEInput) :
  (1 <= project_lifetime_years i)%Z -> years_of i <> [].
Proof.
  intros H E. apply (f_equal length) in E.
  unfold years_of, py_range in E. rewrite length_seqZ in E. cbn in E. lia.
Qed.

Lemma in_years_of (i : LCOEInput) (t : Z) :
  t ∈ years_of i <-> (1 <= t <= project_lifetime_years i)%Z.
Proof. unfold years_of, py_range. rewrite elem_of_seqZ. lia. Qed.

Lemma generation_at_pos (i : LCOEInput) (t : Z) :
  in_range i -> 0 < generation_at i t.
Proof.
  intros R. unfold generation_at.
  apply Qmult_lt_0_compat; [apply R|].
  apply Qpower_0_lt. destruct (degradation_range i R). lra.
Qed.

Lemma cost_at_nonneg (i : LCOEInput) (t : Z) :
  in_range i -> 0 <= cost_at i t.
Proof.
  intros R. unfold cost_at.
  destruct (opex_esc_range i R), (fuel_esc_range i R).
  pose proof (opex_nonneg i R). pose proof (fuel_nonneg i R).
  assert (0 <= (1 + opex_escalation_rate i) ^ (t - 1))
    by (apply Qpower_0_le; lra).
  assert (0 <= (1 + fuel_escalation_rate i) ^ (t - 1))
    by (apply Qpower_0_le; lra).
  nra.
Qed.

Lemma npv_generation_pos (i : LCOEInput) :
  in_range i -> 0 < npv_generation_of i.
Proof.
  intros R. unfold npv_generation_of.
  apply Qsum_pos; [apply years_of_nonempty, R|].
  apply Forall_forall. intros t _.
  pose proof (generation_at_pos i t R).
  pose proof (discount_factor_pos i t (proj1 (rate_range i R))).
  apply Qlt_shift_div_l; lra.
Qed.

Lemma npv_costs_pos (i : LCOEInput) :
  in_range i -> 0 < npv_costs_of i.
Proof.
  intros R. unfold npv_costs_of.
  assert (0 <= Qsum (fun t => cost_at i t / discount_factor_at i t)
                    (years_of i)).
  { apply Qsum_nonneg, Forall_forall. intros t _.
    pose proof (cost_at_nonneg i t R).
    pose proof (discount_factor_pos i t (proj1 (rate_range i R))).
    apply Qle_shift_div_l; lra. }
  pose proof (capex_pos i R). lra.
Qed.

(** What [calculate_lcoe] returns once the capacity block goes through. *)
Lemma calculate_lcoe_ok (i : LCOEInput) (cf : option Q) :
  in_range i -> capacity_factor_of i = Ok cf ->
  exists r,
    calculate_lcoe i = Ok r
    /\ lcoe_usd_per_mwh r = py_round (levelized_cost i) 2
    /\ capacity_factor r = report_capacity_factor cf
    /\ length (annual_breakdown r) = Z.to_nat (project_lifetime_years i)
    /\ inputs_summary r = i.
Proof.
  intros R CF. unfold calculate_lcoe.
  destruct (year_loop_ok i (proj1 (rate_range i R))) as (acc & E & G & C & L).
  rewrite E. cbn [rbind]. unfold lcoe_per_mwh_of.
  pose proof (npv_generation_pos i R) as P.
  assert (B : Qltb 0 (npv_generation acc) = true) by (apply Qltb_lt; lra).
  rewrite B, py_div_ok by lra. cbn [rbind].
  rewrite py_div_ok by (intros Z; discriminate Z). cbn [rbind].
  rewrite CF. cbn [rbind]. eexists. split; [reflexivity|].
  cbn. repeat split; try assumption.
  apply py_round_proper. unfold levelized_cost. now rewrite G, C.
Qed.

(** The capacity block on a capacity of the documented type. *)
Lemma capacity_factor_of_number (i : LCOEInput) (c : Q) :
  as_number (capacity_mw i) = Some c -> 0 < c ->
  capacity_factor_of i
  = Ok (Some (annual_generation_mwh i / (c * 8760) * 100)).
Proof.
  intros N P. unfold capacity_factor_of. rewrite N.
  assert (T : truthy (capacity_mw i) = true).
  { destruct (capacity_mw i) as [|b|z|q| | |]; try discriminate N;
      cbn in N |- *; injection N as <-.
    - destruct b; [reflexivity|]. lra.
    - destruct (Z.eqb_spec z 0) as [->|]; [|reflexivity]. discriminate P.
    - destruct (Qeq_bool q 0) eqn:E; [|reflexivity].
      apply Qeq_bool_eq in E. lra. }
  rewrite T. assert (B : Qltb 0 c = true) by now apply Qltb_lt.
  rewrite B. cbv zeta. rewrite py_div_ok by (intros Z; lra). reflexivity.
Qed.

Lemma capacity_factor_of_nonpositive (i : LCOEInput) (c : Q) :
  as_number (capacity_mw i) = Some c -> c <= 0 ->
  capacity_factor_of i = Ok None.
Proof.
  intros N P. unfold capacity_factor_of. rewrite N.
  assert (B : Qltb 0 c = false) by now apply Qltb_ge.
  rewrite B. now destruct (truthy (capacity_mw i)).
Qed.

Lemma capacity_factor_of_absent (i : LCOEInput) :
  capacity_mw i = VNone -> capacity_factor_of i = Ok None.
Proof. intros N. unfold capacity_factor_of. now rewrite N. Qed.

Lemma capacity_factor_of_typed (i : LCOEInput) :
  in_range i -> numeric_or_absent (capacity_mw i) ->
  exists cf, capacity_factor_of i = Ok cf.
Proof.
  intros R [N | [c N]].
  - eexists. now apply capacity_factor_of_absent.
  - destruct (Qlt_le_dec 0 c).
    + eexists. apply (capacity_factor_of_number i c); assumption.
    + eexists. apply (capacity_factor_of_nonpositive i c); assumption.
Qed.

End Engine.

Section EngineClaims.

Import CalculateLcoe ValidatorSpec EngineSpec Samples.




Lemma in_range_with_capacity (i : LCOEInput) (c : pyval) :
  in_range i -> in_range (with_capacity i c).
Proof. intros []. now constructor. Qed.










(** A factor that is not zero but rounds to zero is reported, as 0.0:
    1 MWh a year out of 100 MW. *)
Example idle_capacity_factor :
  exists r,
    calculate_lcoe (validated idle_project) = Ok r
    /\ capacity_factor r = Some 0.
Proof. eexists. split; [vm_compute; reflexivity | reflexivity]. Qed.

End EngineClaims.

Section CapacityClaims.

Import CalculateLcoe ValidatorSpec EngineSpec Samples.

Lemma dict_get_agree (d1 d2 : gmap string pyval) (k : string) (dflt : pyval) :
  agree_but_capacity d1 d2 -> k <> "capacity_mw"%string ->
  dict_get d1 k dflt = dict_get d2 k dflt.
Proof. intros A N. unfold dict_get. now rewrite (A k N). Qed.

Lemma first_missing_agree (d1 d2 : gmap string pyval) :
  agree_but_capacity d1 d2 -> first_missing d1 = first_missing d2.
Proof.
  intros A. unfold first_missing, required_fields. cbn [List.find fst].
  now rewrite !A by discriminate.
Qed.

Lemma violation_agree (d1 d2 : gmap string pyval) (fc : FieldCheck) :
  agree_but_capacity d1 d2 -> fc_field fc <> "capacity_mw"%string ->
  violation d1 fc = violation d2 fc.
Proof.
  intros A N. unfold violation, field_value.
  now rewrite (dict_get_agree d1 d2 _ _ A N).
Qed.

Lemma violations_agree (d1 d2 : gmap string pyval) :
  agree_but_capacity d1 d2 -> violations d1 = violations d2.
Proof.
  intros A. unfold violations, field_checks. cbn [omap list_omap].
  now rewrite !(violation_agree d1 d2) by (assumption || discriminate).
Qed.

Lemma defaulted_agree (d1 d2 : gmap string pyval) :
  agree_but_capacity d1 d2 ->
  defaulted d1
  = with_capacity (defaulted d2) (dict_get d1 "capacity_mw" VNone).
Proof.
  intros A. unfold defaulted, with_capacity, number_at.
  cbn [capex_usd annual_generation_mwh project_lifetime_years discount_rate
       annual_opex_usd annual_fuel_cost_usd opex_escalation_rate
       fuel_escalation_rate degradation_rate technology].
  rewrite (dict_get_agree d1 d2 "capex_usd" _ A),
    (dict_get_agree d1 d2 "annual_generation_mwh" _ A),
    (dict_get_agree d1 d2 "project_lifetime_years" _ A),
    (dict_get_agree d1 d2 "discount_rate" _ A),
    (dict_get_agree d1 d2 "annual_opex_usd" _ A),
    (dict_get_agree d1 d2 "annual_fuel_cost_usd" _ A),
    (dict_get_agree d1 d2 "opex_escalation_rate" _ A),
    (dict_get_agree d1 d2 "fuel_escalation_rate" _ A),
    (dict_get_agree d1 d2 "degradation_rate" _ A),
    (dict_get_agree d1 d2 "technology" _ A) by discriminate.
  reflexivity.
Qed.

Lemma validate_input_agree (d1 d2 : gmap string pyval) (p : LCOEInput) :
  agree_but_capacity d1 d2 -> validate_input d2 = inr p ->
  validate_input d1
  = inr (with_capacity p (dict_get d1 "capacity_mw" VNone)).
Proof.
  intros A V. apply validate_input_inr in V as (M & W & ->).
  rewrite validate_input_unfold. unfold validate_input_spec.
  rewrite (first_missing_agree d1 d2 A), M, (violations_agree d1 d2 A), W.
  now rewrite (defaulted_agree d1 d2 A).
Qed.

(** C10.  Validation puts no constraint on [capacity_mw]: a mapping that
    validates still validates with any value in that field, or without the
    field, and the value is carried into the parameter set as it is; and
    [calculate_lcoe] then answers an absent capacity, or one that is a
    number not above zero, with a result that has no capacity factor. *)
Theorem capacity_unconstrained (data : gmap string pyval) (p : LCOEInput)
    (v : pyval) :
  validate_input data = inr p ->
  capacity_mw p = dict_get data "capacity_mw" VNone
  /\ validate_input (<["capacity_mw" := v]> data) = inr (with_capacity p v)
  /\ validate_input (delete "capacity_mw" data) = inr (with_capacity p VNone)
  /\ (v = VNone \/ (exists c, as_number v = Some c /\ c <= 0) ->
      exists r,
        calculate_lcoe (with_capacity p v) = Ok r /\ capacity_factor r = None).
Proof.
  intros V. repeat split.
  - apply validate_input_inr in V as (_ & _ & ->). reflexivity.
  - rewrite (validate_input_agree _ data p); [|
      intros k N; now rewrite lookup_insert_ne | exact V].
    unfold dict_get. now rewrite lookup_insert_eq.
  - rewrite (validate_input_agree _ data p); [|
      intros k N; now rewrite lookup_delete_ne | exact V].
    unfold dict_get. now rewrite lookup_delete_eq.
  - intros A. apply validated_in_range in V as R.
    apply (in_range_with_capacity p v) in R.
    assert (CF : capacity_factor_of (with_capacity p v) = Ok None).
    { destruct A as [-> | (c & N & P)].
      - now apply capacity_factor_of_absent.
      - now apply (capacity_factor_of_nonpositive _ c). }
    destruct (calculate_lcoe_ok _ _ R CF) as (r & E & _ & F & _).
    exists r. split; [exact E | exact F].
Qed.

Lemma capacity_unconstrained_witness :
  validate_input (<["capacity_mw" := VInt (-5)]> solar_project)
  = inr (with_capacity (validated solar_project) (VInt (-5)))
  /\ exists r,
       calculate_lcoe (with_capacity (validated solar_project) (VInt (-5)))
       = Ok r
       /\ capacity_factor r = None.
Proof.
  destruct (capacity_unconstrained solar_project (validated solar_project)
              (VInt (-5)))
    as (_ & I & _ & C); [reflexivity|].
  split; [exact I|]. apply C. right. exists (-5). split; [reflexivity|].
  discriminate.
Defined.

End CapacityClaims.

Section DiscountRate.

Import CalculateLcoe ValidatorSpec EngineSpec Samples.

Lemma Qpower_succ (a : Q) (n : nat) :
  a ^ Z.of_nat (S n) == a ^ Z.of_nat n * a.
Proof.
  rewrite Nat2Z.inj_succ. unfold Z.succ.
  destruct (Qeq_dec a 0) as [E|N].
  - rewrite E, Qpower_0 by lia. ring.
  - rewrite Qpower_plus by exact N. now rewrite Qpower_1_r.
Qed.

Lemma Qpower_base_lt (a b : Q) (t : Z) :
  0 < a -> a < b -> (1 <= t)%Z -> a ^ t < b ^ t.
Proof.
  intros Pa L Ht.
  replace t with (Z.of_nat (S (Z.to_nat (t - 1)))) by lia.
  induction (Z.to_nat (t - 1)) as [|n IH].
  - change (Z.of_nat 1) with 1%Z. rewrite !Qpower_1_r. exact L.
  - rewrite (Qpower_succ a (S n)), (Qpower_succ b (S n)).
    assert (0 < a ^ Z.of_nat (S n)) by now apply Qpower_0_lt.
    nra.
Qed.

Lemma div_lt_div (x d1 d2 : Q) :
  0 < x -> 0 < d1 -> d1 < d2 -> x / d2 < x / d1.
Proof.
  intros Px P1 L. unfold Qdiv.
  apply (proj2 (Qmult_lt_l (/ d2) (/ d1) x Px)).
  assert (P2 : 0 < d2) by lra.
  exact (proj1 (Qinv_lt_contravar d1 d2 P1 P2) L).
Qed.









(** The discount-rate test: 35.48 at 5% against 77.35 at 15%. *)
Example discount_effect :
  exists ra rb,
    calculate_lcoe (validated (discount_test_project (5 # 100))) = Ok ra
    /\ calculate_lcoe (validated (discount_test_project (15 # 100))) = Ok rb
    /\ lcoe_usd_per_mwh ra = 887 # 25
    /\ lcoe_usd_per_mwh rb = 1547 # 20
    /\ lcoe_usd_per_mwh ra < lcoe_usd_per_mwh rb.
Proof.
  eexists. eexists.
  split; [vm_compute; reflexivity|].
  split; [vm_compute; reflexivity|].
  repeat split.
Qed.


End DiscountRate.

(** ** Sorting, sums and monadic maps *)

Section Sorting.

Import ComparatorSpec.

Context {A : Type} (key : A -> Q).

Lemma insert_by_perm (x : A) (l : list A) : insert_by key x l ≡ₚ x :: l.
Proof.
  induction l as [|y ys IH]; cbn [insert_by]; [reflexivity|].
  destruct (Qleb (key x) (key y)); [reflexivity|].
  rewrite IH. apply Permutation_swap.
Qed.

Lemma py_sorted_perm (l : list A) : py_sorted key l ≡ₚ l.
Proof.
  induction l as [|x l IH]; cbn; [reflexivity|].
  fold (py_sorted key l). now rewrite insert_by_perm, IH.
Qed.

Lemma insert_by_ascending (x : A) (l : list A) :
  ascending key l -> ascending key (insert_by key x l).
Proof.
  unfold ascending. intros H.
  induction H as [|y ys Hs IH Hy]; cbn [insert_by].
  - repeat constructor.
  - destruct (Qleb (key x) (key y)) eqn:E.
    + apply Qleb_le in E. constructor; [now constructor|].
      constructor; [exact E|].
      eapply Forall_impl; [exact Hy|]. cbn. intros z Hz. lra.
    + apply Qleb_gt in E. constructor; [exact IH|].
      rewrite (insert_by_perm x ys). constructor; [lra | exact Hy].
Qed.

Lemma py_sorted_ascending (l : list A) : ascending key (py_sorted key l).
Proof.
  induction l as [|x l IH]; cbn; [constructor|].
  now apply insert_by_ascending.
Qed.

(** Stability: among the elements of one key value the order is the
    input order. *)
Lemma filter_insert_by (q : Q) (x : A) (l : list A) :
  filter (has_key key q) (insert_by key x l) = filter (has_key key q) (x :: l).
Proof.
  induction l as [|y ys IH]; cbn [insert_by]; [reflexivity|].
  destruct (Qleb (key x) (key y)) eqn:E; [reflexivity|].
  apply Qleb_gt in E.
  rewrite (filter_cons _ y), IH, !(filter_cons _ x), (filter_cons _ y).
  destruct (decide (has_key key q x)) as [Hx|Hx]; [|reflexivity].
  destruct (decide (has_key key q y)) as [Hy|Hy]; [|reflexivity].
  unfold has_key in Hx, Hy. apply Qeq_bool_eq in Hx, Hy. lra.
Qed.

Lemma py_sorted_stable (q : Q) (l : list A) :
  filter (has_key key q) (py_sorted key l) = filter (has_key key q) l.
Proof.
  induction l as [|x l IH]; cbn; [reflexivity|].
  fold (py_sorted key l). rewrite filter_insert_by, !filter_cons, IH.
  reflexivity.
Qed.

End Sorting.

Lemma py_sum_from (l : list Q) (s : Q) :
  fold_left Qplus l s == s + py_sum l.
Proof.
  unfold py_sum. revert s. induction l as [|x l IH]; intros s; cbn.
  - ring.
  - rewrite (IH (s + x)), (IH (0 + x)). ring.
Qed.

Lemma py_sum_cons (x : Q) (l : list Q) : py_sum (x :: l) == x + py_sum l.
Proof. unfold py_sum at 1. cbn. rewrite py_sum_from. ring. Qed.

Lemma py_sum_lower (c : Q) (l : list Q) :
  Forall (fun x => c <= x) l ->
  c * inject_Z (Z.of_nat (length l)) <= py_sum l.
Proof.
  intros H. induction H as [|x l Hx _ IH].
  - change (c * 0 <= 0). lra.
  - rewrite py_sum_cons. cbn [length]. rewrite Nat2Z.inj_succ.
    unfold Z.succ. rewrite inject_Z_plus. change (inject_Z 1) with 1. lra.
Qed.

Lemma length_pos_Q {A : Type} (l : list A) :
  l <> [] -> 0 < inject_Z (Z.of_nat (length l)).
Proof.
  intros N. change 0 with (inject_Z 0). rewrite <- Zlt_Qlt.
  destruct l; [congruence | cbn [length]; lia].
Qed.

(** The mean of numbers that are all at least [c] is at least [c]. *)
Lemma mean_lower (c : Q) (l : list Q) :
  l <> [] -> Forall (fun x => c <= x) l ->
  exists m, py_div (py_sum l) (inject_Z (Z.of_nat (length l))) = Ok m
            /\ c <= m.
Proof.
  intros N H. pose proof (length_pos_Q l N) as P.
  rewrite py_div_ok by lra. eexists. split; [reflexivity|].
  apply Qle_shift_div_l; [exact P|]. now apply py_sum_lower.
Qed.

Lemma mapM_Forall2 {A B : Type} (f : A -> result B) (l : list A) (l' : list B) :
  mapM f l = Ok l' <-> Forall2 (fun a b => f a = Ok b) l l'.
Proof.
  revert l'. induction l as [|a l IH]; intros l'; cbn [mapM].
  - split.
    + intros [= <-]. constructor.
    + intros H. inversion H. reflexivity.
  - split.
    + destruct (f a) as [b|e] eqn:E; cbn [rbind]; [|discriminate].
      destruct (mapM f l) as [bs|e]; cbn [rbind]; [|discriminate].
      intros [= <-]. constructor; [exact E | now apply IH].
    + intros H. inversion H as [|a' b l1 bs Hab Hrest]; subst.
      rewrite Hab. cbn [rbind]. apply IH in Hrest. rewrite Hrest. reflexivity.
Qed.

Lemma mapM_total {A B : Type} (f : A -> result B) (l : list A) :
  Forall (fun a => exists b, f a = Ok b) l -> exists l', mapM f l = Ok l'.
Proof.
  intros H. induction H as [|a l [b Hb] _ [bs IH]]; cbn [mapM].
  - eauto.
  - rewrite Hb, IH. cbn [rbind]. eauto.
Qed.

(** ** The comparator *)

Section Comparator.

Import CompareProjects ComparatorSpec Samples.

Lemma guarded_pct (reference x : Q) :
  (if Qltb 0 reference then
     let* q := py_div (x - reference) reference in
     Ok (py_round (q * 100) 1)
   else Ok 0)
  = Ok (pct_vs reference x).
Proof.
  unfold pct_vs. destruct (Qltb 0 reference) eqn:E; [|reflexivity].
  apply Qltb_lt in E. now rewrite py_div_ok by lra.
Qed.

Lemma relative_metrics_ok (best_lcoe avg_lcoe : Q) (i : nat)
    (p : ProjectResult) :
  relative_metrics best_lcoe avg_lcoe i p
  = Ok {| project := p;
          rank := Z.of_nat i + 1;
          lcoe_vs_best_pct := pct_vs best_lcoe (lcoe_usd_per_mwh p);
          lcoe_vs_avg_pct := pct_vs avg_lcoe (lcoe_usd_per_mwh p) |}.
Proof. unfold relative_metrics. now rewrite !guarded_pct. Qed.

Lemma mapiM_relative (best_lcoe avg_lcoe : Q) (l : list ProjectResult) :
  forall i, exists ranked,
    mapiM (relative_metrics best_lcoe avg_lcoe) i l = Ok ranked
    /\ map project ranked = l
    /\ forall k r, ranked !! k = Some r ->
         rank r = (Z.of_nat (i + k) + 1)%Z
         /\ lcoe_vs_best_pct r
            = pct_vs best_lcoe (lcoe_usd_per_mwh (project r)).
Proof.
  induction l as [|p l IH]; intros i; cbn [mapiM].
  - exists []. split; [reflexivity|]. split; [reflexivity|].
    intros k r H. discriminate H.
  - rewrite relative_metrics_ok. cbn [rbind].
    destruct (IH (S i)) as (rs & E & M & K). rewrite E. cbn [rbind].
    eexists. split; [reflexivity|]. split; [cbn; now rewrite M|].
    intros [|j] r H.
    + injection H as <-. cbn. split; [f_equal; lia | reflexivity].
    + destruct (K j r H) as [R V]. split; [rewrite R; f_equal; lia | exact V].
Qed.

Lemma py_min_ok (l : list Q) : l <> [] -> exists m, py_min l = Ok m.
Proof. destruct l; [congruence | cbn; eauto]. Qed.

Lemma py_max_ok (l : list Q) : l <> [] -> exists m, py_max l = Ok m.
Proof. destruct l; [congruence | cbn; eauto]. Qed.

Lemma py_min_by_ok {A : Type} (key : A -> Q) (l : list A) :
  l <> [] -> exists m, py_min_by key l = Ok m.
Proof. destruct l; [congruence | cbn; eauto]. Qed.

(** Grouping keeps every group non-empty and made of the given projects. *)
Lemma group_add_sound (P : ProjectResult -> Prop) (tech : pyval)
    (proj : ProjectResult) (groups : list (pyval * list ProjectResult)) :
  P proj -> Forall (sound_group P) groups ->
  Forall (sound_group P) (group_add tech proj groups).
Proof.
  intros Hp H. induction H as [|[k ps] gs [N F] Hgs IH]; cbn [group_add].
  - repeat constructor; cbn; [discriminate | exact Hp].
  - destruct (key_eqb k tech).
    + constructor; [|exact Hgs]. split; cbn [snd] in *.
      * destruct ps; discriminate.
      * apply Forall_app. split; [exact F | now constructor].
    + constructor; [now split | exact IH].
Qed.

Lemma group_by_technology_ok (P : ProjectResult -> Prop)
    (successful : list ProjectResult) :
  Forall (fun p => hashable (technology p) = true) successful ->
  Forall P successful ->
  exists groups,
    group_by_technology successful = Ok groups
    /\ Forall (sound_group P) groups.
Proof.
  unfold group_by_technology. intros H HP.
  assert (G : Forall (sound_group P) []) by constructor.
  revert G. generalize (@nil (pyval * list ProjectResult)).
  induction H as [|p l Hh _ IH]; intros groups G; cbn [foldM].
  - eauto.
  - rewrite Hh. cbn [rbind]. inversion HP as [|? ? Pp Pl]; subst.
    apply IH; [exact Pl|]. now apply group_add_sound.
Qed.

Lemma summarize_technology_ok (c : Q) (tech_projects : list ProjectResult) :
  tech_projects <> [] ->
  Forall (fun p => c <= lcoe_usd_per_mwh p) tech_projects ->
  exists ts,
    summarize_technology tech_projects = Ok ts
    /\ py_round c 2 <= avg_lcoe_usd_per_mwh ts.
Proof.
  intros N H. unfold summarize_technology.
  assert (N' : map lcoe_usd_per_mwh tech_projects <> []).
  { destruct tech_projects; [congruence | discriminate]. }
  destruct (mean_lower c (map lcoe_usd_per_mwh tech_projects) N')
    as (m & E & L).
  { now apply Forall_map. }
  rewrite E. cbn [rbind].
  destruct (py_min_ok _ N') as [mn ->]. destruct (py_max_ok _ N') as [mx ->].
  destruct (py_min_by_ok lcoe_usd_per_mwh _ N) as [b ->]. cbn [rbind].
  eexists. split; [reflexivity|]. cbn [avg_lcoe_usd_per_mwh].
  now apply py_round_mono.
Qed.

Lemma last_in {A : Type} (l : list A) (d : A) :
  l <> [] -> List.last l d ∈ l.
Proof.
  induction l as [|a l IH]; [congruence|]. intros _.
  destruct l as [|b l]; [cbn; left|].
  change (List.last (a :: b :: l) d) with (List.last (b :: l) d).
  right. apply IH. discriminate.
Qed.



End Comparator.

Section ComparatorClaims.

Import CompareProjects ComparatorSpec Samples.

Lemma calculate_lcoe_rounded (i : CalculateLcoe.LCOEInput)
    (r : CalculateLcoe.LCOEResult) :
  CalculateLcoe.calculate_lcoe i = Ok r ->
  exists x, CalculateLcoe.lcoe_usd_per_mwh r = py_round x 2.
Proof.
  unfold CalculateLcoe.calculate_lcoe.
  destruct (CalculateLcoe.year_loop i); cbn [rbind]; [|discriminate].
  destruct (CalculateLcoe.lcoe_per_mwh_of a); cbn [rbind]; [|discriminate].
  destruct (py_div a0 1000); cbn [rbind]; [|discriminate].
  destruct (CalculateLcoe.capacity_factor_of i); cbn [rbind]; [|discriminate].
  intros [= <-]. cbn. eauto.
Qed.

Lemma analyze_project_rounded (d : gmap string pyval) (p : ProjectResult) :
  analyze_project d = Ok (Success p) ->
  exists x, lcoe_usd_per_mwh p = py_round x 2.
Proof.
  unfold analyze_project.
  destruct (CalculateLcoe.validate_input _) as [e|v]; [discriminate|].
  destruct (CalculateLcoe.calculate_lcoe v) as [res|] eqn:E; cbn [rbind];
    [|discriminate].
  match goal with
  | |- (let* per_mw := ?m in _) = _ -> _ => destruct m; cbn [rbind]
  end; [|discriminate].
  intros [= <-]. cbn. now apply (calculate_lcoe_rounded v).
Qed.

(** A positive amount rounded to cents is at least one cent. *)
Lemma py_round_cent (x : Q) : 0 < py_round x 2 -> 1 # 100 <= py_round x 2.
Proof.
  rewrite py_round_value. change (inject_Z (10 ^ Z.of_nat 2)) with 100.
  set (z := round_half_even (x * 100)). intros H.
  assert (P : (0 < z)%Z).
  { destruct (Z.lt_ge_cases 0 z) as [|G]; [assumption|].
    rewrite Zle_Qle in G. change (inject_Z 0) with 0 in G.
    assert (inject_Z z / 100 <= 0) by (apply Qle_shift_div_r; lra). lra. }
  assert (1 <= inject_Z z).
  { change 1 with (inject_Z 1). rewrite <- Zle_Qle. lia. }
  apply Qle_shift_div_l; lra.
Qed.

Lemma successes_analyzed (projects : list (gmap string pyval))
    (analyzed : list Analyzed) :
  mapM analyze_project projects = Ok analyzed ->
  Forall (fun p => exists x, lcoe_usd_per_mwh p = py_round x 2)
         (successes analyzed).
Proof.
  intros H. apply mapM_Forall2 in H. unfold successes.
  induction H as [|d a ds l Ha _ IH]; [constructor|].
  cbn [omap list_omap]. destruct a as [p|f]; [|exact IH].
  constructor; [|exact IH]. now apply (analyze_project_rounded d).
Qed.


(** What a returned comparison was computed from. *)
Lemma compare_projects_inv (projects : list (gmap string pyval))
    (analyzed : list Analyzed) (summary : Summary)
    (techs : list (pyval * TechSummary)) (ranked : list Ranked)
    (recs : list Recommendation) (failed : option (list FailedProject)) :
  mapM analyze_project projects = Ok analyzed ->
  compare_projects projects = Ok (Compared summary techs ranked recs failed) ->
  successes analyzed <> []
  /\ failed = match failures analyzed with
              | [] => None
              | _ => Some (failures analyzed)
              end
  /\ exists best avg_lcoe,
       head (py_sorted lcoe_usd_per_mwh (successes analyzed)) = Some best
       /\ mapiM (relative_metrics (lcoe_usd_per_mwh best) avg_lcoe) 0
            (py_sorted lcoe_usd_per_mwh (successes analyzed))
          = Ok ranked.
Proof.
  intros A. unfold compare_projects. rewrite A. cbn [rbind].
  destruct (successes analyzed) as [|s0 rest] eqn:Es; [discriminate|].
  rewrite <- Es.
  destruct (py_sorted lcoe_usd_per_mwh (successes analyzed))
    as [|best tl] eqn:Esort; cbn [rbind]; [discriminate|].
  rewrite <- Esort.
  destruct (py_div _ _) as [avg|]; cbn [rbind]; [|discriminate].
  destruct (py_min _) as [mn|]; cbn [rbind]; [|discriminate].
  destruct (py_max _) as [mx|]; cbn [rbind]; [|discriminate].
  destruct (mapiM _ _ _) as [rk|] eqn:Erk; cbn [rbind]; [|discriminate].
  destruct (group_by_technology _) as [gs|]; cbn [rbind]; [|discriminate].
  destruct (mapM _ gs) as [ts|]; cbn [rbind]; [|discriminate].
  destruct (generate_recommendations rk ts) as [rc|]; cbn [rbind];
    [|discriminate].
  rewrite guarded_pct. cbn [rbind].
  intros [= <- <- <- <- <-].
  split; [rewrite Es; discriminate|]. split; [reflexivity|].
  exists best, avg. rewrite Esort. split; [reflexivity|].
  rewrite <- Esort. exact Erk.
Qed.

End ComparatorClaims.

Section RankingClaims.

Import CompareProjects ComparatorSpec Samples.



(** Projects of LCOE 40, 55 and 70 are ranked 1, 2, 3 in that order
    whatever the input order, and the last is 75.0% above the best. *)
Example three_projects_ranked :
  Forall (fun input =>
            ranking_of (compare_projects input)
            = [ (VStr "forty", 1%Z, 40, 0);
                (VStr "fifty-five", 2%Z, 55, 75 # 2);
                (VStr "seventy", 3%Z, 70, 75) ])
    [ [p40; p55; p70]; [p40; p70; p55]; [p55; p40; p70];
      [p55; p70; p40]; [p70; p40; p55]; [p70; p55; p40] ].
Proof. repeat constructor. Qed.


End RankingClaims.

Section BatchClaims.

Import CompareProjects ComparatorSpec Samples.

Lemma successes_of_failures (fs : list FailedProject) :
  successes (map Failure fs) = [].
Proof. induction fs as [|f fs IH]; [reflexivity | exact IH]. Qed.

Lemma failures_of_failures (fs : list FailedProject) :
  failures (map Failure fs) = fs.
Proof.
  induction fs as [|f fs IH]; [reflexivity|].
  unfold failures in *. cbn. now rewrite IH.
Qed.

Lemma analyze_project_invalid (d : gmap string pyval)
    (e : CalculateLcoe.ValidationError) :
  CalculateLcoe.validate_input (delete "_source" d) = inl e ->
  analyze_project d = Ok (Failure (failure_of d e)).
Proof. intros H. unfold analyze_project. now rewrite H. Qed.

(** When no project validates the answer is the top-level failure
    [NO_VALID_PROJECTS], carrying one failure per project, in order, with
    the code its validation gave. *)
Lemma no_valid_projects_rejected (projects : list (gmap string pyval))
    (errors : list CalculateLcoe.ValidationError) :
  Forall2 (fun d e => CalculateLcoe.validate_input (delete "_source" d) = inl e)
          projects errors ->
  compare_projects projects
  = Ok (Rejected "NO_VALID_PROJECTS"
          "No projects could be analyzed successfully"
          (zip_with failure_of projects errors)).
Proof.
  intros H. unfold compare_projects.
  assert (A : mapM analyze_project projects
              = Ok (map Failure (zip_with failure_of projects errors))).
  { induction H as [|d e ds es Hd _ IH]; [reflexivity|].
    cbn [mapM]. rewrite (analyze_project_invalid d e Hd), IH. reflexivity. }
  rewrite A. cbn [rbind].
  now rewrite successes_of_failures, failures_of_failures.
Qed.

(** In a comparison that is returned, every project that did not validate
    is in the failure list with its error. *)
Lemma failures_retained (projects : list (gmap string pyval))
    (summary : Summary) (techs : list (pyval * TechSummary))
    (ranked : list Ranked) (recs : list Recommendation)
    (failed : option (list FailedProject))
    (d : gmap string pyval) (e : CalculateLcoe.ValidationError) :
  compare_projects projects = Ok (Compared summary techs ranked recs failed) ->
  d ∈ projects ->
  CalculateLcoe.validate_input (delete "_source" d) = inl e ->
  exists fs, failed = Some fs /\ failure_of d e ∈ fs.
Proof.
  intros E Hd V.
  destruct (mapM analyze_project projects) as [analyzed|x] eqn:A.
  2: { unfold compare_projects in E. rewrite A in E. discriminate E. }
  destruct (compare_projects_inv _ _ _ _ _ _ _ A E) as (_ & -> & _).
  clear E.
  assert (I : failure_of d e ∈ failures analyzed).
  { apply mapM_Forall2 in A. unfold failures.
    induction A as [|d' a ds l Ha _ IH]; [inversion Hd|].
    cbn [omap list_omap]. apply elem_of_cons in Hd as [<- | Hd].
    - rewrite (analyze_project_invalid d e V) in Ha. injection Ha as <-.
      left.
    - destruct a; [now apply IH | right; now apply IH]. }
  destruct (failures analyzed) as [|f fs]; [inversion I|].
  eauto.
Qed.

(** C6, where the code departs from it.  A batch of one valid project
    whose LCOE is reported as 0.00 and one project that does not validate
    is not answered with a comparison that lists the failure: the advantage
    of the best project over the worst is divided by the worst LCOE without
    the guard every sibling ratio has, and the division fault escapes. *)
Theorem partial_batch_division_fault :
  (exists p, CalculateLcoe.validate_input (delete "_source" cheap) = inr p)
  /\ (exists e,
        CalculateLcoe.validate_input (delete "_source" unusable) = inl e)
  /\ compare_projects [cheap; unusable] = Raise ZeroDivisionError.
Proof.
  split; [eexists; vm_compute; reflexivity|].
  split; [eexists; vm_compute; reflexivity|].
  vm_compute. reflexivity.
Qed.

End BatchClaims.

(** ** The sensitivity analyzer *)

Section RangeClaims.

Import SensitivityAnalysis AnalyzerSpec Samples.







End RangeClaims.

Section ElasticityClaims.

Import SensitivityAnalysis AnalyzerSpec EngineSpec Samples.

Lemma elasticity_loop (rs : list SensitivityPoint) :
  forall acc,
    foldM elasticity_step rs acc
    = Ok (acc ++ map point_elasticity (filter contributes rs)).
Proof.
  induction rs as [|r rs IH]; intros acc; cbn [foldM].
  - cbn. now rewrite app_nil_r.
  - unfold elasticity_step at 1. rewrite filter_cons.
    destruct (is_base r) eqn:B; cbn [negb andb].
    + cbn [rbind]. rewrite IH.
      destruct (decide (contributes r)) as [[C _]|_]; [congruence|reflexivity].
    + destruct (Qeq_bool (value_pct_change r) 0) eqn:Z; cbn [negb rbind].
      * rewrite IH.
        destruct (decide (contributes r)) as [[_ C]|_];
          [congruence|reflexivity].
      * rewrite py_div_ok by now apply Qeq_bool_neq.
        cbn [rbind]. rewrite IH.
        destruct (decide (contributes r)) as [_|C].
        -- cbn [map]. now rewrite <- app_assoc.
        -- exfalso. apply C. now split.
Qed.

Lemma elasticities_of_spec (rs : list SensitivityPoint) :
  elasticities_of rs = Ok (map point_elasticity (filter contributes rs)).
Proof. unfold elasticities_of. now rewrite elasticity_loop. Qed.

Lemma avg_elasticity_of_spec (es : list Q) :
  avg_elasticity_of es = Ok (mean es).
Proof.
  unfold avg_elasticity_of, mean. destruct es as [|e es]; [reflexivity|].
  rewrite py_div_ok; [reflexivity|].
  pose proof (length_pos_Q (e :: es) ltac:(discriminate)). lra.
Qed.

Lemma to_dict_capacity (i : CalculateLcoe.LCOEInput) :
  to_dict i !! "capacity_mw" = Some (CalculateLcoe.capacity_mw i).
Proof. reflexivity. Qed.

(** One candidate value: skipped, or a point, never a fault, when the base
    value is a number and the capacity of the documented type. *)
Lemma sensitivity_point_ok (base_inputs : CalculateLcoe.LCOEInput)
    (param_name : string) (base_lcoe : Q) (base_value : pyval) (bv v : Q) :
  numeric_or_absent (CalculateLcoe.capacity_mw base_inputs) ->
  as_number base_value = Some bv ->
  exists pt,
    sensitivity_point base_inputs param_name base_lcoe base_value v = Ok pt.
Proof.
  intros T Nv. unfold sensitivity_point.
  match goal with
  | |- context [CalculateLcoe.validate_input ?m] =>
      set (modified := m);
      destruct (CalculateLcoe.validate_input modified) as [e|validated] eqn:V
  end; [eauto|].
  pose proof (validated_in_range _ _ V) as R.
  assert (T' : numeric_or_absent (CalculateLcoe.capacity_mw validated)).
  { apply validate_input_inr in V as (_ & _ & ->).
    cbn [ValidatorSpec.defaulted CalculateLcoe.capacity_mw].
    unfold dict_get. subst modified.
    destruct (String.eqb_spec param_name "capacity_mw") as [->|Ne].
    - cbn [String.eqb Ascii.eqb Bool.eqb]. rewrite lookup_insert_eq.
      right. cbn. eauto.
    - destruct (String.eqb param_name "project_lifetime_years");
        rewrite ?lookup_insert_ne by exact Ne;
        now rewrite to_dict_capacity. }
  destruct (capacity_factor_of_typed validated R T') as [cf CF].
  destruct (calculate_lcoe_ok validated cf R CF) as (res & -> & _).
  cbn [rbind].
  assert (G : forall x y : Q,
    (if Qltb 0 y then let* q := py_div (x - y) y in Ok (q * 100) else Ok 0)
    = Ok (if Qltb 0 y then (x - y) / y * 100 else 0)).
  { intros x y. destruct (Qltb 0 y) eqn:E; [|reflexivity].
    apply Qltb_lt in E. now rewrite py_div_ok by lra. }
  rewrite G. cbn [rbind]. unfold number_operand. rewrite Nv. cbn [rbind].
  rewrite G. cbn [rbind]. eauto.
Qed.




End ElasticityClaims.

(** * Further properties *)

(** ** More on the validator *)

Section ValidatorReading.

Import CalculateLcoe ValidatorSpec EngineSpec Reading Samples.

Lemma first_missing_same (d1 d2 : gmap string pyval) :
  same_reading d1 d2 -> first_missing d1 = first_missing d2.
Proof.
  intros S. unfold first_missing.
  pose proof (same_presence d1 d2 S) as P.
  induction required_fields as [|fd fds IH]; [reflexivity|].
  cbn [List.find].
  assert (E : d1 !! fd.1 = None <-> d2 !! fd.1 = None)
    by (apply P; now left).
  destruct (d1 !! fd.1) as [v1|] eqn:E1, (d2 !! fd.1) as [v2|] eqn:E2.
  - apply IH. intros fd' H. apply P. now right.
  - destruct E as [_ E]. discriminate (E eq_refl).
  - destruct E as [E _]. discriminate (E eq_refl).
  - reflexivity.
Qed.

Lemma violations_same (d1 d2 : gmap string pyval) :
  same_reading d1 d2 -> violations d1 = violations d2.
Proof.
  intros S. unfold violations.
  pose proof (same_fields d1 d2 S) as F.
  induction field_checks as [|fc fcs IH]; [reflexivity|].
  cbn [omap list_omap].
  assert (E : violation d1 fc = violation d2 fc).
  { unfold violation. now rewrite (F fc (or_introl eq_refl)). }
  rewrite E, IH; [reflexivity|]. intros fc' H. apply F. now right.
Qed.

(** The field check of the list that equates the two readings in the
    goal. *)
Local Ltac same_field F :=
  match type of F with
  | forall fc, In fc ?l -> _ =>
      let rec find l :=
        lazymatch l with
        | ?fc :: ?rest => first [ exact (F fc ltac:(cbn; tauto)) | find rest ]
        end in
      find l
  end.

Lemma defaulted_same (d1 d2 : gmap string pyval) :
  same_reading d1 d2 -> defaulted d1 = defaulted d2.
Proof.
  intros S. pose proof (same_fields d1 d2 S) as F.
  unfold defaulted, number_at.
  rewrite (same_capacity d1 d2 S), (same_technology d1 d2 S).
  unfold field_checks, field_value in F.
  repeat match goal with
  | |- context [dict_get d1 ?k ?v] =>
      let H := fresh "H" in
      assert (H : dict_get d1 k v = dict_get d2 k v) by same_field F;
      rewrite H; clear H
  end.
  reflexivity.
Qed.

End ValidatorReading.

Section ValidatorKeys.

Import CalculateLcoe ValidatorSpec EngineSpec Reading Samples.

Lemma validate_input_same (d1 d2 : gmap string pyval) :
  same_reading d1 d2 -> validate_input d1 = validate_input d2.
Proof.
  intros S. rewrite !validate_input_unfold. unfold validate_input_spec.
  now rewrite (first_missing_same d1 d2 S), (violations_same d1 d2 S),
    (defaulted_same d1 d2 S).
Qed.

Lemma not_known_ne (k k' : string) :
  k ∉ known_keys -> In k' known_keys -> k <> k'.
Proof. intros N H ->. apply N. now apply list_elem_of_In. Qed.

Lemma same_reading_off_keys (d1 d2 : gmap string pyval) :
  (forall k, In k known_keys -> d1 !! k = d2 !! k) -> same_reading d1 d2.
Proof.
  intros A. split.
  - intros fd H. rewrite (A (fst fd)); [reflexivity|].
    cbn in H. unfold known_keys.
    repeat destruct H as [<- | H]; cbn; tauto.
  - intros fc H. unfold field_value, dict_get. rewrite (A (fc_field fc));
      [reflexivity|].
    cbn in H. unfold known_keys.
    repeat destruct H as [<- | H]; cbn; tauto.
  - unfold dict_get. rewrite (A "capacity_mw"%string); [reflexivity|].
    cbn. tauto.
  - unfold dict_get. rewrite (A "technology"%string); [reflexivity|].
    cbn. tauto.
Qed.

(** X1.  [validate_input] reads eleven keys and nothing else: setting or
    removing any other key of the mapping changes neither the failure nor
    the parameter set it answers with. *)
Theorem validate_input_ignores_other_keys (data : gmap string pyval)
    (k : string) (v : pyval) :
  k ∉ known_keys ->
  validate_input (<[k := v]> data) = validate_input data
  /\ validate_input (delete k data) = validate_input data.
Proof.
  intros N. split; apply validate_input_same, same_reading_off_keys;
    intros k' H; pose proof (not_known_ne k k' N H).
  - now apply lookup_insert_ne.
  - now apply lookup_delete_ne.
Qed.

Lemma validate_input_ignores_other_keys_witness :
  validate_input (<["_source" := VStr "a.json"]> solar_project)
  = validate_input solar_project.
Proof.
  destruct (validate_input_ignores_other_keys solar_project "_source"
              (VStr "a.json")) as [I _]; [|exact I].
  unfold known_keys. intros H. apply list_elem_of_In in H. cbn in H.
  repeat destruct H as [H | H]; try discriminate H. exact H.
Defined.

(** X2.  Writing an optional field out with the value [validate_input]
    defaults it to is the same as leaving it out. *)
Theorem explicit_default_is_omission (data : gmap string pyval)
    (k : string) (dflt : pyval) :
  In (k, dflt) optional_defaults -> data !! k = None ->
  validate_input (<[k := dflt]> data) = validate_input data.
Proof.
  intros H A. apply validate_input_same.
  assert (G : forall k' d', (k' = k -> d' = dflt) ->
            dict_get (<[k := dflt]> data) k' d' = dict_get data k' d').
  { intros k' d' E. unfold dict_get.
    destruct (decide (k = k')) as [<-|Ne].
    - rewrite lookup_insert_eq, A. cbn. symmetry. now apply E.
    - now rewrite lookup_insert_ne. }
  unfold optional_defaults in H. cbn in H.
  split.
  - intros fd Hfd. rewrite lookup_insert_ne; [reflexivity|].
    cbn in Hfd.
    repeat destruct H as [H | H]; try (exfalso; exact H);
      injection H as <- <-;
      repeat destruct Hfd as [<- | Hfd]; try (exfalso; exact Hfd);
      discriminate.
  - intros fc Hfc. unfold field_value. apply G. intros E.
    cbn in Hfc.
    repeat destruct H as [H | H]; try (exfalso; exact H);
      injection H as <- <-;
      repeat destruct Hfc as [<- | Hfc]; try (exfalso; exact Hfc);
      cbn in E |- *; first [reflexivity | discriminate E].
  - apply G. intros E.
    repeat destruct H as [H | H]; try (exfalso; exact H);
      injection H as <- <-; first [reflexivity | discriminate E].
  - apply G. intros E.
    repeat destruct H as [H | H]; try (exfalso; exact H);
      injection H as <- <-; first [reflexivity | discriminate E].
Qed.

Lemma explicit_default_is_omission_witness :
  validate_input (<["degradation_rate" := VFloat (1 # 200)]> solar_project)
  = validate_input solar_project.
Proof.
  apply (explicit_default_is_omission solar_project "degradation_rate"
           (VFloat (1 # 200))).
  - cbn. tauto.
  - reflexivity.
Defined.

End ValidatorKeys.

Section ValidatorRoundTrip.

Import CalculateLcoe ValidatorSpec EngineSpec Reading Samples.
Import SensitivityAnalysis.



Lemma violation_met (d : gmap string pyval) (fc : FieldCheck) (v : pyval) :
  d !! fc_field fc = Some v -> satisfies fc v = true -> violation d fc = None.
Proof.
  intros L S. unfold violation, field_value, dict_get. rewrite L.
  cbn [default from_option id]. now rewrite S.
Qed.

Lemma omap_none {A B : Type} (f : A -> option B) (l : list A) :
  Forall (fun a => f a = None) l -> omap f l = [].
Proof.
  intros H. induction H as [|a l Ha _ IH]; [reflexivity|].
  cbn [omap list_omap]. now rewrite Ha.
Qed.

Lemma within_met (lo hi x : Q) : lo <= x <= hi -> within lo hi x = true.
Proof.
  intros [L H]. unfold within. apply andb_true_iff.
  split; now apply Qleb_le.
Qed.

(** The mapping made of a parameter set in range validates, to that
    parameter set. *)
Lemma validate_to_dict (p : LCOEInput) :
  in_range p -> validate_input (to_dict p) = inr p.
Proof.
  intros R. rewrite validate_input_unfold. unfold validate_input_spec.
  assert (M : first_missing (to_dict p) = None) by reflexivity.
  rewrite M. clear M.
  assert (V : violations (to_dict p) = []).
  { destruct R as [Rc Rg Rl Rr Ro Rf Ro' Rf' Rd].
    apply omap_none. unfold field_checks.
    repeat apply Forall_cons_2; [..|apply Forall_nil_2].
    - apply (violation_met _ _ (VFloat (capex_usd p))); [reflexivity|].
      now apply Qltb_lt.
    - apply (violation_met _ _ (VFloat (annual_generation_mwh p)));
        [reflexivity|].
      now apply Qltb_lt.
    - apply (violation_met _ _ (VInt (project_lifetime_years p)));
        [reflexivity|].
      apply andb_true_iff. split; apply Z.leb_le; lia.
    - apply (violation_met _ _ (VFloat (discount_rate p))); [reflexivity|].
      now apply within_met.
    - apply (violation_met _ _ (VFloat (annual_opex_usd p))); [reflexivity|].
      now apply Qleb_le.
    - apply (violation_met _ _ (VFloat (annual_fuel_cost_usd p)));
        [reflexivity|].
      now apply Qleb_le.
    - apply (violation_met _ _ (VFloat (opex_escalation_rate p)));
        [reflexivity|].
      now apply within_met.
    - apply (violation_met _ _ (VFloat (fuel_escalation_rate p)));
        [reflexivity|].
      now apply within_met.
    - apply (violation_met _ _ (VFloat (degradation_rate p))); [reflexivity|].
      now apply within_met. }
  rewrite V. f_equal. now destruct p.
Qed.

(** X4.  Validation is a round trip on what it accepts: the mapping made
    of a parameter set in range validates, to that very parameter set. *)
Theorem revalidation_round_trip (p : LCOEInput) :
  in_range p -> validate_input (to_dict p) = inr p.
Proof. exact (validate_to_dict p). Qed.

Lemma revalidation_round_trip_witness :
  validate_input (to_dict (validated solar_project))
  = inr (validated solar_project).
Proof.
  apply (revalidation_round_trip (validated solar_project)).
  now apply (validated_in_range solar_project).
Defined.

(** X5.  The lifetime must be an integer value: once capex and generation
    pass, a lifetime given as a float is answered with [INVALID_LIFETIME],
    whatever the number (25.0 included). *)
Theorem float_lifetime_rejected (data : gmap string pyval)
    (vc vg vr : pyval) (c g q : Q) :
  data !! "capex_usd" = Some vc -> as_number vc = Some c -> 0 < c ->
  data !! "annual_generation_mwh" = Some vg -> as_number vg = Some g ->
  0 < g ->
  data !! "project_lifetime_years" = Some (VFloat q) ->
  data !! "discount_rate" = Some vr ->
  validate_input data
  = inl (invalid "INVALID_LIFETIME"
           "Project lifetime must be between 1 and 50 years"
           "project_lifetime_years" (VFloat q) "1-50").
Proof.
  intros Lc Nc Pc Lg Ng Pg Ll Lr. unfold validate_input.
  cbn [required_fields check_required]. rewrite Lc, Lg, Ll, Lr.
  unfold dict_get. rewrite Lc, Lg, Ll. cbn [default from_option id].
  unfold check_number. rewrite Nc, Ng.
  rewrite (proj2 (Qleb_gt c 0) Pc), (proj2 (Qleb_gt g 0) Pg).
  reflexivity.
Qed.

Lemma float_lifetime_rejected_witness :
  exists e,
    validate_input (<["project_lifetime_years" := VFloat 25]> solar_project)
    = inl e
    /\ code e = "INVALID_LIFETIME"%string.
Proof.
  eexists. split.
  - apply (float_lifetime_rejected _ (VInt 80000000) (VInt 200000)
             (VFloat (8 # 100)) 80000000 200000 25);
      reflexivity.
  - reflexivity.
Defined.

End ValidatorRoundTrip.

(** ** More on the engine *)

Section EngineRecords.

Import CalculateLcoe ValidatorSpec EngineSpec Reading Samples.

Lemma year_body_inv (i : LCOEInput) (acc acc' : Accum) (t : Z) :
  year_body i acc t = Ok acc' ->
  exists rec,
    acc_breakdown acc' = acc_breakdown acc ++ [rec]
    /\ year rec = t
    /\ cumulative_discounted_cost_usd rec
       = py_round (cumulative_discounted_cost acc') 2
    /\ cumulative_discounted_generation_mwh rec
       = py_round (cumulative_discounted_gen acc') 2
    /\ (cumulative_discounted_cost acc = npv_costs acc ->
        cumulative_discounted_cost acc' = npv_costs acc')
    /\ (cumulative_discounted_gen acc = npv_generation acc ->
        cumulative_discounted_gen acc' = npv_generation acc').
Proof.
  unfold year_body.
  destruct (py_div _ _) as [dc|]; cbn [rbind]; [|discriminate].
  destruct (py_div _ _) as [dg|]; cbn [rbind]; [|discriminate].
  intros [= <-]. eexists. split; [reflexivity|]. cbn.
  repeat split; intros ->; reflexivity.
Qed.

Lemma year_loop_records (i : LCOEInput) (years : list Z) :
  forall acc acc',
    foldM (year_body i) years acc = Ok acc' ->
    map year (acc_breakdown acc') = map year (acc_breakdown acc) ++ years
    /\ (cumulative_discounted_cost acc = npv_costs acc ->
        cumulative_discounted_cost acc' = npv_costs acc')
    /\ (cumulative_discounted_gen acc = npv_generation acc ->
        cumulative_discounted_gen acc' = npv_generation acc')
    /\ (years <> [] ->
        exists rec,
          last (acc_breakdown acc') = Some rec
          /\ cumulative_discounted_cost_usd rec
             = py_round (cumulative_discounted_cost acc') 2
          /\ cumulative_discounted_generation_mwh rec
             = py_round (cumulative_discounted_gen acc') 2).
Proof.
  induction years as [|t years IH]; intros acc acc'; cbn [foldM].
  - intros [= <-]. rewrite app_nil_r. repeat split; auto. congruence.
  - destruct (year_body i acc t) as [a1|] eqn:E; cbn [rbind]; [|discriminate].
    intros F. destruct (year_body_inv i acc a1 t E)
      as (rec & B & Y & C & G & KC & KG).
    destruct (IH a1 acc' F) as (M & KC' & KG' & L).
    split; [|split; [|split]].
    + rewrite M, B, map_app, <- app_assoc. cbn. now rewrite Y.
    + auto.
    + auto.
    + intros _. destruct years as [|t' years'].
      * cbn [foldM] in F. injection F as <-. exists rec.
        rewrite B, last_snoc. auto.
      * apply L. discriminate.
Qed.

(** What a returned result was computed from. *)
Lemma calculate_lcoe_inv (i : LCOEInput) (r : LCOEResult) :
  calculate_lcoe i = Ok r ->
  exists acc x,
    year_loop i = Ok acc
    /\ annual_breakdown r = acc_breakdown acc
    /\ npv_costs_usd r = py_round (npv_costs acc) 2
    /\ npv_generation_mwh r = py_round (npv_generation acc) 2
    /\ total_lifecycle_cost_usd r = py_round (total_lifecycle_cost acc) 2
    /\ total_lifetime_generation_mwh r = py_round (total_generation acc) 2
    /\ lcoe_usd_per_mwh r = py_round x 2
    /\ lcoe_usd_per_kwh r = py_round (x / 1000) 5
    /\ lcoe_cents_per_kwh r = py_round (x / 1000 * 100) 2.
Proof.
  unfold calculate_lcoe.
  destruct (year_loop i) as [acc|]; cbn [rbind]; [|discriminate].
  destruct (lcoe_per_mwh_of acc) as [x|]; cbn [rbind]; [|discriminate].
  rewrite py_div_ok by (intros H; discriminate H). cbn [rbind].
  destruct (capacity_factor_of i); cbn [rbind]; [|discriminate].
  intros [= <-]. exists acc, x. cbn. repeat split.
Qed.

(** X6.  Whenever [calculate_lcoe] returns, the annual breakdown has one
    record per project year, for the years 1 to the lifetime in order. *)
Theorem annual_breakdown_years (i : LCOEInput) (r : LCOEResult) :
  calculate_lcoe i = Ok r ->
  map year (annual_breakdown r) = py_range 1 (project_lifetime_years i + 1)
  /\ length (annual_breakdown r) = Z.to_nat (project_lifetime_years i).
Proof.
  intros E. destruct (calculate_lcoe_inv i r E) as (acc & x & L & B & _).
  unfold year_loop in L.
  destruct (year_loop_records i _ _ _ L) as (M & _).
  cbn [init_accum acc_breakdown map app] in M. rewrite B.
  split; [exact M|].
  rewrite <- (length_map year), M. unfold py_range.
  rewrite length_seqZ. f_equal. lia.
Qed.

Lemma annual_breakdown_years_witness :
  exists r,
    calculate_lcoe (validated simple_project) = Ok r
    /\ map year (annual_breakdown r) = [1; 2; 3; 4; 5; 6; 7; 8; 9; 10]%Z.
Proof.
  destruct (calculate_lcoe (validated simple_project)) as [r|] eqn:E;
    [|vm_compute in E; discriminate E].
  exists r. split; [reflexivity|].
  destruct (annual_breakdown_years _ r E) as [M _]. rewrite M. reflexivity.
Defined.

(** X7.  Whenever [calculate_lcoe] returns, the running totals in the last
    annual record are the reported net present values: cumulative
    discounted cost is [npv_costs_usd] and cumulative discounted generation
    is [npv_generation_mwh]. *)
Theorem last_record_carries_npv (i : LCOEInput) (r : LCOEResult)
    (rec : AnnualBreakdown) :
  calculate_lcoe i = Ok r ->
  last (annual_breakdown r) = Some rec ->
  cumulative_discounted_cost_usd rec = npv_costs_usd r
  /\ cumulative_discounted_generation_mwh rec = npv_generation_mwh r.
Proof.
  intros E La.
  destruct (calculate_lcoe_inv i r E)
    as (acc & x & L & B & NC & NG & _).
  unfold year_loop in L.
  destruct (year_loop_records i _ _ _ L) as (M & KC & KG & Lr).
  rewrite B in La.
  destruct (py_range 1 (project_lifetime_years i + 1)) as [|t ts] eqn:Y.
  { cbn [foldM] in L. injection L as <-. discriminate La. }
  destruct Lr as (rec' & La' & C & G); [discriminate|].
  rewrite La in La'. injection La' as <-.
  rewrite C, G, NC, NG, (KC eq_refl), (KG eq_refl). split; reflexivity.
Qed.

Lemma last_record_carries_npv_witness :
  exists r rec,
    calculate_lcoe (validated solar_project) = Ok r
    /\ last (annual_breakdown r) = Some rec
    /\ cumulative_discounted_cost_usd rec = npv_costs_usd r.
Proof.
  destruct (calculate_lcoe (validated solar_project)) as [r|] eqn:E;
    [|vm_compute in E; discriminate E].
  destruct (last (annual_breakdown r)) as [rec|] eqn:La.
  - exists r, rec. split; [reflexivity|]. split; [exact La|].
    now destruct (last_record_carries_npv _ r rec E La).
  - exfalso. vm_compute in E. injection E as <-. discriminate La.
Defined.

Lemma py_round_error (x : Q) (n : nat) :
  Qabs (py_round x n - x) <= 1 / (2 * inject_Z (10 ^ Z.of_nat n)).
Proof.
  rewrite py_round_value. pose proof (scale_pos n) as P.
  set (s := inject_Z (10 ^ Z.of_nat n)) in *.
  destruct (round_half_even_near (x * s)) as [Lo Hi].
  set (z := inject_Z (round_half_even (x * s))) in *.
  assert (E : z / s - x == (z - x * s) / s) by (field; lra).
  rewrite E. apply Qabs_Qle_condition.
  assert (H2 : 1 / (2 * s) == (1 # 2) / s) by (field; lra).
  rewrite H2.
  split.
  - setoid_replace (- ((1 # 2) / s)) with ((- (1 # 2)) / s)
      using relation Qeq by (field; lra).
    apply Qmult_le_compat_r; [lra|].
    apply Qlt_le_weak, Qinv_lt_0_compat, P.
  - apply Qmult_le_compat_r; [lra|].
    apply Qlt_le_weak, Qinv_lt_0_compat, P.
Qed.

Lemma py_round_error_2 (x : Q) : Qabs (py_round x 2 - x) <= 1 # 200.
Proof. exact (py_round_error x 2). Qed.

Lemma py_round_error_5 (x : Q) : Qabs (py_round x 5 - x) <= 1 # 200000.
Proof. exact (py_round_error x 5). Qed.

(** X8.  Whenever [calculate_lcoe] returns, the three denominations of the
    LCOE agree up to their rounding: the per-kWh figure is within 0.00001
    of a thousandth of the per-MWh figure, and the cents-per-kWh figure
    within 0.0055 of a hundred times the per-kWh figure. *)
Theorem denominations_consistent (i : LCOEInput) (r : LCOEResult) :
  calculate_lcoe i = Ok r ->
  Qabs (lcoe_usd_per_kwh r - lcoe_usd_per_mwh r / 1000) <= 1 # 100000
  /\ Qabs (lcoe_cents_per_kwh r - lcoe_usd_per_kwh r * 100) <= 55 # 10000.
Proof.
  intros E.
  destruct (calculate_lcoe_inv i r E)
    as (acc & x & _ & _ & _ & _ & _ & _ & -> & -> & ->).
  pose proof (py_round_error_2 x) as A.
  pose proof (py_round_error_5 (x / 1000)) as B.
  pose proof (py_round_error_2 (x / 1000 * 100)) as C.
  assert (X : x == x / 1000 * 1000) by field.
  apply Qabs_Qle_condition in A, B, C.
  assert (D : py_round x 2 / 1000 * 1000 == py_round x 2) by field.
  revert A B C X D.
  generalize (py_round x 2 / 1000), (py_round x 2), (py_round (x / 1000) 5),
    (py_round (x / 1000 * 100) 2), (x / 1000).
  intros a b c d y A B C X D.
  split; apply Qabs_Qle_condition; split; lra.
Qed.

Lemma denominations_consistent_witness :
  exists r,
    calculate_lcoe (validated solar_project) = Ok r
    /\ Qabs (lcoe_usd_per_kwh r - lcoe_usd_per_mwh r / 1000) <= 1 # 100000.
Proof.
  destruct (calculate_lcoe (validated solar_project)) as [r|] eqn:E;
    [|vm_compute in E; discriminate E].
  exists r. split; [reflexivity|].
  now destruct (denominations_consistent _ r E).
Defined.

End EngineRecords.

Section EngineTotals.

Import CalculateLcoe ValidatorSpec EngineSpec Reading Samples MoreSamples.

Lemma Qsum_le (f g : Z -> Q) (l : list Z) :
  Forall (fun t => f t <= g t) l -> Qsum f l <= Qsum g l.
Proof.
  intros H. induction H as [|t l Ht _ IH]; cbn [Qsum]; lra.
Qed.

Lemma Qsum_le_lt (f g : Z -> Q) (l : list Z) :
  Forall (fun t => f t <= g t) l -> Exists (fun t => f t < g t) l ->
  Qsum f l < Qsum g l.
Proof.
  intros H X. induction H as [|t l Ht Hl IH]; [inversion X|].
  cbn [Qsum]. pose proof (Qsum_le f g l Hl).
  inversion X as [? ? S|? ? S]; subst.
  - lra.
  - specialize (IH S). lra.
Qed.






Lemma generation_at_degraded (i : LCOEInput) (d2 : Q) (t : Z) :
  in_range i -> degradation_rate i < d2 -> d2 <= 1 # 10 -> (1 <= t)%Z ->
  generation_at (with_degradation i d2) t <= generation_at i t
  /\ ((2 <= t)%Z -> generation_at (with_degradation i d2) t < generation_at i t).
Proof.
  intros R L U Ht. unfold generation_at.
  cbn [with_degradation annual_generation_mwh degradation_rate].
  pose proof (generation_pos i R) as Pg.
  destruct (degradation_range i R) as [D0 D1].
  assert (S : (2 <= t)%Z ->
              (1 - d2) ^ (t - 1) < (1 - degradation_rate i) ^ (t - 1)).
  { intros H2. apply Qpower_base_lt; lra || lia. }
  split.
  - destruct (Z.eq_dec t 1%Z) as [->|N].
    + change (1 - 1)%Z with 0%Z. cbn [Qpower]. lra.
    + assert (H2 : (2 <= t)%Z) by lia. specialize (S H2). nra.
  - intros H2. specialize (S H2). nra.
Qed.

Lemma npv_generation_degraded (i : LCOEInput) (d2 : Q) :
  in_range i -> degradation_rate i < d2 -> d2 <= 1 # 10 ->
  npv_generation_of (with_degradation i d2) <= npv_generation_of i
  /\ ((2 <= project_lifetime_years i)%Z ->
      npv_generation_of (with_degradation i d2) < npv_generation_of i)
  /\ (project_lifetime_years i = 1%Z ->
      npv_generation_of (with_degradation i d2) == npv_generation_of i).
Proof.
  intros R L U. unfold npv_generation_of.
  change (years_of (with_degradation i d2)) with (years_of i).
  pose proof (proj1 (rate_range i R)) as Pr.
  assert (T : forall t, (1 <= t)%Z ->
    generation_at (with_degradation i d2) t
      / discount_factor_at (with_degradation i d2) t
    <= generation_at i t / discount_factor_at i t
    /\ ((2 <= t)%Z ->
        generation_at (with_degradation i d2) t
          / discount_factor_at (with_degradation i d2) t
        < generation_at i t / discount_factor_at i t)).
  { intros t Ht.
    change (discount_factor_at (with_degradation i d2) t)
      with (discount_factor_at i t).
    pose proof (discount_factor_pos i t Pr) as Pd.
    destruct (generation_at_degraded i d2 t R L U Ht) as [Le Lt].
    assert (Pi : 0 < / discount_factor_at i t)
      by now apply Qinv_lt_0_compat.
    unfold Qdiv. split.
    - apply Qmult_le_compat_r; [exact Le | lra].
    - intros H2. apply Qmult_lt_compat_r; [exact Pi | exact (Lt H2)]. }
  assert (A : Forall (fun t =>
      generation_at (with_degradation i d2) t
        / discount_factor_at (with_degradation i d2) t
      <= generation_at i t / discount_factor_at i t) (years_of i)).
  { apply Forall_forall. intros t Ht.
    apply in_years_of in Ht. apply T. lia. }
  split; [now apply Qsum_le|]. split.
  - intros H2. apply Qsum_le_lt; [exact A|].
    apply Exists_exists. exists 2%Z. split.
    + apply in_years_of. lia.
    + apply T; lia.
  - intros H1. unfold years_of, py_range. rewrite H1. cbn [seqZ Qsum].
    change (discount_factor_at (with_degradation i d2) 1)
      with (discount_factor_at i 1).
    unfold generation_at.
    cbn [with_degradation annual_generation_mwh degradation_rate].
    change (1 - 1)%Z with 0%Z. cbn [Qpower]. reflexivity.
Qed.

Lemma npv_costs_with_degradation (i : LCOEInput) (d : Q) :
  npv_costs_of (with_degradation i d) = npv_costs_of i.
Proof. reflexivity. Qed.

Lemma div_le_div (x d1 d2 : Q) :
  0 <= x -> 0 < d1 -> d1 <= d2 -> x / d2 <= x / d1.
Proof.
  intros Px P1 L. assert (P2 : 0 < d2) by lra.
  apply Qle_shift_div_l; [exact P1|].
  assert (E : x / d2 * d1 == x * (d1 / d2)) by (field; lra).
  rewrite E.
  assert (d1 / d2 <= 1) by (apply Qle_shift_div_r; lra).
  nra.
Qed.

(** X10.  Take two validated parameter sets that differ in the degradation
    rate only.  The reported [lcoe_usd_per_mwh] is not lower at the higher
    rate; before rounding the levelized cost is strictly higher once the
    project lives two years or more, and with a single year the two reports
    are equal, degradation starting in the second year. *)
Theorem lcoe_increases_with_degradation
    (d1 d2 : gmap string pyval) (p1 p2 : LCOEInput) :
  validate_input d1 = inr p1 -> validate_input d2 = inr p2 ->
  p2 = with_degradation p1 (degradation_rate p2) ->
  numeric_or_absent (capacity_mw p1) ->
  degradation_rate p1 < degradation_rate p2 ->
  exists ra rb,
    calculate_lcoe p1 = Ok ra /\ calculate_lcoe p2 = Ok rb
    /\ lcoe_usd_per_mwh ra <= lcoe_usd_per_mwh rb
    /\ ((2 <= project_lifetime_years p1)%Z ->
        levelized_cost p1 < levelized_cost p2)
    /\ (project_lifetime_years p1 = 1%Z ->
        lcoe_usd_per_mwh ra = lcoe_usd_per_mwh rb).
Proof.
  intros V1 V2 S T L.
  apply validated_in_range in V1 as R1. apply validated_in_range in V2 as R2.
  pose proof (proj2 (degradation_range p2 R2)) as U.
  destruct (npv_generation_degraded p1 (degradation_rate p2) R1 L U)
    as (Le & Lt & Eq).
  rewrite <- S in Le, Lt, Eq.
  pose proof (npv_generation_pos p1 R1) as P1.
  pose proof (npv_generation_pos p2 R2) as P2.
  pose proof (npv_costs_pos p1 R1) as C1.
  assert (C : npv_costs_of p2 = npv_costs_of p1)
    by (rewrite S; apply npv_costs_with_degradation).
  assert (T2 : numeric_or_absent (capacity_mw p2)) by now rewrite S.
  destruct (capacity_factor_of_typed p1 R1 T) as [cf1 CF1].
  destruct (capacity_factor_of_typed p2 R2 T2) as [cf2 CF2].
  destruct (calculate_lcoe_ok p1 cf1 R1 CF1) as (ra & Ea & La & _).
  destruct (calculate_lcoe_ok p2 cf2 R2 CF2) as (rb & Eb & Lb & _).
  exists ra, rb. split; [exact Ea|]. split; [exact Eb|].
  rewrite La, Lb. unfold levelized_cost. rewrite C. split; [|split].
  - apply py_round_mono, div_le_div; lra.
  - intros H2. apply div_lt_div; [exact C1 | exact P2 | exact (Lt H2)].
  - intros H1. apply py_round_proper. now rewrite (Eq H1).
Qed.

Lemma lcoe_increases_with_degradation_witness :
  exists ra rb,
    calculate_lcoe (validated (degrading_project (1 # 100))) = Ok ra
    /\ calculate_lcoe (validated (degrading_project (5 # 100))) = Ok rb
    /\ lcoe_usd_per_mwh ra <= lcoe_usd_per_mwh rb.
Proof.
  destruct (lcoe_increases_with_degradation
              (degrading_project (1 # 100)) (degrading_project (5 # 100))
              (validated (degrading_project (1 # 100)))
              (validated (degrading_project (5 # 100))))
    as (ra & rb & Ea & Eb & Le & _);
    [ reflexivity | reflexivity | reflexivity | left; reflexivity
    | reflexivity | ].
  exists ra, rb. auto.
Defined.

Lemma npv_costs_with_capex (i : LCOEInput) (c : Q) :
  npv_costs_of (with_capex i c) == c + (npv_costs_of i - capex_usd i).
Proof.
  change (npv_costs_of (with_capex i c))
    with (c + Qsum (fun t => cost_at i t / discount_factor_at i t)
                   (years_of i)).
  unfold npv_costs_of. ring.
Qed.

(** X11.  Take two validated parameter sets that differ in the capex only.
    Before rounding, the levelized cost rises by the capex difference over
    the net present generation, so it is strictly higher at the higher
    capex; the reported [lcoe_usd_per_mwh] is not lower. *)
Theorem lcoe_linear_in_capex
    (d1 d2 : gmap string pyval) (p1 p2 : LCOEInput) :
  validate_input d1 = inr p1 -> validate_input d2 = inr p2 ->
  p2 = with_capex p1 (capex_usd p2) ->
  numeric_or_absent (capacity_mw p1) ->
  capex_usd p1 < capex_usd p2 ->
  levelized_cost p2 - levelized_cost p1
  == (capex_usd p2 - capex_usd p1) / npv_generation_of p1
  /\ levelized_cost p1 < levelized_cost p2
  /\ exists ra rb,
       calculate_lcoe p1 = Ok ra /\ calculate_lcoe p2 = Ok rb
       /\ lcoe_usd_per_mwh ra <= lcoe_usd_per_mwh rb.
Proof.
  intros V1 V2 S T L.
  apply validated_in_range in V1 as R1. apply validated_in_range in V2 as R2.
  pose proof (npv_generation_pos p1 R1) as P1.
  assert (G : npv_generation_of p2 = npv_generation_of p1)
    by (rewrite S; reflexivity).
  assert (C : npv_costs_of p2
              == capex_usd p2 + (npv_costs_of p1 - capex_usd p1)).
  { rewrite S at 1. apply npv_costs_with_capex. }
  assert (D : levelized_cost p2 - levelized_cost p1
              == (capex_usd p2 - capex_usd p1) / npv_generation_of p1).
  { unfold levelized_cost. rewrite G, C. field. lra. }
  assert (P : 0 < (capex_usd p2 - capex_usd p1) / npv_generation_of p1)
    by (apply Qlt_shift_div_l; lra).
  split; [exact D|]. split; [lra|].
  assert (T2 : numeric_or_absent (capacity_mw p2)) by now rewrite S.
  destruct (capacity_factor_of_typed p1 R1 T) as [cf1 CF1].
  destruct (capacity_factor_of_typed p2 R2 T2) as [cf2 CF2].
  destruct (calculate_lcoe_ok p1 cf1 R1 CF1) as (ra & Ea & La & _).
  destruct (calculate_lcoe_ok p2 cf2 R2 CF2) as (rb & Eb & Lb & _).
  exists ra, rb. repeat split; [exact Ea | exact Eb |].
  rewrite La, Lb. apply py_round_mono. lra.
Qed.

Lemma lcoe_linear_in_capex_witness :
  exists ra rb,
    calculate_lcoe (validated (priced_project 1000)) = Ok ra
    /\ calculate_lcoe (validated (priced_project 2500)) = Ok rb
    /\ lcoe_usd_per_mwh ra <= lcoe_usd_per_mwh rb.
Proof.
  destruct (lcoe_linear_in_capex
              (priced_project 1000) (priced_project 2500)
              (validated (priced_project 1000))
              (validated (priced_project 2500)))
    as (_ & _ & W);
    [ reflexivity | reflexivity | reflexivity | left; reflexivity
    | reflexivity | exact W ].
Defined.

End EngineTotals.

Section EngineScale.

Import CalculateLcoe ValidatorSpec EngineSpec Reading Samples MoreSamples.




(** X25.  On a validated parameter set the reported [lcoe_usd_per_mwh] is
    never negative; it is 0.00 only when the levelized cost is at most half
    a cent, and at least 0.01 as soon as the levelized cost exceeds half a
    cent. *)
Theorem reported_lcoe_floor (data : gmap string pyval) (p : LCOEInput)
    (r : LCOEResult) :
  validate_input data = inr p -> calculate_lcoe p = Ok r ->
  0 < levelized_cost p
  /\ 0 <= lcoe_usd_per_mwh r
  /\ (lcoe_usd_per_mwh r == 0 -> levelized_cost p <= 1 # 200)
  /\ (1 # 200 < levelized_cost p -> 1 # 100 <= lcoe_usd_per_mwh r).
Proof.
  intros V E. apply validated_in_range in V as R.
  assert (P : 0 < levelized_cost p).
  { unfold levelized_cost. apply Qlt_shift_div_l.
    - now apply npv_generation_pos.
    - pose proof (npv_costs_pos p R). lra. }
  assert (L : lcoe_usd_per_mwh r = py_round (levelized_cost p) 2).
  { destruct (capacity_factor_of p) as [cf|x] eqn:CF.
    - destruct (calculate_lcoe_ok p cf R CF) as (r' & E' & L & _).
      rewrite E in E'. injection E' as <-. exact L.
    - unfold calculate_lcoe in E.
      destruct (year_loop p); cbn [rbind] in E; [|discriminate E].
      destruct (lcoe_per_mwh_of _); cbn [rbind] in E; [|discriminate E].
      destruct (py_div _ _); cbn [rbind] in E; [|discriminate E].
      rewrite CF in E. discriminate E. }
  rewrite L. pose proof (py_round_error_2 (levelized_cost p)) as B.
  apply Qabs_Qle_condition in B.
  assert (N : 0 <= py_round (levelized_cost p) 2)
    by (apply py_round_nonneg; lra).
  split; [exact P|]. split; [exact N|]. split.
  - intros Z. lra.
  - intros H. apply py_round_cent. lra.
Qed.

Lemma reported_lcoe_floor_witness :
  exists r,
    calculate_lcoe (validated (cheap_project 0)) = Ok r
    /\ lcoe_usd_per_mwh r == 0
    /\ levelized_cost (validated (cheap_project 0)) <= 1 # 200.
Proof.
  destruct (calculate_lcoe (validated (cheap_project 0))) as [r|] eqn:E;
    [|vm_compute in E; discriminate E].
  destruct (reported_lcoe_floor (cheap_project 0) _ r eq_refl E)
    as (_ & _ & Z & _).
  assert (Z0 : lcoe_usd_per_mwh r == 0).
  { vm_compute in E. injection E as <-. reflexivity. }
  exists r. split; [reflexivity|]. split; [exact Z0 | exact (Z Z0)].
Defined.

End EngineScale.

(** ** More on the comparator *)

Section ComparatorSummary.

Import CompareProjects ComparatorSpec Reporting Samples.

Lemma mapM_length {A B : Type} (f : A -> result B) (l : list A) (l' : list B) :
  mapM f l = Ok l' -> length l' = length l.
Proof.
  intros H. apply mapM_Forall2 in H. symmetry. exact (Forall2_length _ _ _ H).
Qed.

Lemma successes_failures_length (analyzed : list Analyzed) :
  (length (successes analyzed) + length (failures analyzed))%nat
  = length analyzed.
Proof.
  unfold successes, failures.
  induction analyzed as [|[p|f] l IH]; cbn [omap list_omap length]; lia.
Qed.

(** Everything a returned comparison was computed from. *)
Lemma compare_projects_parts (projects : list (gmap string pyval))
    (analyzed : list Analyzed) (summary : Summary)
    (techs : list (pyval * TechSummary)) (ranked : list Ranked)
    (recs : list Recommendation) (failed : option (list FailedProject)) :
  mapM analyze_project projects = Ok analyzed ->
  compare_projects projects = Ok (Compared summary techs ranked recs failed) ->
  exists best avg mn mx groups,
    head (py_sorted lcoe_usd_per_mwh (successes analyzed)) = Some best
    /\ avg == py_sum (map lcoe_usd_per_mwh (successes analyzed))
              / inject_Z (Z.of_nat (length (successes analyzed)))
    /\ py_min (map lcoe_usd_per_mwh (successes analyzed)) = Ok mn
    /\ py_max (map lcoe_usd_per_mwh (successes analyzed)) = Ok mx
    /\ mapiM (relative_metrics (lcoe_usd_per_mwh best) avg) 0
         (py_sorted lcoe_usd_per_mwh (successes analyzed)) = Ok ranked
    /\ group_by_technology (successes analyzed) = Ok groups
    /\ mapM (fun g => let* ts := summarize_technology (snd g) in
                      Ok (fst g, ts)) groups = Ok techs
    /\ generate_recommendations ranked techs = Ok recs
    /\ summary
       = {| total_projects := length projects;
            analyzed_successfully := length (successes analyzed);
            failed_to_analyze := length (failures analyzed);
            best_source := source best;
            best_technology := technology best;
            best_lcoe_usd_per_mwh := lcoe_usd_per_mwh best;
            statistics :=
              {| stat_avg_lcoe := py_round avg 2;
                 stat_min_lcoe := py_round mn 2;
                 stat_max_lcoe := py_round mx 2;
                 lcoe_spread_usd_per_mwh := py_round (mx - mn) 2;
                 lcoe_spread_pct := pct_vs mn mx |} |}.
Proof.
  intros A. unfold compare_projects. rewrite A. cbn [rbind].
  destruct (successes analyzed) as [|s0 rest] eqn:Es; [discriminate|].
  rewrite <- Es.
  destruct (py_sorted lcoe_usd_per_mwh (successes analyzed))
    as [|best tl] eqn:Esort; cbn [rbind]; [discriminate|].
  rewrite <- Esort.
  destruct (py_div _ _) as [avg|] eqn:Eavg; cbn [rbind]; [|discriminate].
  destruct (py_min _) as [mn|] eqn:Emn; cbn [rbind]; [|discriminate].
  destruct (py_max _) as [mx|] eqn:Emx; cbn [rbind]; [|discriminate].
  destruct (mapiM _ _ _) as [rk|] eqn:Erk; cbn [rbind]; [|discriminate].
  destruct (group_by_technology _) as [gs|] eqn:Egs; cbn [rbind];
    [|discriminate].
  destruct (mapM _ gs) as [ts|] eqn:Ets; cbn [rbind]; [|discriminate].
  destruct (generate_recommendations rk ts) as [rc|] eqn:Erc; cbn [rbind];
    [|discriminate].
  rewrite guarded_pct. cbn [rbind].
  intros [= <- <- <- <- <-].
  exists best, avg, mn, mx, gs.
  rewrite Esort. split; [reflexivity|]. rewrite <- Esort.
  split.
  { rewrite length_map in Eavg.
    assert (P : 0 < inject_Z (Z.of_nat (length (successes analyzed)))).
    { apply length_pos_Q. rewrite Es. discriminate. }
    rewrite py_div_ok in Eavg by lra. injection Eavg as <-. reflexivity. }
  repeat (split; [assumption || reflexivity|]). reflexivity.
Qed.

Lemma compare_projects_analyzed (projects : list (gmap string pyval))
    (c : Comparison) :
  compare_projects projects = Ok c ->
  exists analyzed, mapM analyze_project projects = Ok analyzed.
Proof.
  unfold compare_projects.
  destruct (mapM analyze_project projects) as [analyzed|]; [eauto|].
  discriminate.
Qed.

(** X12.  In a comparison that is returned the counts add up: the total is
    the number of input projects, successes and failures make up the total,
    there is at least one success, the rankings hold one entry per success,
    and the failure list is absent exactly when nothing failed and
    otherwise holds one entry per failure. *)
Theorem comparison_counts (projects : list (gmap string pyval))
    (summary : Summary) (techs : list (pyval * TechSummary))
    (ranked : list Ranked) (recs : list Recommendation)
    (failed : option (list FailedProject)) :
  compare_projects projects = Ok (Compared summary techs ranked recs failed) ->
  total_projects summary = length projects
  /\ (analyzed_successfully summary + failed_to_analyze summary)%nat
     = total_projects summary
  /\ (1 <= analyzed_successfully summary)%nat
  /\ length ranked = analyzed_successfully summary
  /\ (failed = None <-> failed_to_analyze summary = 0%nat)
  /\ (forall fs, failed = Some fs -> length fs = failed_to_analyze summary).
Proof.
  intros E. destruct (compare_projects_analyzed _ _ E) as [analyzed A].
  destruct (compare_projects_inv _ _ _ _ _ _ _ A E) as (N & F & _).
  destruct (compare_projects_parts _ _ _ _ _ _ _ A E)
    as (best & avg & mn & mx & gs & _ & _ & _ & _ & Erk & _ & _ & _ & ->).
  cbn [total_projects analyzed_successfully failed_to_analyze].
  pose proof (successes_failures_length analyzed) as L.
  rewrite (mapM_length _ _ _ A) in L.
  destruct (mapiM_relative (lcoe_usd_per_mwh best) avg
              (py_sorted lcoe_usd_per_mwh (successes analyzed)) 0)
    as (rk & E' & M & _).
  rewrite Erk in E'. injection E' as <-.
  apply (f_equal length) in M.
  rewrite length_map, (py_sorted_perm lcoe_usd_per_mwh) in M.
  split; [reflexivity|]. split; [exact L|]. split.
  { destruct (successes analyzed); [congruence | cbn; lia]. }
  split; [exact M|]. rewrite F.
  destruct (failures analyzed) as [|f fs]; cbn [length].
  - split; [tauto|]. intros fs H. discriminate H.
  - split; [split; discriminate|]. intros fs' [= <-]. reflexivity.
Qed.

Lemma comparison_counts_witness :
  exists summary techs ranked recs failed,
    compare_projects [p70; unusable; p40]
    = Ok (Compared summary techs ranked recs failed)
    /\ total_projects summary = 3%nat
    /\ length ranked = analyzed_successfully summary.
Proof.
  destruct (compare_projects [p70; unusable; p40]) as [[c m f|s t rk rc f]|]
    eqn:E; try (vm_compute in E; discriminate E).
  exists s, t, rk, rc, f. split; [reflexivity|].
  destruct (comparison_counts _ s t rk rc f E) as (T & _ & _ & L & _).
  split; [exact T | exact L].
Defined.

End ComparatorSummary.

Section ComparatorStatistics.

Import CompareProjects ComparatorSpec Reporting Samples.

Lemma round_half_even_inject (z : Z) : round_half_even (inject_Z z) = z.
Proof.
  unfold round_half_even. rewrite Qfloor_Z.
  assert (C : Qcompare (inject_Z z - inject_Z z) (1 # 2) = Lt).
  { apply (proj1 (Qlt_alt _ _)). generalize (inject_Z z). intros w. lra. }
  now rewrite C.
Qed.

(** A rounded number is a whole number of units of its last decimal. *)
Lemma py_round_scaled (x : Q) (n : nat) :
  py_round x n * inject_Z (10 ^ Z.of_nat n)
  == inject_Z (round_half_even (x * inject_Z (10 ^ Z.of_nat n))).
Proof.
  pose proof (scale_pos n) as P. rewrite py_round_value. field. lra.
Qed.

(** Rounding leaves such a number as it is. *)
Lemma py_round_fixed (q : Q) (z : Z) (n : nat) :
  q * inject_Z (10 ^ Z.of_nat n) == inject_Z z -> py_round q n == q.
Proof.
  intros H. pose proof (scale_pos n) as P.
  rewrite py_round_value, (round_half_even_proper _ _ H),
    round_half_even_inject, <- H.
  field. lra.
Qed.

(** Rounding a rounded number again changes nothing. *)
Lemma py_round_idempotent (x : Q) (n : nat) :
  py_round (py_round x n) n = py_round x n.
Proof.
  unfold py_round at 1 3. apply Qred_complete.
  now rewrite (round_half_even_proper _ _ (py_round_scaled x n)),
    round_half_even_inject.
Qed.

(** The difference of two rounded numbers needs no rounding. *)
Lemma py_round_difference (x y : Q) (n : nat) :
  py_round (py_round x n - py_round y n) n == py_round x n - py_round y n.
Proof.
  apply (py_round_fixed _
           (round_half_even (x * inject_Z (10 ^ Z.of_nat n))
            - round_half_even (y * inject_Z (10 ^ Z.of_nat n)))).
  unfold Z.sub. rewrite inject_Z_plus, inject_Z_opp,
    <- !py_round_scaled.
  ring.
Qed.

Lemma fold_min_spec (l : list Q) (x : Q) :
  let m := fold_left (fun m y => if Qltb y m then y else m) l x in
  m ∈ x :: l /\ Forall (fun y => m <= y) (x :: l).
Proof.
  revert x. induction l as [|y l IH]; intros x; cbn [fold_left].
  - split; [left | repeat constructor; lra].
  - destruct (Qltb y x) eqn:B.
    + apply Qltb_lt in B. destruct (IH y) as [I F]. split.
      * right. exact I.
      * inversion F as [|? ? Fy Fl]; subst.
        constructor; [lra|]. constructor; assumption.
    + apply Qltb_ge in B. destruct (IH x) as [I F]. split.
      * apply elem_of_cons in I as [-> | I]; [left | right; right; exact I].
      * inversion F as [|? ? Fx Fl]; subst.
        constructor; [exact Fx|]. constructor; [lra | exact Fl].
Qed.

Lemma fold_max_spec (l : list Q) (x : Q) :
  let m := fold_left (fun m y => if Qltb m y then y else m) l x in
  m ∈ x :: l /\ Forall (fun y => y <= m) (x :: l).
Proof.
  revert x. induction l as [|y l IH]; intros x; cbn [fold_left].
  - split; [left | repeat constructor; lra].
  - destruct (Qltb x y) eqn:B.
    + apply Qltb_lt in B. destruct (IH y) as [I F]. split.
      * right. exact I.
      * inversion F as [|? ? Fy Fl]; subst.
        constructor; [lra|]. constructor; assumption.
    + apply Qltb_ge in B. destruct (IH x) as [I F]. split.
      * apply elem_of_cons in I as [-> | I]; [left | right; right; exact I].
      * inversion F as [|? ? Fx Fl]; subst.
        constructor; [exact Fx|]. constructor; [lra | exact Fl].
Qed.

(** [min] and [max] return an element that bounds the others. *)
Lemma py_min_spec (l : list Q) (m : Q) :
  py_min l = Ok m -> m ∈ l /\ Forall (fun y => m <= y) l.
Proof.
  destruct l as [|x l]; [discriminate|]. intros [= <-].
  apply fold_min_spec.
Qed.

Lemma py_max_spec (l : list Q) (m : Q) :
  py_max l = Ok m -> m ∈ l /\ Forall (fun y => y <= m) l.
Proof.
  destruct l as [|x l]; [discriminate|]. intros [= <-].
  apply fold_max_spec.
Qed.

Lemma py_sum_upper (c : Q) (l : list Q) :
  Forall (fun x => x <= c) l ->
  py_sum l <= c * inject_Z (Z.of_nat (length l)).
Proof.
  intros H. induction H as [|x l Hx _ IH].
  - change (0 <= c * 0). lra.
  - rewrite py_sum_cons. cbn [length]. rewrite Nat2Z.inj_succ.
    unfold Z.succ. rewrite inject_Z_plus. change (inject_Z 1) with 1. lra.
Qed.

(** The head of an ascending list has the least key. *)
Lemma ascending_head {A : Type} (key : A -> Q) (a : A) (l : list A) :
  ascending key (a :: l) -> Forall (fun b => key a <= key b) (a :: l).
Proof.
  intros H. inversion H as [|? ? _ F]; subst.
  constructor; [lra | exact F].
Qed.

Lemma sorted_head_least {A : Type} (key : A -> Q) (l : list A) (best : A) :
  head (py_sorted key l) = Some best ->
  best ∈ l /\ Forall (fun b => key best <= key b) l.
Proof.
  intros H. pose proof (py_sorted_perm key l) as P.
  pose proof (py_sorted_ascending key l) as S.
  destruct (py_sorted key l) as [|b tl]; [discriminate|].
  injection H as ->. split.
  - rewrite <- P. left.
  - rewrite <- P. now apply ascending_head.
Qed.

(** X13.  In a comparison that is returned the best project of the summary
    is the first of the rankings; no ranked project has a lower LCOE; the
    minimum of the statistics is the best LCOE, no ranked project exceeds
    the maximum, the average lies between the two and the spread is their
    difference. *)
Theorem best_project_is_cheapest (projects : list (gmap string pyval))
    (summary : Summary) (techs : list (pyval * TechSummary))
    (ranked : list Ranked) (recs : list Recommendation)
    (failed : option (list FailedProject)) :
  compare_projects projects = Ok (Compared summary techs ranked recs failed) ->
  let stats := statistics summary in
  (exists first,
     head ranked = Some first
     /\ best_source summary = source (project first)
     /\ best_technology summary = technology (project first)
     /\ best_lcoe_usd_per_mwh summary = lcoe_usd_per_mwh (project first))
  /\ (forall r, r ∈ ranked ->
        best_lcoe_usd_per_mwh summary <= lcoe_usd_per_mwh (project r)
        /\ lcoe_usd_per_mwh (project r) <= stat_max_lcoe stats)
  /\ stat_min_lcoe stats = best_lcoe_usd_per_mwh summary
  /\ stat_min_lcoe stats <= stat_avg_lcoe stats
  /\ stat_avg_lcoe stats <= stat_max_lcoe stats
  /\ lcoe_spread_usd_per_mwh stats == stat_max_lcoe stats - stat_min_lcoe stats.
Proof.
  intros E. destruct (compare_projects_analyzed _ _ E) as [analyzed A].
  destruct (compare_projects_inv _ _ _ _ _ _ _ A E) as (N & _).
  destruct (compare_projects_parts _ _ _ _ _ _ _ A E)
    as (best & avg & mn & mx & gs & Hb & Eavg & Emn & Emx & Erk & _ & _ & _ & ->).
  cbn [statistics best_source best_technology best_lcoe_usd_per_mwh
       stat_min_lcoe stat_max_lcoe stat_avg_lcoe lcoe_spread_usd_per_mwh].
  pose proof (successes_analyzed _ _ A) as Rnd.
  set (successful := successes analyzed) in *.
  destruct (mapiM_relative (lcoe_usd_per_mwh best) avg
              (py_sorted lcoe_usd_per_mwh successful) 0)
    as (rk & E' & M & _).
  rewrite Erk in E'. injection E' as <-.
  destruct (sorted_head_least lcoe_usd_per_mwh successful best Hb)
    as [Ib Lb].
  destruct (py_min_spec _ _ Emn) as [Imn Lmn].
  destruct (py_max_spec _ _ Emx) as [Imx Lmx].
  rewrite Forall_map in Lmn, Lmx.
  apply list_elem_of_fmap in Imn as (pmn & -> & Ipmn).
  apply list_elem_of_fmap in Imx as (pmx & -> & Ipmx).
  rewrite Forall_forall in Lb, Lmn, Lmx, Rnd.
  assert (Rounded : forall p, p ∈ successful ->
            py_round (lcoe_usd_per_mwh p) 2 = lcoe_usd_per_mwh p).
  { intros p Hp. destruct (Rnd p Hp) as [x ->]. apply py_round_idempotent. }
  assert (Emin : lcoe_usd_per_mwh pmn == lcoe_usd_per_mwh best).
  { apply Qle_antisym; [apply Lmn, Ib | apply Lb, Ipmn]. }
  assert (Smin : py_round (lcoe_usd_per_mwh pmn) 2 = lcoe_usd_per_mwh best).
  { rewrite (py_round_proper _ _ 2 Emin). now apply Rounded. }
  assert (Smax : py_round (lcoe_usd_per_mwh pmx) 2 = lcoe_usd_per_mwh pmx)
    by now apply Rounded.
  assert (P : 0 < inject_Z (Z.of_nat (length successful)))
    by now apply length_pos_Q.
  assert (Lo : lcoe_usd_per_mwh pmn <= avg).
  { rewrite Eavg. apply Qle_shift_div_l; [exact P|].
    rewrite <- (length_map lcoe_usd_per_mwh). apply py_sum_lower.
    apply Forall_map, Forall_forall. exact Lmn. }
  assert (Hi : avg <= lcoe_usd_per_mwh pmx).
  { rewrite Eavg. apply Qle_shift_div_r; [exact P|].
    rewrite <- (length_map lcoe_usd_per_mwh). apply py_sum_upper.
    apply Forall_map, Forall_forall. exact Lmx. }
  split; [|split; [|split; [|split; [|split]]]].
  - destruct ranked as [|r0 rest]; [cbn in M; rewrite <- M in Hb; discriminate|].
    exists r0. split; [reflexivity|].
    rewrite <- M in Hb. cbn in Hb. injection Hb as ->. auto.
  - intros r Hr.
    assert (Ip : project r ∈ successful).
    { rewrite <- (py_sorted_perm lcoe_usd_per_mwh successful), <- M.
      now apply list_elem_of_fmap_2. }
    split; [apply Lb, Ip|]. rewrite Smax. apply Lmx, Ip.
  - exact Smin.
  - now apply py_round_mono.
  - now apply py_round_mono.
  - rewrite Smin, Smax.
    assert (D : lcoe_usd_per_mwh pmx - lcoe_usd_per_mwh pmn
                == lcoe_usd_per_mwh pmx - lcoe_usd_per_mwh best)
      by now rewrite Emin.
    rewrite (py_round_proper _ _ 2 D).
    destruct (Rnd pmx Ipmx) as [x Ex]. destruct (Rnd best Ib) as [y Ey].
    rewrite Ex, Ey. apply py_round_difference.
Qed.

Lemma best_project_is_cheapest_witness :
  exists summary techs ranked recs failed,
    compare_projects [p70; unusable; p40]
    = Ok (Compared summary techs ranked recs failed)
    /\ stat_min_lcoe (statistics summary) = best_lcoe_usd_per_mwh summary.
Proof.
  destruct (compare_projects [p70; unusable; p40]) as [[c m f|s t rk rc f]|]
    eqn:E; try (vm_compute in E; discriminate E).
  exists s, t, rk, rc, f. split; [reflexivity|].
  now destruct (best_project_is_cheapest _ s t rk rc f E) as (_ & _ & M & _).
Defined.

Lemma ascending_lookup {A : Type} (key : A -> Q) (l : list A) :
  ascending key l ->
  forall i j a b,
    l !! i = Some a -> l !! j = Some b -> (i < j)%nat -> key a <= key b.
Proof.
  intros H. induction H as [|x l _ IH F]; intros i j a b Hi Hj Lt.
  - discriminate Hi.
  - destruct j as [|j]; [lia|]. cbn in Hj. destruct i as [|i].
    + injection Hi as <-. rewrite Forall_forall in F.
      apply F. now apply list_elem_of_lookup_2 in Hj.
    + cbn in Hi. apply (IH i j); [assumption | assumption | lia].
Qed.

Lemma pct_vs_mono (reference x y : Q) :
  x <= y -> pct_vs reference x <= pct_vs reference y.
Proof.
  intros L. unfold pct_vs. destruct (Qltb 0 reference) eqn:B; [|lra].
  apply Qltb_lt in B. apply py_round_mono.
  apply Qmult_le_compat_r; [|lra].
  apply Qmult_le_compat_r; [lra|].
  apply Qlt_le_weak, Qinv_lt_0_compat, B.
Qed.

Lemma pct_vs_self (reference x : Q) : x == reference -> pct_vs reference x = 0.
Proof.
  intros E. unfold pct_vs. destruct (Qltb 0 reference) eqn:B; [|reflexivity].
  apply Qltb_lt in B. rewrite <- (py_round_zero 1). apply py_round_proper.
  rewrite E. field. lra.
Qed.

(** X14.  In a comparison that is returned, [lcoe_vs_best_pct] is 0 for
    the first ranked project, never negative, and never decreases down the
    ranking. *)
Theorem delta_vs_best_grows (projects : list (gmap string pyval))
    (summary : Summary) (techs : list (pyval * TechSummary))
    (ranked : list Ranked) (recs : list Recommendation)
    (failed : option (list FailedProject)) :
  compare_projects projects = Ok (Compared summary techs ranked recs failed) ->
  (exists first, head ranked = Some first /\ lcoe_vs_best_pct first = 0)
  /\ (forall r, r ∈ ranked -> 0 <= lcoe_vs_best_pct r)
  /\ (forall i j ri rj,
        ranked !! i = Some ri -> ranked !! j = Some rj -> (i <= j)%nat ->
        lcoe_vs_best_pct ri <= lcoe_vs_best_pct rj).
Proof.
  intros E. destruct (compare_projects_analyzed _ _ E) as [analyzed A].
  destruct (compare_projects_parts _ _ _ _ _ _ _ A E)
    as (best & avg & mn & mx & gs & Hb & _ & _ & _ & Erk & _).
  set (successful := successes analyzed) in *.
  destruct (mapiM_relative (lcoe_usd_per_mwh best) avg
              (py_sorted lcoe_usd_per_mwh successful) 0)
    as (rk & E' & M & K).
  rewrite Erk in E'. injection E' as <-.
  pose proof (py_sorted_ascending lcoe_usd_per_mwh successful) as Asc.
  rewrite <- M in Asc, Hb.
  assert (V : forall k r, ranked !! k = Some r ->
            lcoe_vs_best_pct r
            = pct_vs (lcoe_usd_per_mwh best) (lcoe_usd_per_mwh (project r)))
    by (intros k r H; now destruct (K k r H)).
  destruct ranked as [|r0 rest]; [discriminate Hb|].
  cbn in Hb. injection Hb as Hb.
  assert (Z0 : lcoe_vs_best_pct r0 = 0).
  { rewrite (V 0%nat r0 eq_refl). apply pct_vs_self. now rewrite Hb. }
  assert (Mono : forall i j ri rj,
            (r0 :: rest) !! i = Some ri -> (r0 :: rest) !! j = Some rj ->
            (i <= j)%nat -> lcoe_vs_best_pct ri <= lcoe_vs_best_pct rj).
  { intros i j ri rj Hi Hj Le.
    rewrite (V i ri Hi), (V j rj Hj). apply pct_vs_mono.
    destruct (Nat.eq_dec i j) as [->|Ne].
    - rewrite Hi in Hj. injection Hj as ->. lra.
    - assert (Lt : (i < j)%nat) by lia.
      apply (ascending_lookup _ _ Asc i j (project ri) (project rj)).
      + now rewrite list_lookup_fmap, Hi.
      + now rewrite list_lookup_fmap, Hj.
      + exact Lt. }
  split; [exists r0; split; [reflexivity | exact Z0]|]. split.
  - intros r Hr. apply list_elem_of_lookup in Hr as [k Hk].
    rewrite <- Z0. apply (Mono 0%nat k r0 r eq_refl Hk). lia.
  - exact Mono.
Qed.

Lemma delta_vs_best_grows_witness :
  exists summary techs ranked recs failed,
    compare_projects [p70; unusable; p40]
    = Ok (Compared summary techs ranked recs failed)
    /\ forall r, r ∈ ranked -> 0 <= lcoe_vs_best_pct r.
Proof.
  destruct (compare_projects [p70; unusable; p40]) as [[c m f|s t rk rc f]|]
    eqn:E; try (vm_compute in E; discriminate E).
  exists s, t, rk, rc, f. split; [reflexivity|].
  now destruct (delta_vs_best_grows _ s t rk rc f E) as (_ & N & _).
Defined.

End ComparatorStatistics.

Section ComparatorFaults.

Import CompareProjects ComparatorSpec Reporting Samples.

(** X15.  When every project that validates has an LCOE reported as 0.00
    (and a technology label usable as a dictionary key), [compare_projects]
    returns nothing: the share by which the best project beats the worst is
    divided by the worst LCOE, and the division fault escapes.  A batch of
    one such project is enough. *)
Theorem free_energy_division_fault (projects : list (gmap string pyval))
    (analyzed : list Analyzed) :
  mapM analyze_project projects = Ok analyzed ->
  successes analyzed <> [] ->
  Forall (fun p => lcoe_usd_per_mwh p == 0
                   /\ hashable (technology p) = true) (successes analyzed) ->
  compare_projects projects = Raise ZeroDivisionError.
Proof.
  intros A N Z. unfold compare_projects. rewrite A. cbn [rbind].
  set (successful := successes analyzed) in *.
  destruct successful as [|s0 rest] eqn:Es; [congruence|].
  rewrite <- Es in *. clear Es s0 rest.
  pose proof (py_sorted_perm lcoe_usd_per_mwh successful) as Perm.
  destruct (py_sorted lcoe_usd_per_mwh successful) as [|best tl] eqn:Esort.
  { apply Permutation_nil_l in Perm. congruence. }
  rewrite <- Esort in *. cbn [rbind].
  assert (N' : map lcoe_usd_per_mwh successful <> []).
  { destruct successful; [congruence | discriminate]. }
  rewrite py_div_ok by (pose proof (length_pos_Q _ N'); lra). cbn [rbind].
  destruct (py_min_ok _ N') as [mn ->]. destruct (py_max_ok _ N') as [mx ->].
  cbn [rbind].
  match goal with
  | |- context [mapiM (relative_metrics ?b ?a) 0%nat ?l] =>
      destruct (mapiM_relative b a l 0%nat) as (ranked & -> & M & _)
  end.
  cbn [rbind].
  destruct (group_by_technology_ok
              (fun p => 0 <= lcoe_usd_per_mwh p) successful)
    as (groups & -> & G).
  { eapply Forall_impl; [exact Z|]. now intros p [_ H]. }
  { eapply Forall_impl; [exact Z|]. intros p [H _]. cbn beta. lra. }
  cbn [rbind].
  assert (TS : exists tech_summary,
    mapM (fun g => let* ts := summarize_technology (snd g) in Ok (fst g, ts))
         groups = Ok tech_summary).
  { clear -G. induction G as [|g gs [Ng Fg] _ (tss & E)]; cbn [mapM].
    - exists []. reflexivity.
    - destruct (summarize_technology_ok 0 (snd g) Ng Fg) as (ts & -> & _).
      cbn [rbind]. rewrite E. cbn [rbind]. eauto. }
  destruct TS as (tech_summary & ->). cbn [rbind].
  assert (R : generate_recommendations ranked tech_summary
              = Raise ZeroDivisionError).
  { unfold generate_recommendations.
    destruct ranked as [|r0 rs] eqn:Er.
    { cbn in M. rewrite Esort in M. discriminate M. }
    rewrite <- Er in *.
    assert (W : lcoe_usd_per_mwh (project (List.last ranked r0)) == 0).
    { assert (I : List.last ranked r0 ∈ ranked)
        by (apply last_in; rewrite Er; discriminate).
      assert (I' : project (List.last ranked r0) ∈ successful).
      { rewrite <- Perm, <- M. now apply list_elem_of_fmap_2. }
      rewrite Forall_forall in Z. now destruct (Z _ I'). }
    now rewrite (py_div_zero _ _ W). }
  now rewrite R.
Qed.

Lemma free_energy_division_fault_witness :
  compare_projects [cheap] = Raise ZeroDivisionError.
Proof.
  assert (A : exists analyzed,
    mapM analyze_project [cheap] = Ok analyzed
    /\ successes analyzed <> []
    /\ Forall (fun p => lcoe_usd_per_mwh p == 0
                        /\ hashable (technology p) = true)
              (successes analyzed)).
  { eexists. split; [vm_compute; reflexivity|].
    split; [discriminate|].
    repeat constructor. }
  destruct A as (analyzed & A & N & Z).
  exact (free_energy_division_fault [cheap] analyzed A N Z).
Defined.

Lemma analyze_project_valid (d : gmap string pyval)
    (v : CalculateLcoe.LCOEInput) (a : Analyzed) :
  CalculateLcoe.validate_input (delete "_source" d) = inr v ->
  analyze_project d = Ok a -> exists p, a = Success p.
Proof.
  intros V. unfold analyze_project. rewrite V.
  destruct (CalculateLcoe.calculate_lcoe v) as [res|]; cbn [rbind];
    [|discriminate].
  match goal with
  | |- (let* per_mw := ?m in _) = _ -> _ => destruct m; cbn [rbind]
  end; [|discriminate].
  intros [= <-]. eauto.
Qed.

Lemma failures_exact (projects : list (gmap string pyval))
    (analyzed : list Analyzed) :
  mapM analyze_project projects = Ok analyzed ->
  failures analyzed = invalid_projects projects.
Proof.
  intros H. apply mapM_Forall2 in H. unfold failures, invalid_projects.
  induction H as [|d a ds l Ha _ IH]; [reflexivity|].
  cbn [omap list_omap].
  destruct (CalculateLcoe.validate_input (delete "_source" d)) as [e|v] eqn:V.
  - rewrite (analyze_project_invalid d e V) in Ha. injection Ha as <-.
    now rewrite IH.
  - destruct (analyze_project_valid d v a V Ha) as [p ->]. exact IH.
Qed.

(** X16.  Whatever [compare_projects] answers, its failure list is exactly
    the projects that do not validate, in input order, each with its source
    label, its technology label and the error of its validation: as the
    list of a rejection, which is answered only when that is every project;
    and as the list of a comparison, where it is left out when empty. *)
Theorem failed_projects_exact (projects : list (gmap string pyval))
    (c : Comparison) :
  compare_projects projects = Ok c ->
  match c with
  | Rejected code _ failed =>
      code = "NO_VALID_PROJECTS"%string
      /\ failed = invalid_projects projects
      /\ length failed = length projects
  | Compared _ _ _ _ failed =>
      failed = match invalid_projects projects with
               | [] => None
               | fs => Some fs
               end
  end.
Proof.
  intros E. destruct (compare_projects_analyzed _ _ E) as [analyzed A].
  pose proof (failures_exact _ _ A) as F.
  destruct c as [code msg failed | s t rk rc failed].
  - unfold compare_projects in E. rewrite A in E. cbn [rbind] in E.
    pose proof (successes_failures_length analyzed) as L.
    rewrite (mapM_length _ _ _ A) in L.
    destruct (successes analyzed) as [|s0 rest].
    + injection E as <- _ <-. rewrite <- F. cbn in L. auto.
    + exfalso. revert E.
      repeat match goal with
      | |- (let* _ := ?m in _) = _ -> _ =>
          destruct m; cbn [rbind]; [|discriminate]
      end.
      discriminate.
  - destruct (compare_projects_inv _ _ _ _ _ _ _ A E) as (_ & -> & _).
    rewrite F. now destruct (invalid_projects projects).
Qed.

Lemma failed_projects_exact_witness :
  exists summary techs ranked recs failure,
    compare_projects [p70; unusable; p40]
    = Ok (Compared summary techs ranked recs (Some [failure]))
    /\ failed_source failure = VStr "unusable".
Proof.
  destruct (compare_projects [p70; unusable; p40]) as [c|] eqn:E;
    [|vm_compute in E; discriminate E].
  pose proof (failed_projects_exact _ c E) as F.
  destruct c as [code msg failed | s t rk rc failed];
    [vm_compute in E; discriminate E|].
  exists s, t, rk, rc. eexists. rewrite F. split; reflexivity.
Defined.

End ComparatorFaults.

Section ComparatorGroups.

Import CompareProjects ComparatorSpec Reporting Samples.

Lemma group_add_members (tech : pyval) (proj : ProjectResult)
    (groups : list (pyval * list ProjectResult)) :
  concat (map snd (group_add tech proj groups))
  ≡ₚ proj :: concat (map snd groups).
Proof.
  induction groups as [|[k ps] gs IH]; cbn [group_add].
  - reflexivity.
  - destruct (key_eqb k tech); cbn [map concat snd].
    + rewrite <- app_assoc. cbn [app].
      now rewrite <- Permutation_middle.
    + rewrite IH. now rewrite <- Permutation_middle.
Qed.

Lemma group_by_technology_members (successful : list ProjectResult)
    (groups : list (pyval * list ProjectResult)) :
  group_by_technology successful = Ok groups ->
  concat (map snd groups) ≡ₚ successful.
Proof.
  unfold group_by_technology.
  assert (G : forall l gs gs',
    foldM (fun groups proj =>
             let tech := technology proj in
             if hashable tech then Ok (group_add tech proj groups)
             else Raise TypeError) l gs = Ok gs' ->
    concat (map snd gs') ≡ₚ concat (map snd gs) ++ l).
  { induction l as [|p l IH]; intros gs gs'; cbn [foldM].
    - intros [= <-]. now rewrite app_nil_r.
    - cbv zeta. destruct (hashable (technology p)); cbn [rbind];
        [|discriminate].
      intros H. rewrite (IH _ _ H), group_add_members.
      now rewrite <- Permutation_middle. }
  intros H. now rewrite (G _ _ _ H).
Qed.

Lemma summarize_technology_count (tech_projects : list ProjectResult)
    (ts : TechSummary) :
  summarize_technology tech_projects = Ok ts ->
  count ts = length tech_projects.
Proof.
  unfold summarize_technology.
  destruct (py_div _ _); cbn [rbind]; [|discriminate].
  destruct (py_min _); cbn [rbind]; [|discriminate].
  destruct (py_max _); cbn [rbind]; [|discriminate].
  destruct (py_min_by _ _); cbn [rbind]; [|discriminate].
  now intros [= <-].
Qed.

Lemma counted_groups (groups : list (pyval * list ProjectResult))
    (techs : list (pyval * TechSummary)) :
  mapM (fun g => let* ts := summarize_technology (snd g) in Ok (fst g, ts))
       groups = Ok techs ->
  counted techs = length (concat (map snd groups))
  /\ map fst techs = map fst groups.
Proof.
  intros H. apply mapM_Forall2 in H.
  induction H as [|g t gs ts Hg _ [IH1 IH2]]; [split; reflexivity|].
  destruct (summarize_technology (snd g)) as [s|] eqn:E; cbn [rbind] in Hg;
    [|discriminate].
  injection Hg as <-. cbn [counted foldr map concat snd fst].
  fold (counted ts).
  rewrite length_app, IH1, IH2, (summarize_technology_count _ _ E).
  split; reflexivity.
Qed.

(** X17.  In a comparison that is returned every success is counted under
    exactly one technology: the counts of the technology summaries add up
    to the number of projects analyzed successfully, and no technology is
    listed with a count of zero. *)
Theorem technology_counts_add_up (projects : list (gmap string pyval))
    (summary : Summary) (techs : list (pyval * TechSummary))
    (ranked : list Ranked) (recs : list Recommendation)
    (failed : option (list FailedProject)) :
  compare_projects projects = Ok (Compared summary techs ranked recs failed) ->
  counted techs = analyzed_successfully summary
  /\ Forall (fun ts => (1 <= count (snd ts))%nat) techs.
Proof.
  intros E. destruct (compare_projects_analyzed _ _ E) as [analyzed A].
  destruct (compare_projects_parts _ _ _ _ _ _ _ A E)
    as (best & avg & mn & mx & gs & _ & _ & _ & _ & _ & Egs & Ets & _ & ->).
  cbn [analyzed_successfully].
  destruct (counted_groups _ _ Ets) as [C _]. split.
  - now rewrite C, (group_by_technology_members _ _ Egs).
  - apply mapM_Forall2 in Ets. clear -Ets.
    induction Ets as [|g t gs' ts Hg _ IH]; constructor; [|exact IH].
    destruct (summarize_technology (snd g)) as [s|] eqn:E; cbn [rbind] in Hg;
      [|discriminate].
    injection Hg as <-. cbn [snd].
    rewrite (summarize_technology_count _ _ E).
    unfold summarize_technology in E.
    destruct (snd g) as [|p ps]; [|cbn; lia].
    cbn in E. discriminate E.
Qed.

Lemma technology_counts_add_up_witness :
  exists summary techs ranked recs failed,
    compare_projects [p70; unusable; p40]
    = Ok (Compared summary techs ranked recs failed)
    /\ counted techs = analyzed_successfully summary.
Proof.
  destruct (compare_projects [p70; unusable; p40]) as [[c m f|s t rk rc f]|]
    eqn:E; try (vm_compute in E; discriminate E).
  exists s, t, rk, rc, f. split; [reflexivity|].
  now destruct (technology_counts_add_up _ s t rk rc f E).
Defined.

End ComparatorGroups.

Section ProjectAnalysis.

Import CompareProjects ComparatorSpec Reporting EngineSpec Samples.




End ProjectAnalysis.

Section InputOrder.

Import CompareProjects ComparatorSpec Reporting Samples.







End InputOrder.

Section Recommendations.

Import CompareProjects ComparatorSpec Reporting Samples.



End Recommendations.

Section TechnologySummaries.

Import CompareProjects ComparatorSpec Reporting Samples.

Lemma fold_min_by_spec {A : Type} (key : A -> Q) (l : list A) (x : A) :
  let m := fold_left (fun m y => if Qltb (key y) (key m) then y else m) l x in
  m ∈ x :: l /\ Forall (fun y => key m <= key y) (x :: l).
Proof.
  revert x. induction l as [|y l IH]; intros x; cbn [fold_left].
  - split; [left | repeat constructor; lra].
  - destruct (Qltb (key y) (key x)) eqn:B.
    + apply Qltb_lt in B. destruct (IH y) as [I F]. split.
      * right. exact I.
      * inversion F as [|? ? Fy Fl]; subst.
        constructor; [lra|]. constructor; assumption.
    + apply Qltb_ge in B. destruct (IH x) as [I F]. split.
      * apply elem_of_cons in I as [-> | I]; [left | right; right; exact I].
      * inversion F as [|? ? Fx Fl]; subst.
        constructor; [exact Fx|]. constructor; [lra | exact Fl].
Qed.

Lemma py_min_by_spec {A : Type} (key : A -> Q) (l : list A) (m : A) :
  py_min_by key l = Ok m -> m ∈ l /\ Forall (fun y => key m <= key y) l.
Proof.
  destruct l as [|x l]; [discriminate|]. intros [= <-].
  apply fold_min_by_spec.
Qed.

(** What a technology summary says about its group. *)
Lemma summarize_technology_bounds (tech_projects : list ProjectResult)
    (ts : TechSummary) :
  summarize_technology tech_projects = Ok ts ->
  min_lcoe_usd_per_mwh ts <= avg_lcoe_usd_per_mwh ts
  /\ avg_lcoe_usd_per_mwh ts <= max_lcoe_usd_per_mwh ts
  /\ (exists p, p ∈ tech_projects
               /\ max_lcoe_usd_per_mwh ts = py_round (lcoe_usd_per_mwh p) 2)
  /\ (exists p, p ∈ tech_projects
               /\ best_project ts = source p
               /\ min_lcoe_usd_per_mwh ts = py_round (lcoe_usd_per_mwh p) 2).
Proof.
  unfold summarize_technology.
  destruct tech_projects as [|p0 ps] eqn:Ep; [discriminate|].
  rewrite <- Ep.
  assert (P : 0 < inject_Z (Z.of_nat (length tech_projects)))
    by (apply length_pos_Q; rewrite Ep; discriminate).
  rewrite length_map, py_div_ok by lra. cbn [rbind].
  destruct (py_min _) as [mn|] eqn:Emn; cbn [rbind]; [|discriminate].
  destruct (py_max _) as [mx|] eqn:Emx; cbn [rbind]; [|discriminate].
  destruct (py_min_by _ _) as [b|] eqn:Eb; cbn [rbind]; [|discriminate].
  intros [= <-].
  cbn [min_lcoe_usd_per_mwh avg_lcoe_usd_per_mwh max_lcoe_usd_per_mwh
       best_project].
  destruct (py_min_spec _ _ Emn) as [Imn Lmn].
  destruct (py_max_spec _ _ Emx) as [Imx Lmx].
  destruct (py_min_by_spec _ _ _ Eb) as [Ib Lb].
  apply list_elem_of_fmap in Imn as (pmn & -> & Ipmn).
  apply list_elem_of_fmap in Imx as (pmx & -> & Ipmx).
  split; [|split; [|split]].
  - apply py_round_mono, Qle_shift_div_l; [exact P|].
    rewrite <- (length_map lcoe_usd_per_mwh). now apply py_sum_lower.
  - apply py_round_mono, Qle_shift_div_r; [exact P|].
    rewrite <- (length_map lcoe_usd_per_mwh). now apply py_sum_upper.
  - eauto.
  - exists b. split; [exact Ib|]. split; [reflexivity|].
    apply py_round_proper. rewrite Forall_map in Lmn.
    rewrite Forall_forall in Lmn, Lb.
    apply Qle_antisym; [apply Lmn, Ib | apply Lb, Ipmn].
Qed.

(** X29.  In a comparison that is returned, every technology summary has
    its average between its minimum and its maximum, neither outside the
    overall best and maximum LCOE, and its best project is a ranked project
    whose LCOE is the minimum of the technology. *)
Theorem technology_summaries_bounded (projects : list (gmap string pyval))
    (summary : Summary) (techs : list (pyval * TechSummary))
    (ranked : list Ranked) (recs : list Recommendation)
    (failed : option (list FailedProject)) :
  compare_projects projects = Ok (Compared summary techs ranked recs failed) ->
  Forall (fun ts =>
            min_lcoe_usd_per_mwh (snd ts) <= avg_lcoe_usd_per_mwh (snd ts)
            /\ avg_lcoe_usd_per_mwh (snd ts) <= max_lcoe_usd_per_mwh (snd ts)
            /\ best_lcoe_usd_per_mwh summary <= min_lcoe_usd_per_mwh (snd ts)
            /\ max_lcoe_usd_per_mwh (snd ts)
               <= stat_max_lcoe (statistics summary)
            /\ exists r,
                 r ∈ ranked
                 /\ best_project (snd ts) = source (project r)
                 /\ min_lcoe_usd_per_mwh (snd ts)
                    = lcoe_usd_per_mwh (project r))
         techs.
Proof.
  intros E. destruct (compare_projects_analyzed _ _ E) as [analyzed A].
  destruct (compare_projects_parts _ _ _ _ _ _ _ A E)
    as (best & avg & mn & mx & gs & Hb & _ & _ & Emx & Erk & Egs & Ets & _ & ->).
  cbn [best_lcoe_usd_per_mwh statistics stat_max_lcoe].
  pose proof (successes_analyzed _ _ A) as Rnd.
  set (successful := successes analyzed) in *.
  destruct (mapiM_relative (lcoe_usd_per_mwh best) avg
              (py_sorted lcoe_usd_per_mwh successful) 0)
    as (rk & E' & M & _).
  rewrite Erk in E'. injection E' as <-.
  destruct (sorted_head_least lcoe_usd_per_mwh successful best Hb) as [_ Lb].
  destruct (py_max_spec _ _ Emx) as [_ Lmx]. rewrite Forall_map in Lmx.
  rewrite Forall_forall in Lb, Lmx, Rnd.
  pose proof (group_by_technology_members _ _ Egs) as Mem.
  apply mapM_Forall2 in Ets.
  apply Forall_forall. intros ts Its.
  apply list_elem_of_lookup in Its as [k Hk].
  destruct (Forall2_lookup_r _ _ _ _ _ Ets Hk) as (g & Hg & Sg).
  destruct (summarize_technology (snd g)) as [s|] eqn:Es; cbn [rbind] in Sg;
    [|discriminate].
  injection Sg as <-. cbn [snd].
  assert (In_group : forall p, p ∈ snd g -> p ∈ successful).
  { intros p Hp. rewrite <- Mem. apply list_elem_of_In, in_concat.
    exists (snd g). split; [|now apply list_elem_of_In].
    apply in_map, list_elem_of_In. eapply list_elem_of_lookup_2, Hg. }
  assert (Rounded : forall p, p ∈ successful ->
            py_round (lcoe_usd_per_mwh p) 2 = lcoe_usd_per_mwh p).
  { intros p Hp. destruct (Rnd p Hp) as [x ->]. apply py_round_idempotent. }
  destruct (summarize_technology_bounds _ _ Es)
    as (Lo & Hi & (pmx & Ipmx & Emax) & (b & Ib & Eb & Emin)).
  apply In_group in Ipmx, Ib.
  rewrite (Rounded _ Ib) in Emin.
  split; [exact Lo|]. split; [exact Hi|]. split; [|split].
  - rewrite Emin. apply Lb, Ib.
  - rewrite Emax. apply py_round_mono, Lmx, Ipmx.
  - assert (Ir : b ∈ map project ranked).
    { rewrite M, (py_sorted_perm lcoe_usd_per_mwh). exact Ib. }
    apply list_elem_of_fmap in Ir as (r & -> & Ir).
    exists r. auto.
Qed.

Lemma technology_summaries_bounded_witness :
  exists summary techs ranked recs failed,
    compare_projects [p70; unusable; p40]
    = Ok (Compared summary techs ranked recs failed)
    /\ Forall (fun ts => best_lcoe_usd_per_mwh summary
                         <= min_lcoe_usd_per_mwh (snd ts)) techs.
Proof.
  destruct (compare_projects [p70; unusable; p40]) as [[c m f|s t rk rc f]|]
    eqn:E; try (vm_compute in E; discriminate E).
  exists s, t, rk, rc, f. split; [reflexivity|].
  eapply Forall_impl; [exact (technology_summaries_bounded _ s t rk rc f E)|].
  intros ts H. apply H.
Defined.

End TechnologySummaries.

(** ** More on the sensitivity analyzer *)

Section Sweep.

Import SensitivityAnalysis AnalyzerSpec EngineSpec SweepSpec Samples.

Lemma sensitivity_point_candidate (base_inputs : CalculateLcoe.LCOEInput)
    (param_name : string) (base_lcoe : Q) (base_value : pyval) (v : Q) :
  sensitivity_point base_inputs param_name base_lcoe base_value v
  = match CalculateLcoe.validate_input (candidate base_inputs param_name v) with
    | inl _ => Ok None
    | inr validated =>
        let* res := CalculateLcoe.calculate_lcoe validated in
        let lcoe := CalculateLcoe.lcoe_usd_per_mwh res in
        let* pct_change :=
          (if Qltb 0 base_lcoe then
             let* q := py_div (lcoe - base_lcoe) base_lcoe in Ok (q * 100)
           else Ok 0) in
        let* bv := number_operand base_value in
        let* vpc :=
          (if Qltb 0 bv then
             let* q := py_div (v - bv) bv in Ok (q * 100)
           else Ok 0) in
        Ok (Some {| value := v;
                    value_pct_change := py_round vpc 2;
                    lcoe_usd_per_mwh := lcoe;
                    lcoe_pct_change := py_round pct_change 2;
                    is_base := Qltb (Qabs (v - bv)) (1 # 10000) |})
    end.
Proof.
  unfold sensitivity_point, candidate.
  destruct (String.eqb param_name "project_lifetime_years");
    [rewrite insert_insert_eq|]; reflexivity.
Qed.

(** What one candidate value gives. *)
Lemma sensitivity_point_inv (base_inputs : CalculateLcoe.LCOEInput)
    (param_name : string) (base_lcoe : Q) (base_value : pyval) (v : Q)
    (opt : option SensitivityPoint) :
  sensitivity_point base_inputs param_name base_lcoe base_value v = Ok opt ->
  match opt with
  | None => admissible base_inputs param_name v = false
  | Some pt =>
      admissible base_inputs param_name v = true
      /\ value pt = v
      /\ exists x, lcoe_usd_per_mwh pt = py_round x 2
  end.
Proof.
  rewrite sensitivity_point_candidate. unfold admissible.
  destruct (CalculateLcoe.validate_input _) as [e|validated].
  { now intros [= <-]. }
  destruct (CalculateLcoe.calculate_lcoe validated) as [res|] eqn:E;
    cbn [rbind]; [|discriminate].
  repeat match goal with
  | |- (let* _ := ?m in _) = _ -> _ =>
      destruct m; cbn [rbind]; [|discriminate]
  end.
  intros [= <-]. cbn. repeat split.
  now apply (calculate_lcoe_rounded validated).
Qed.

Lemma retained_values (base_inputs : CalculateLcoe.LCOEInput)
    (param_name : string) (base_lcoe : Q) (base_value : pyval)
    (values : list Q) (points : list (option SensitivityPoint)) :
  mapM (sensitivity_point base_inputs param_name base_lcoe base_value) values
  = Ok points ->
  map value (omap id points)
  = filter (fun v => admissible base_inputs param_name v = true) values
  /\ Forall (fun pt => exists x, lcoe_usd_per_mwh pt = py_round x 2)
            (omap id points).
Proof.
  intros H. apply mapM_Forall2 in H.
  induction H as [|v opt vs pts Hv _ [IH1 IH2]]; [split; [reflexivity|constructor]|].
  apply sensitivity_point_inv in Hv. rewrite filter_cons.
  cbn [omap list_omap]. destruct opt as [pt|]; cbn [id].
  - destruct Hv as (Ad & Va & Rn).
    destruct (decide (admissible base_inputs param_name v = true));
      [|contradiction].
    cbn [map]. rewrite Va, IH1. split; [reflexivity|]. now constructor.
  - destruct (decide (admissible base_inputs param_name v = true));
      [congruence|].
    split; assumption.
Qed.

(** Everything a returned run was computed from. *)
Lemma run_sensitivity_inv (base_inputs : CalculateLcoe.LCOEInput)
    (param_name : string) (values : list Q) (r : SensitivityResult) :
  run_sensitivity base_inputs param_name values = Ok r ->
  exists res points,
    CalculateLcoe.calculate_lcoe base_inputs = Ok res
    /\ mapM (sensitivity_point base_inputs param_name
               (CalculateLcoe.lcoe_usd_per_mwh res)
               (dict_get (to_dict base_inputs) param_name (VInt 0)))
            values = Ok points
    /\ results r = omap id points
    /\ values_tested r = length (results r)
    /\ parameter r = param_name
    /\ base_value r = dict_get (to_dict base_inputs) param_name (VInt 0)
    /\ base_lcoe_usd_per_mwh r = CalculateLcoe.lcoe_usd_per_mwh res
    /\ match results r with
       | [] => min_lcoe r = 0 /\ max_lcoe r = 0 /\ lcoe_range r = 0
       | _ =>
           py_min (map lcoe_usd_per_mwh (results r)) = Ok (min_lcoe r)
           /\ py_max (map lcoe_usd_per_mwh (results r)) = Ok (max_lcoe r)
           /\ lcoe_range r = py_round (max_lcoe r - min_lcoe r) 2
       end.
Proof.
  unfold run_sensitivity.
  destruct (CalculateLcoe.calculate_lcoe base_inputs) as [res|];
    cbn [rbind]; [|discriminate].
  destruct (mapM _ values) as [points|] eqn:M; cbn [rbind]; [|discriminate].
  rewrite elasticities_of_spec. cbn [rbind].
  rewrite avg_elasticity_of_spec. cbn [rbind].
  destruct (omap id points) as [|pt pts] eqn:E; cbn [rbind].
  - intros [= <-]. exists res, points.
    cbn [results values_tested parameter base_value base_lcoe_usd_per_mwh
         min_lcoe max_lcoe lcoe_range length].
    repeat split; auto.
  - destruct (py_min _) as [mn|] eqn:Emn; cbn [rbind]; [|discriminate].
    destruct (py_max _) as [mx|] eqn:Emx; cbn [rbind]; [|discriminate].
    intros [= <-]. exists res, points.
    cbn [results values_tested parameter base_value base_lcoe_usd_per_mwh
         min_lcoe max_lcoe lcoe_range].
    rewrite E. repeat split; auto.
Qed.

(** X18.  In a sensitivity run that returns, the retained points are the
    candidate values that validate, in the order given; [values_tested]
    counts them; every retained LCOE lies between [min_lcoe] and
    [max_lcoe]; and [lcoe_range] is the difference of the two. *)
Theorem retained_points_follow_values
    (base_inputs : CalculateLcoe.LCOEInput) (param_name : string)
    (values : list Q) (r : SensitivityResult) :
  run_sensitivity base_inputs param_name values = Ok r ->
  map value (results r)
  = filter (fun v => admissible base_inputs param_name v = true) values
  /\ values_tested r = length (results r)
  /\ (values_tested r <= length values)%nat
  /\ Forall (fun pt => min_lcoe r <= lcoe_usd_per_mwh pt
                       /\ lcoe_usd_per_mwh pt <= max_lcoe r) (results r)
  /\ lcoe_range r == max_lcoe r - min_lcoe r.
Proof.
  intros E.
  destruct (run_sensitivity_inv _ _ _ _ E)
    as (res & points & _ & M & Rs & Vt & _ & _ & _ & Sh).
  destruct (retained_values _ _ _ _ _ _ M) as [Va Rn].
  rewrite <- Rs in Va, Rn.
  split; [exact Va|]. split; [exact Vt|]. split.
  { rewrite Vt, <- (length_map value), Va. apply length_filter. }
  destruct (results r) as [|pt pts] eqn:Er.
  - destruct Sh as (-> & -> & ->). split; [constructor | reflexivity].
  - rewrite <- Er in *. destruct Sh as (Emn & Emx & ->).
    destruct (py_min_spec _ _ Emn) as [Imn Lmn].
    destruct (py_max_spec _ _ Emx) as [Imx Lmx].
    rewrite Forall_map in Lmn, Lmx. split.
    + rewrite Forall_forall in Lmn, Lmx |- *. intros p Hp. split; auto.
    + apply list_elem_of_fmap in Imn as (pmn & -> & Ipmn).
      apply list_elem_of_fmap in Imx as (pmx & -> & Ipmx).
      rewrite Forall_forall in Rn.
      destruct (Rn pmn Ipmn) as [x ->]. destruct (Rn pmx Ipmx) as [y ->].
      apply py_round_difference.
Qed.

Lemma retained_points_follow_values_witness :
  exists r,
    run_sensitivity (validated solar_project) "discount_rate"
      [4 # 100; 50 # 100; 12 # 100] = Ok r
    /\ map value (results r) = [4 # 100; 12 # 100].
Proof.
  destruct (run_sensitivity (validated solar_project) "discount_rate"
              [4 # 100; 50 # 100; 12 # 100]) as [r|] eqn:E;
    [|vm_compute in E; discriminate E].
  exists r. split; [reflexivity|].
  destruct (retained_points_follow_values _ _ _ r E) as (V & _).
  rewrite V. reflexivity.
Defined.

End Sweep.

Section SweepBase.

Import SensitivityAnalysis AnalyzerSpec EngineSpec SweepSpec Samples.




(** X20.  A sweep none of whose values validates is answered all the
    same: when the base set computes, the run returns no point, zero values
    tested, an elasticity of 0 read as negligible, and zeros for the LCOE
    bounds. *)
Theorem empty_sweep_is_answered
    (base_inputs : CalculateLcoe.LCOEInput) (param_name : string)
    (values : list Q) (res : CalculateLcoe.LCOEResult) :
  CalculateLcoe.calculate_lcoe base_inputs = Ok res ->
  Forall (fun v => admissible base_inputs param_name v = false) values ->
  run_sensitivity base_inputs param_name values
  = Ok {| parameter := param_name;
          base_value := dict_get (to_dict base_inputs) param_name (VInt 0);
          base_lcoe_usd_per_mwh := CalculateLcoe.lcoe_usd_per_mwh res;
          elasticity := 0;
          elasticity_interpretation :=
            "Negligible impact - LCOE is insensitive to this parameter";
          values_tested := 0;
          min_lcoe := 0;
          max_lcoe := 0;
          lcoe_range := 0;
          results := [] |}.
Proof.
  intros C F. unfold run_sensitivity. rewrite C. cbn [rbind].
  assert (M : mapM (sensitivity_point base_inputs param_name
                      (CalculateLcoe.lcoe_usd_per_mwh res)
                      (dict_get (to_dict base_inputs) param_name (VInt 0)))
                   values
              = Ok (map (fun _ => None) values)).
  { induction F as [|v vs Hv _ IH]; [reflexivity|].
    cbn [mapM map]. rewrite sensitivity_point_candidate.
    unfold admissible in Hv.
    destruct (CalculateLcoe.validate_input _); [|discriminate Hv].
    cbn [rbind]. now rewrite IH. }
  rewrite M. cbn [rbind].
  assert (O : omap id (map (fun _ : Q => @None SensitivityPoint) values) = []).
  { clear. induction values as [|v vs IH]; [reflexivity | exact IH]. }
  rewrite O. reflexivity.
Qed.

Lemma empty_sweep_is_answered_witness :
  exists r,
    run_sensitivity (validated solar_project) "discount_rate"
      [50 # 100; 90 # 100] = Ok r
    /\ values_tested r = 0%nat /\ elasticity r = 0.
Proof.
  destruct (CalculateLcoe.calculate_lcoe (validated solar_project))
    as [res|] eqn:C; [|vm_compute in C; discriminate C].
  eexists. split.
  - apply (empty_sweep_is_answered _ _ _ res C).
    repeat constructor.
  - split; reflexivity.
Defined.

End SweepBase.

Section DefaultRanges.

Import SensitivityAnalysis AnalyzerSpec EngineSpec SweepSpec Samples.

(** More fuel does not change a range that was produced. *)
Lemma range_loop_fuel (max_val step : Q) (fuel : nat) :
  forall (fuel' : nat) (current : Q) (values out : list Q),
    range_loop fuel current max_val step values = Some out ->
    (fuel <= fuel')%nat ->
    range_loop fuel' current max_val step values = Some out.
Proof.
  induction fuel as [|fuel IH]; intros fuel' current values out H L;
    [discriminate H|].
  destruct fuel' as [|fuel']; [lia|]. cbn [range_loop] in H |- *.
  destruct (Qleb current (max_val + (1 # 10000))); [|exact H].
  apply (IH fuel'); [exact H | lia].
Qed.

(** The default range of a parameter: what [generate_range] returns when
    no range is given. *)
Lemma default_range_shape (fuel : nat) (base : Q) (param_name : string) :
  (7 <= fuel)%nat ->
  exists values,
    generate_range fuel base param_name None = Some (Ok values)
    /\ (5 <= length values <= 7)%nat
    /\ (DEFAULT_RANGES !! param_name = None ->
        exists v, values !! 3%nat = Some v /\ v == base)
    /\ (forall config,
          DEFAULT_RANGES !! param_name = Some config ->
          range_type config = multiplier ->
          values !! 3%nat = Some (py_round base 2))
    /\ (forall config,
          DEFAULT_RANGES !! param_name = Some config ->
          range_type config = absolute ->
          Forall (fun v => range_min config <= v /\ v <= range_max config)
                 values
          /\ (exists v, head values = Some v /\ v == range_min config)
          /\ (exists v, last values = Some v /\ v == range_max config)).
Proof.
  intros F. unfold generate_range.
  assert (One : base * 1 == base) by ring.
  destruct (DEFAULT_RANGES !! param_name) as [config|] eqn:E.
  - assert (I : (param_name, config)
                ∈ [ ("capex_usd",
                       Build_RangeConfig (7 # 10) (13 # 10) (1 # 10) multiplier);
                    ("annual_opex_usd",
                       Build_RangeConfig (7 # 10) (13 # 10) (1 # 10) multiplier);
                    ("annual_fuel_cost_usd",
                       Build_RangeConfig (7 # 10) (13 # 10) (1 # 10) multiplier);
                    ("annual_generation_mwh",
                       Build_RangeConfig (8 # 10) (12 # 10) (5 # 100) multiplier);
                    ("project_lifetime_years",
                       Build_RangeConfig 15 35 5 absolute);
                    ("discount_rate",
                       Build_RangeConfig (4 # 100) (14 # 100) (2 # 100) absolute);
                    ("degradation_rate",
                       Build_RangeConfig 0 (2 # 100) (5 # 1000) absolute);
                    ("opex_escalation_rate",
                       Build_RangeConfig 0 (5 # 100) (1 # 100) absolute);
                    ("fuel_escalation_rate",
                       Build_RangeConfig 0 (5 # 100) (1 # 100) absolute) ]%string)
      by exact (elem_of_list_to_map_2 _ _ _ E).
    clear E.
    assert (Abs : forall mn mx st out,
      range_loop 7 mn mx st [] = Some out ->
      option_map Ok (range_loop fuel mn mx st []) = Some (Ok out)).
    { intros mn mx st out H.
      now rewrite (range_loop_fuel mx st 7 fuel mn [] out H F). }
    repeat (apply elem_of_cons in I as [I | I]);
      try (apply elem_of_nil in I; contradiction);
      injection I as -> ->;
      cbn [range_type range_min range_max range_step].
    1-4: eexists; split; [reflexivity|]; split; [cbn; lia|];
         split; [discriminate|]; split;
         [intros c _ _; cbn [map lookup list_lookup];
          f_equal; now apply py_round_proper
         |intros c [= <-]; discriminate].
    all: eexists; split; [apply Abs; vm_compute; reflexivity|];
         split; [cbn; lia|]; split; [discriminate|]; split;
         [intros c [= <-]; discriminate|];
         intros c [= <-] _; cbn [range_min range_max]; split;
         [repeat constructor; discriminate
         |split; eexists; (split; [reflexivity|reflexivity])].
  - eexists. split; [reflexivity|]. split; [cbn; lia|].
    split; [intros _; eexists; split; [reflexivity | exact One]|].
    split; intros c H; discriminate H.
Qed.



End DefaultRanges.

Section FullAnalysis.

Import SensitivityAnalysis AnalyzerSpec EngineSpec SweepSpec FullSensitivity.
Import Samples.

(** A sensitivity run goes through when the base set is in range, its
    capacity of the documented type and the base value a number. *)
Lemma run_sensitivity_returns (base_inputs : CalculateLcoe.LCOEInput)
    (param_name : string) (values : list Q) (bv : Q) :
  in_range base_inputs ->
  numeric_or_absent (CalculateLcoe.capacity_mw base_inputs) ->
  as_number (dict_get (to_dict base_inputs) param_name (VInt 0)) = Some bv ->
  exists r,
    run_sensitivity base_inputs param_name values = Ok r
    /\ parameter r = param_name.
Proof.
  intros R T Nv.
  assert (E : exists r, run_sensitivity base_inputs param_name values = Ok r).
  { unfold run_sensitivity.
    destruct (capacity_factor_of_typed base_inputs R T) as [cf CF].
    destruct (calculate_lcoe_ok base_inputs cf R CF) as (res & -> & _).
    cbn [rbind].
    destruct (mapM_total
                (sensitivity_point base_inputs param_name
                   (CalculateLcoe.lcoe_usd_per_mwh res)
                   (dict_get (to_dict base_inputs) param_name (VInt 0)))
                values) as [points ->].
    { apply Forall_forall. intros v _.
      now apply (sensitivity_point_ok _ _ _ _ bv). }
    cbn [rbind]. rewrite elasticities_of_spec. cbn [rbind].
    rewrite avg_elasticity_of_spec. cbn [rbind].
    destruct (omap id points) as [|pt pts] eqn:E; cbn [rbind]; [eauto|].
    rewrite <- E.
    assert (N : map lcoe_usd_per_mwh (omap id points) <> [])
      by (rewrite E; discriminate).
    destruct (py_min_ok _ N) as [mn ->]. destruct (py_max_ok _ N) as [mx ->].
    cbn [rbind]. eauto. }
  destruct E as [r E]. exists r. split; [exact E|].
  now destruct (run_sensitivity_inv _ _ _ _ E) as (_ & _ & _ & _ & _ & _ & P & _).
Qed.

Lemma params_to_analyze_ok (base_inputs : CalculateLcoe.LCOEInput) :
  params_to_analyze base_inputs = Ok (key_parameters base_inputs).
Proof.
  unfold params_to_analyze, key_parameters.
  change (dict_get (to_dict base_inputs) "annual_fuel_cost_usd" (VInt 0))
    with (VFloat (CalculateLcoe.annual_fuel_cost_usd base_inputs)).
  change (dict_get (to_dict base_inputs) "annual_opex_usd" (VInt 0))
    with (VFloat (CalculateLcoe.annual_opex_usd base_inputs)).
  cbn [number_operand as_number rbind].
  destruct (Qltb 0 (CalculateLcoe.annual_fuel_cost_usd base_inputs)),
    (Qltb 0 (CalculateLcoe.annual_opex_usd base_inputs)); reflexivity.
Qed.

(** The nine parameters with a default range are numeric fields of every
    parameter set. *)
Lemma ranged_parameter_present (base_inputs : CalculateLcoe.LCOEInput)
    (param : string) :
  is_Some (DEFAULT_RANGES !! param) ->
  exists v bv,
    to_dict base_inputs !! param = Some v /\ as_number v = Some bv.
Proof.
  intros [config E].
  apply (elem_of_list_to_map_2 (M := gmap string)) in E.
  repeat (apply elem_of_cons in E as [E | E]);
    try (apply elem_of_nil in E; contradiction);
    injection E as -> _; eexists; eexists; split; reflexivity.
Qed.

Lemma key_parameters_ranged (base_inputs : CalculateLcoe.LCOEInput) :
  Forall (fun param => is_Some (DEFAULT_RANGES !! param))
         (key_parameters base_inputs).
Proof.
  unfold key_parameters.
  destruct (Qltb 0 (CalculateLcoe.annual_fuel_cost_usd base_inputs)),
    (Qltb 0 (CalculateLcoe.annual_opex_usd base_inputs));
    repeat constructor; eexists; reflexivity.
Qed.

Lemma key_parameters_distinct (base_inputs : CalculateLcoe.LCOEInput) :
  NoDup (key_parameters base_inputs)
  /\ (6 <= length (key_parameters base_inputs) <= 9)%nat.
Proof.
  unfold key_parameters.
  destruct (Qltb 0 (CalculateLcoe.annual_fuel_cost_usd base_inputs)),
    (Qltb 0 (CalculateLcoe.annual_opex_usd base_inputs));
    (split; [apply (bool_decide_unpack _); vm_compute; exact I | cbn; lia]).
Qed.

Lemma analyze_parameter_ok (fuel : nat)
    (base_inputs : CalculateLcoe.LCOEInput)
    (all_results : list (string * SensitivityResult)) (param : string) :
  in_range base_inputs ->
  numeric_or_absent (CalculateLcoe.capacity_mw base_inputs) ->
  (7 <= fuel)%nat ->
  is_Some (DEFAULT_RANGES !! param) ->
  exists r,
    analyze_parameter fuel base_inputs all_results param
    = Some (Ok (dict_set param r all_results))
    /\ parameter r = param.
Proof.
  intros R T F D.
  destruct (ranged_parameter_present base_inputs param D)
    as (v & bv & L & N).
  unfold analyze_parameter, default_range, dict_get. rewrite L.
  cbn [default from_option id]. rewrite N.
  destruct (default_range_shape fuel bv param F) as (values & -> & _).
  destruct (run_sensitivity_returns base_inputs param values bv R T)
    as (r & -> & P).
  { unfold dict_get. now rewrite L. }
  cbn [rbind]. eauto.
Qed.

Lemma dict_set_fresh {V : Type} (k : string) (v : V)
    (d : list (string * V)) :
  k ∉ map fst d -> dict_set k v d = d ++ [(k, v)].
Proof.
  induction d as [|[k' v'] d IH]; intros N; [reflexivity|].
  cbn [dict_set]. cbn [map fst] in N.
  apply not_elem_of_cons in N as [Ne N].
  destruct (String.eqb_spec k' k) as [->|_]; [congruence|].
  cbn [app]. now rewrite IH.
Qed.

Lemma analyze_parameters_ok (fuel : nat)
    (base_inputs : CalculateLcoe.LCOEInput) (params : list string) :
  in_range base_inputs ->
  numeric_or_absent (CalculateLcoe.capacity_mw base_inputs) ->
  (7 <= fuel)%nat ->
  Forall (fun param => is_Some (DEFAULT_RANGES !! param)) params ->
  forall all_results,
    NoDup (map fst all_results ++ params) ->
    Forall (fun kv => parameter (snd kv) = fst kv) all_results ->
    exists all_results',
      analyze_parameters fuel base_inputs params all_results
      = Some (Ok all_results')
      /\ map fst all_results' = map fst all_results ++ params
      /\ Forall (fun kv => parameter (snd kv) = fst kv) all_results'.
Proof.
  intros R T F D. induction D as [|param params Hp _ IH];
    intros all_results N C; cbn [analyze_parameters].
  - exists all_results. rewrite app_nil_r. auto.
  - destruct (analyze_parameter_ok fuel base_inputs all_results param R T F Hp)
      as (r & -> & P).
    assert (Fr : param ∉ map fst all_results).
    { apply NoDup_app in N as (_ & N & _). intros I.
      apply (N param I). left. }
    rewrite (dict_set_fresh _ _ _ Fr).
    destruct (IH (all_results ++ [(param, r)])) as (ar & E & K & C').
    + rewrite map_app, <- app_assoc. exact N.
    + apply Forall_app. split; [exact C|]. now repeat constructor.
    + exists ar. split; [exact E|]. split; [|exact C'].
      rewrite K, map_app, <- app_assoc. reflexivity.
Qed.

(** The full analysis returns on a base set in range, with a result for
    every key parameter. *)
Lemma run_full_sensitivity_returns (fuel : nat)
    (base_inputs : CalculateLcoe.LCOEInput) :
  in_range base_inputs ->
  numeric_or_absent (CalculateLcoe.capacity_mw base_inputs) ->
  (7 <= fuel)%nat ->
  exists r,
    run_full_sensitivity fuel base_inputs = Some (Ok r)
    /\ map fst (by_parameter r) = key_parameters base_inputs
    /\ Forall (fun kv => parameter (snd kv) = fst kv) (by_parameter r)
    /\ parameters_analyzed (summary r) = length (key_parameters base_inputs)
    /\ (6 <= parameters_analyzed (summary r) <= 9)%nat.
Proof.
  intros R T F. unfold run_full_sensitivity.
  rewrite params_to_analyze_ok.
  destruct (key_parameters_distinct base_inputs) as [N L].
  destruct (analyze_parameters_ok fuel base_inputs
              (key_parameters base_inputs) R T F
              (key_parameters_ranged base_inputs) [])
    as (ar & -> & K & C); [exact N | constructor |].
  cbn [map app] in K.
  eexists. split; [reflexivity|].
  cbn [by_parameter summary parameters_analyzed].
  assert (Len : length ar = length (key_parameters base_inputs))
    by now rewrite <- K, length_map.
  rewrite Len. auto.
Qed.



End FullAnalysis.

Section ParameterRanking.

Import SensitivityAnalysis AnalyzerSpec EngineSpec SweepSpec FullSensitivity.
Import ComparatorSpec Samples.

Lemma py_sorted_reverse_perm {A : Type} (key : A -> Q) (l : list A) :
  py_sorted_reverse key l ≡ₚ l.
Proof. apply py_sorted_perm. Qed.

Lemma py_sorted_reverse_descending {A : Type} (key : A -> Q) (l : list A) :
  descending key (py_sorted_reverse key l).
Proof.
  unfold py_sorted_reverse.
  pose proof (py_sorted_ascending (fun a => - key a) l) as H.
  unfold ascending in H. unfold descending.
  induction H as [|a l' _ IH F]; constructor; [exact IH|].
  eapply Forall_impl; [exact F|]. intros b Hb. cbn beta in Hb. lra.
Qed.

(** Elements of one key stay in input order. *)
Lemma py_sorted_reverse_stable {A : Type} (key : A -> Q) (q : Q) (l : list A) :
  filter (has_key key q) (py_sorted_reverse key l) = filter (has_key key q) l.
Proof.
  unfold py_sorted_reverse.
  assert (X : forall l' : list A,
    filter (has_key key q) l' = filter (has_key (fun a => - key a) (- q)) l').
  { intros l'. apply list_filter_iff. intros a. unfold has_key.
    rewrite !Qeq_bool_iff. split; intros H; lra. }
  rewrite !X. apply py_sorted_stable.
Qed.

(** What a returned full analysis was computed from. *)
Lemma run_full_sensitivity_inv (fuel : nat)
    (base_inputs : CalculateLcoe.LCOEInput) (r : FullResult) :
  run_full_sensitivity fuel base_inputs = Some (Ok r) ->
  parameter_ranking (summary r)
  = py_sorted_reverse ranked_elasticity (map rank_entry (by_parameter r))
  /\ parameters_analyzed (summary r) = length (by_parameter r)
  /\ most_sensitive_parameter (summary r)
     = option_map ranked_parameter (head (parameter_ranking (summary r))).
Proof.
  unfold run_full_sensitivity.
  destruct (params_to_analyze base_inputs) as [params|]; [|discriminate].
  destruct (analyze_parameters fuel base_inputs params [])
    as [[all_results|]|]; try discriminate.
  intros [= <-]. cbn [summary by_parameter parameter_ranking
                       parameters_analyzed most_sensitive_parameter].
  split; [reflexivity|]. split; [reflexivity|].
  now destruct (py_sorted_reverse _ _).
Qed.

(** X23.  In a full analysis that returns, the parameter ranking lists
    every analyzed parameter once, with the absolute value of its
    elasticity and its LCOE range, in descending order of that absolute
    elasticity, parameters of equal elasticity staying in the order they
    were analyzed; and the most sensitive parameter is the first of the
    ranking, so that no analyzed parameter has a larger absolute
    elasticity. *)
Theorem parameter_ranking_descends (fuel : nat)
    (base_inputs : CalculateLcoe.LCOEInput) (r : FullResult) :
  run_full_sensitivity fuel base_inputs = Some (Ok r) ->
  let ranking := parameter_ranking (summary r) in
  ranking ≡ₚ map rank_entry (by_parameter r)
  /\ length ranking = parameters_analyzed (summary r)
  /\ descending ranked_elasticity ranking
  /\ (forall q,
        filter (has_key ranked_elasticity q) ranking
        = filter (has_key ranked_elasticity q)
                 (map rank_entry (by_parameter r)))
  /\ match ranking with
     | [] => most_sensitive_parameter (summary r) = None
             /\ by_parameter r = []
     | top :: _ =>
         most_sensitive_parameter (summary r) = Some (ranked_parameter top)
         /\ forall kv, kv ∈ by_parameter r ->
              Qabs (elasticity (snd kv)) <= ranked_elasticity top
     end.
Proof.
  intros E. cbv zeta.
  destruct (run_full_sensitivity_inv _ _ _ E) as (Rk & Pa & Ms).
  rewrite Ms, Pa, Rk. clear E Rk Pa Ms.
  pose proof (py_sorted_reverse_perm ranked_elasticity
                (map rank_entry (by_parameter r))) as P.
  pose proof (py_sorted_reverse_descending ranked_elasticity
                (map rank_entry (by_parameter r))) as D.
  split; [exact P|]. split; [now rewrite P, length_map|].
  split; [exact D|].
  split; [intros q; apply py_sorted_reverse_stable|].
  destruct (py_sorted_reverse ranked_elasticity
              (map rank_entry (by_parameter r))) as [|top rest].
  - split; [reflexivity|]. apply Permutation_nil_l in P.
    now destruct (by_parameter r).
  - split; [reflexivity|]. intros kv Hkv.
    assert (I : rank_entry kv ∈ top :: rest).
    { rewrite P. now apply list_elem_of_fmap_2. }
    unfold descending in D. inversion D as [|? ? _ F]; subst.
    apply elem_of_cons in I as [<- | I].
    + cbn. lra.
    + rewrite Forall_forall in F. exact (F _ I).
Qed.

Lemma parameter_ranking_descends_witness :
  exists r,
    run_full_sensitivity 7 (validated solar_project) = Some (Ok r)
    /\ descending ranked_elasticity (parameter_ranking (summary r))
    /\ length (parameter_ranking (summary r)) = 6%nat.
Proof.
  destruct (run_full_sensitivity_returns 7 (validated solar_project))
    as (r & E & _ & _ & L & _).
  - now apply (validated_in_range solar_project).
  - right. exists 100. reflexivity.
  - lia.
  - exists r. split; [exact E|].
    destruct (parameter_ranking_descends 7 (validated solar_project) r E)
      as (_ & Len & D & _).
    split; [exact D|]. rewrite Len, L. reflexivity.
Defined.

End ParameterRanking.

Section FullAnalysisEntries.

Import SensitivityAnalysis AnalyzerSpec EngineSpec SweepSpec FullSensitivity.
Import Samples.

Lemma dict_set_Forall {V : Type} (P : string * V -> Prop) (k : string)
    (v : V) (d : list (string * V)) :
  P (k, v) -> Forall P d -> Forall P (dict_set k v d).
Proof.
  intros Pk H. induction H as [|[k' v'] d Hd Hrest IH]; cbn [dict_set].
  - now repeat constructor.
  - destruct (String.eqb_spec k' k) as [->|_]; now constructor.
Qed.

Lemma analyze_parameter_inv (fuel : nat)
    (base_inputs : CalculateLcoe.LCOEInput)
    (all_results all_results' : list (string * SensitivityResult))
    (param : string) :
  analyze_parameter fuel base_inputs all_results param
  = Some (Ok all_results') ->
  all_results' = all_results
  \/ exists values res,
       default_range fuel (dict_get (to_dict base_inputs) param (VInt 0)) param
       = Some (Ok values)
       /\ run_sensitivity base_inputs param values = Ok res
       /\ all_results' = dict_set param res all_results.
Proof.
  unfold analyze_parameter.
  match goal with
  | |- match ?inc with _ => _ end = _ -> _ =>
      destruct inc as [[|]|]; [| intros [= <-]; now left | discriminate]
  end.
  destruct (default_range _ _ _) as [[values|]|]; try discriminate.
  destruct (run_sensitivity base_inputs param values) as [res|] eqn:E;
    cbn [rbind]; [|discriminate].
  intros [= <-]. right. eauto.
Qed.

Lemma analyze_parameters_inv (fuel : nat)
    (base_inputs : CalculateLcoe.LCOEInput)
    (P : string * SensitivityResult -> Prop) (params : list string) :
  (forall param values res,
     default_range fuel (dict_get (to_dict base_inputs) param (VInt 0)) param
     = Some (Ok values) ->
     run_sensitivity base_inputs param values = Ok res ->
     P (param, res)) ->
  forall all_results all_results',
    analyze_parameters fuel base_inputs params all_results
    = Some (Ok all_results') ->
    Forall P all_results -> Forall P all_results'.
Proof.
  intros HP. induction params as [|param params IH];
    intros all_results all_results'; cbn [analyze_parameters].
  - now intros [= <-].
  - destruct (analyze_parameter fuel base_inputs all_results param)
      as [[ar|]|] eqn:E; try discriminate.
    intros H F. apply (IH ar all_results' H).
    destruct (analyze_parameter_inv _ _ _ _ _ E)
      as [-> | (values & res & D & S & ->)]; [exact F|].
    apply dict_set_Forall; [|exact F]. now apply (HP param values res).
Qed.

(** X30.  The full analysis is made of the single analyses: in a full
    analysis that returns, the entry of every parameter is what
    [run_sensitivity] returns for that parameter on its default range. *)
Theorem full_analysis_is_single_analyses (fuel : nat)
    (base_inputs : CalculateLcoe.LCOEInput) (r : FullResult) :
  run_full_sensitivity fuel base_inputs = Some (Ok r) ->
  Forall (fun kv =>
            exists values,
              default_range fuel
                (dict_get (to_dict base_inputs) (fst kv) (VInt 0)) (fst kv)
              = Some (Ok values)
              /\ run_sensitivity base_inputs (fst kv) values = Ok (snd kv))
         (by_parameter r).
Proof.
  unfold run_full_sensitivity.
  destruct (params_to_analyze base_inputs) as [params|]; [|discriminate].
  destruct (analyze_parameters fuel base_inputs params [])
    as [[all_results|]|] eqn:E; try discriminate.
  intros [= <-]. cbn [by_parameter].
  apply (analyze_parameters_inv fuel base_inputs _ params) with (all_results := []);
    [|exact E | constructor].
  intros param values res D S. cbn [fst snd]. eauto.
Qed.

Lemma full_analysis_is_single_analyses_witness :
  exists r values res,
    run_full_sensitivity 7 (validated solar_project) = Some (Ok r)
    /\ head (by_parameter r) = Some ("capex_usd"%string, res)
    /\ run_sensitivity (validated solar_project) "capex_usd" values = Ok res.
Proof.
  destruct (run_full_sensitivity_returns 7 (validated solar_project))
    as (r & E & K & _).
  - now apply (validated_in_range solar_project).
  - right. exists 100. reflexivity.
  - lia.
  - pose proof (full_analysis_is_single_analyses 7 _ r E) as F.
    destruct (by_parameter r) as [|[k res] rest] eqn:B; [discriminate K|].
    injection K as -> _.
    inversion F as [|? ? (values & _ & S) _]; subst.
    exists r, values, res. split; [exact E|].
    split; [now rewrite B | exact S].
Defined.

End FullAnalysisEntries.
